(** * civiclookup: address to congressional district lookup

    A shallow embedding of the lookup tool
    ([python/get_us_district_info_from_address.py]), of its generic result
    mapper ([python/parse_result_no_special_cases.py]) and of the cache
    builder ([python/update_us_congressional_data.py]), with the properties
    the specification states about them.

    Modelling conventions.
    - A Python [str] is a [string] of characters below 256.  The OCD
      identifiers, state codes and ZIP codes the program handles are
      ASCII; a character above 127 is white space or a digit as Python
      has it (U+0085 and U+00A0; the superscripts U+00B2, U+00B3 and
      U+00B9), and [upper] and [lower], some of whose results lie above
      255, leave it as it is.
    - A Python [dict] with string keys is an association list in insertion
      order, without duplicate keys ([PyDict]).
    - A [Set[str]] is a [gset string]; [None] or the empty set are both
      falsy for [if keep_fields:].
    - A raised exception is the [Raise] case of [res].
    - The generic mapper is embedded twice: on values ([Generic]), and on
      the objects of a store ([Heap]), where dictionaries and lists have
      an identity and are updated in place; the second is proved to
      compute what the first computes. *)

From Stdlib Require Import ZArith String Ascii List Bool Lia.
From stdpp Require Import base option list gmap strings sets pretty.

Local Open Scope Z_scope.
Local Open Scope list_scope.

(** ** Exceptions and fallible results *)

Inductive exn : Type :=
| IndexError
| KeyError
| AttributeError
| TypeError
| ValueError
| Timeout
| HTTPError
| JSONDecodeError
| SystemExit (code : Z).

(** [except Exception] catches every class above but [SystemExit], which
    derives from [BaseException] only. *)
Definition is_Exception (e : exn) : bool :=
  match e with
  | SystemExit _ => false
  | _ => true
  end.

Inductive res (A : Type) : Type :=
| Ret (a : A)
| Raise (e : exn).

Arguments Ret {A} a.
Arguments Raise {A} e.

Definition bind {A B : Type} (m : res A) (k : A -> res B) : res B :=
  match m with
  | Ret a => k a
  | Raise e => Raise e
  end.

Notation "'let*' x := m 'in' k" := (bind m (fun x => k))
  (at level 10, x name, m at level 100, k at level 200).

(** [try: body except Exception: handler]. *)
Definition try_except {A : Type} (body : res A) (handler : exn -> res A) : res A :=
  match body with
  | Ret a => Ret a
  | Raise e => if is_Exception e then handler e else Raise e
  end.

Fixpoint mapM {A B : Type} (f : A -> res B) (l : list A) : res (list B) :=
  match l with
  | [] => Ret []
  | a :: l' => let* b := f a in let* bs := mapM f l' in Ret (b :: bs)
  end.

(** ** Python string operations *)

Module PyStr.

(** [needle in hay]. *)
Fixpoint contains (needle hay : string) : bool :=
  String.prefix needle hay
  || match hay with
     | EmptyString => false
     | String _ hay' => contains needle hay'
     end.

(** [s.split(sep)] for a non-empty [sep]: left to right, occurrences do
    not overlap.  [skip] counts the characters of a matched separator
    still to be passed over, [cur] is the piece being read. *)
Fixpoint split_go (sep : string) (skip : nat) (cur s : string) : list string :=
  match s with
  | EmptyString => [cur]
  | String c s' =>
      match skip with
      | S k => split_go sep k cur s'
      | O =>
          if String.prefix sep s
          then cur :: split_go sep (Nat.pred (String.length sep)) EmptyString s'
          else split_go sep O (cur +:+ String c EmptyString) s'
      end
  end.

Definition split (sep s : string) : list string := split_go sep O EmptyString s.

(** [l[i]], raising [IndexError] out of range. *)
Definition index {A : Type} (l : list A) (i : nat) : res A :=
  match nth_error l i with
  | Some a => Ret a
  | None => Raise IndexError
  end.

Definition upper_char (c : ascii) : ascii :=
  let n := nat_of_ascii c in
  if (97 <=? n)%nat && (n <=? 122)%nat then ascii_of_nat (n - 32) else c.

Definition lower_char (c : ascii) : ascii :=
  let n := nat_of_ascii c in
  if (65 <=? n)%nat && (n <=? 90)%nat then ascii_of_nat (n + 32) else c.

Fixpoint map_chars (f : ascii -> ascii) (s : string) : string :=
  match s with
  | EmptyString => EmptyString
  | String c s' => String (f c) (map_chars f s')
  end.

Definition upper : string -> string := map_chars upper_char.
Definition lower : string -> string := map_chars lower_char.

(** [c.isspace()] for a character below 256: TAB, LF, VT, FF, CR, FS,
    GS, RS, US, the space, NEL (U+0085) and the no-break space (U+00A0). *)
Definition is_space (c : ascii) : bool :=
  let n := nat_of_ascii c in
  ((9 <=? n)%nat && (n <=? 13)%nat) || ((28 <=? n)%nat && (n <=? 32)%nat)
  || (n =? 133)%nat || (n =? 160)%nat.

(** A decimal digit, [0] to [9]. *)
Definition is_digit (c : ascii) : bool :=
  let n := nat_of_ascii c in
  (48 <=? n)%nat && (n <=? 57)%nat.

(** [c.isdigit()] for a character below 256: the decimal digits and the
    superscripts two, three and one (U+00B2, U+00B3, U+00B9). *)
Definition is_digit_char (c : ascii) : bool :=
  let n := nat_of_ascii c in
  is_digit c || (n =? 178)%nat || (n =? 179)%nat || (n =? 185)%nat.

Fixpoint lstrip (s : string) : string :=
  match s with
  | EmptyString => EmptyString
  | String c s' => if is_space c then lstrip s' else s
  end.

(** Drops the trailing white space: a character is kept when it is not
    white space or when something is kept after it. *)
Fixpoint rstrip (s : string) : string :=
  match s with
  | EmptyString => EmptyString
  | String c s' =>
      match rstrip s' with
      | EmptyString => if is_space c then EmptyString else String c EmptyString
      | r => String c r
      end
  end.

Definition strip (s : string) : string := rstrip (lstrip s).

Fixpoint all_chars (p : ascii -> bool) (s : string) : bool :=
  match s with
  | EmptyString => true
  | String c s' => p c && all_chars p s'
  end.

(** [s.isdigit()]: at least one character, all of them digits. *)
Definition isdigit (s : string) : bool :=
  match s with
  | EmptyString => false
  | _ => all_chars is_digit_char s
  end.

(** Truth value of a string. *)
Definition nonempty (s : string) : bool :=
  match s with
  | EmptyString => false
  | _ => true
  end.

End PyStr.

(** ** Python dictionaries in insertion order *)

Module PyDict.

Section Ops.
Context {K V : Type} `{EqDecision K}.

(** [d.get(k)]. *)
Fixpoint get (k : K) (d : list (K * V)) : option V :=
  match d with
  | [] => None
  | (k', v) :: d' => if decide (k = k') then Some v else get k d'
  end.

(** [k in d]. *)
Definition mem (k : K) (d : list (K * V)) : bool :=
  match get k d with
  | Some _ => true
  | None => false
  end.

(** [d[k] = v]: an existing key keeps its place, a new one goes last. *)
Fixpoint set (k : K) (v : V) (d : list (K * V)) : list (K * V) :=
  match d with
  | [] => [(k, v)]
  | (k', v') :: d' =>
      if decide (k = k') then (k', v) :: d' else (k', v') :: set k v d'
  end.

Definition keys (d : list (K * V)) : list K := map fst d.

(** [{k: v for k, v in d.items() if p(k)}]. *)
Definition filter_keys (p : K -> bool) (d : list (K * V)) : list (K * V) :=
  List.filter (fun kv => p (fst kv)) d.

End Ops.

End PyDict.

(** ** Field filtering ([filter_data], [filter_fields]) *)

(** [Optional[Set[str]]]: [None] when the option was not given. *)
Definition field_set := option (gset string).

(** Truth value of an [Optional[Set[str]]]: [None] and [set()] are falsy. *)
Definition set_truthy (o : field_set) : bool :=
  match o with
  | Some s => bool_decide (s ≠ ∅)
  | None => false
  end.

Definition members (o : field_set) : gset string := default ∅ o.


(** get_us_district_info_from_address.py, [filter_data]. *)
Definition filter_data {V : Type} (data : list (string * V))
    (keep_fields delete_fields : field_set) : list (string * V) :=
  if set_truthy keep_fields then
    PyDict.filter_keys (fun k => bool_decide (k ∈ members keep_fields)) data
  else if set_truthy delete_fields then
    PyDict.filter_keys (fun k => negb (bool_decide (k ∈ members delete_fields))) data
  else data.

(** update_us_congressional_data.py, [filter_fields]: [row] is the row's
    dictionary ([row.to_dict()] for a pandas Series). *)
Definition filter_fields {V : Type} (row : list (string * V))
    (keep_fields delete_fields : field_set) : list (string * V) :=
  let row_dict := row in
  if set_truthy keep_fields then
    PyDict.filter_keys (fun k => bool_decide (k ∈ members keep_fields)) row_dict
  else if set_truthy delete_fields then
    PyDict.filter_keys (fun k => negb (bool_decide (k ∈ members delete_fields))) row_dict
  else row_dict.

(** The set of keys of a dictionary. *)
Definition keyset {V : Type} (d : list (string * V)) : gset string :=
  list_to_set (PyDict.keys d).

(** ** Python values *)

(** A scalar of a legislator record or of a CSV cell: [None], the float
    NaN (an empty CSV field, as pandas reads it), a whole number or text.
    [SInt z] is the [int] [z].  It also stands for the float of whole
    value [z] where the code only applies [int()], [pd.isna], [==] or a
    truth test, none of which tells the two apart: the district column,
    which pandas holds as float64 because senators have no district
    ([12.0] is [SInt 12]).  [str] does tell them apart ([str(6.0)] is
    [6.0], [py_str (SInt 6)] is [6]): a float in a cell that the code
    formats (a state code, a name) is not modelled, nor is a float with a
    fraction. *)
Inductive scalar : Type :=
| SNone
| SNaN
| SInt (z : Z)
| SStr (s : string).

#[global] Instance scalar_eq_dec : EqDecision scalar.
Proof. solve_decision. Defined.

Definition scalar_truthy (a : scalar) : bool :=
  match a with
  | SNone => false
  | SNaN => true
  | SInt z => negb (z =? 0)
  | SStr s => PyStr.nonempty s
  end.

(** [str(a)], as an f-string formats a scalar. *)
Definition py_str (a : scalar) : string :=
  match a with
  | SNone => "None"
  | SNaN => "nan"
  | SInt z => pretty z
  | SStr s => s
  end.

(** [a or b]. *)
Definition py_or (a b : scalar) : scalar := if scalar_truthy a then a else b.

(** A JSON-like value: what the lookup functions pass around as
    [Dict[str, Any]]. *)
#[warnings="-register-all"]
Inductive pyval : Type :=
| VAtom (a : scalar)
| VList (l : list pyval)
| VDict (d : list (string * pyval)).

Definition VNone : pyval := VAtom SNone.
Definition VStr (s : string) : pyval := VAtom (SStr s).

Definition truthy (v : pyval) : bool :=
  match v with
  | VAtom a => scalar_truthy a
  | VList [] => false
  | VList (_ :: _) => true
  | VDict [] => false
  | VDict (_ :: _) => true
  end.

(** [v.get(k, dflt)]: only a dictionary has the method. *)
Definition py_get (v : pyval) (k : string) (dflt : pyval) : res pyval :=
  match v with
  | VDict d => Ret (default dflt (PyDict.get k d))
  | _ => Raise AttributeError
  end.

(** [v.items()]. *)
Definition py_items (v : pyval) : res (list (string * pyval)) :=
  match v with
  | VDict d => Ret d
  | _ => Raise AttributeError
  end.

Fixpoint chars (s : string) : list string :=
  match s with
  | EmptyString => []
  | String c s' => String c EmptyString :: chars s'
  end.

(** [for x in v]: the elements of a list, the keys of a dictionary, the
    characters of a string; other scalars are not iterable. *)
Definition py_iter (v : pyval) : res (list pyval) :=
  match v with
  | VList l => Ret l
  | VDict d => Ret (map VStr (PyDict.keys d))
  | VAtom (SStr s) => Ret (map VStr (chars s))
  | VAtom _ => Raise TypeError
  end.

(** [k in v] for a dictionary [v]. *)
Definition py_has_key (v : pyval) (k : string) : bool :=
  match v with
  | VDict d => PyDict.mem k d
  | _ => false
  end.

(** A legislator record: column name to scalar. *)
Definition record := list (string * scalar).

Definition val_of_record (r : record) : pyval :=
  VDict (map (fun kv => (fst kv, VAtom (snd kv))) r).

(** [r.get(k, dflt)] on a record. *)
Definition rec_get (k : string) (dflt : scalar) (r : record) : scalar :=
  default dflt (PyDict.get k r).

Fixpoint foldM {A S : Type} (f : S -> A -> res S) (l : list A) (s : S) : res S :=
  match l with
  | [] => Ret s
  | a :: l' => let* s' := f s a in foldM f l' s'
  end.

(** ** The legislator cache builder ([build_legislators_dict]) *)

Module Builder.

(** The white space [int] passes over at both ends of its text: TAB, LF,
    VT, FF, CR and the space, and above 127 the characters that
    [isspace] accepts, NEL and the no-break space.  The separators FS,
    GS, RS and US, which [strip] removes, are no white space for [int]. *)
Definition int_space (c : ascii) : bool :=
  let n := nat_of_ascii c in
  ((9 <=? n)%nat && (n <=? 13)%nat) || (n =? 32)%nat
  || (n =? 133)%nat || (n =? 160)%nat.

Fixpoint skip_spaces (s : string) : string :=
  match s with
  | EmptyString => EmptyString
  | String c s' => if int_space c then skip_spaces s' else s
  end.

Fixpoint drop_trailing_spaces (s : string) : string :=
  match s with
  | EmptyString => EmptyString
  | String c s' =>
      match drop_trailing_spaces s' with
      | EmptyString => if int_space c then EmptyString else String c EmptyString
      | r => String c r
      end
  end.

(** [int(s)] for text: surrounding white space, an optional sign, then
    decimal digits, single underscores allowed between digits. *)
Fixpoint digits_value (acc : Z) (after_digit : bool) (s : string) : option Z :=
  match s with
  | EmptyString => if after_digit then Some acc else None
  | String c s' =>
      if PyStr.is_digit c
      then digits_value (10 * acc + (Z.of_nat (nat_of_ascii c) - 48)) true s'
      else if Ascii.eqb c "_"%char && after_digit
      then match s' with
           | EmptyString => None
           | String c' _ => if PyStr.is_digit c' then digits_value acc false s' else None
           end
      else None
  end.

Definition int_of_text (s : string) : option Z :=
  match drop_trailing_spaces (skip_spaces s) with
  | String "-"%char s' => Z.opp <$> digits_value 0 false s'
  | String "+"%char s' => digits_value 0 false s'
  | s' => digits_value 0 false s'
  end.

(** [int(x)]. *)
Definition py_int (x : scalar) : res Z :=
  match x with
  | SInt z => Ret z
  | SStr s => match int_of_text s with Some z => Ret z | None => Raise ValueError end
  | SNaN => Raise ValueError
  | SNone => Raise TypeError
  end.

(** [pd.isna(x)]. *)
Definition isna (x : scalar) : bool :=
  match x with
  | SNone | SNaN => true
  | _ => false
  end.

(** A row of the DataFrame ([df.iterrows()]): column name to cell;
    [row.get(col)] is [None] for a column the frame does not have. *)
Definition row_get (col : string) (row : record) : scalar := rec_get col SNone row.

(** [data]: the state buckets are keyed by the row's state value, each a
    dictionary with the one key [senators]; the districts by the
    formatted key, each a dictionary with the one key [representative]. *)
Record legislators_dict : Type := {
  states : list (scalar * list (string * list record));
  districts : list (string * list (string * record))
}.

Definition empty_dict : legislators_dict := {| states := []; districts := [] |}.

(** [f"{state}-{int(dist)}"]. *)
Definition district_key (state : scalar) (d : Z) : string :=
  py_str state +:+ "-" +:+ pretty d.

(** [data["states"].setdefault(state, {}).setdefault("senators", []).append(x)]. *)
Definition add_senator (state : scalar) (x : record)
    (sts : list (scalar * list (string * list record)))
  : list (scalar * list (string * list record)) :=
  let bucket := default [] (PyDict.get state sts) in
  let senators := default [] (PyDict.get "senators"%string bucket) in
  PyDict.set state (PyDict.set "senators"%string (senators ++ [x]) bucket) sts.

(** The body of the loop over the rows. *)
Definition add_row (keep_fields delete_fields : field_set)
    (data : legislators_dict) (row : record) : res legislators_dict :=
  let state := py_or (row_get "state" row) (row_get "state_code" row) in
  let dist := row_get "district" row in
  let filtered_data := filter_fields row keep_fields delete_fields in
  if isna dist then
    Ret {| states := add_senator state filtered_data (states data);
           districts := districts data |}
  else
    let* d := py_int dist in
    let key := district_key state d in
    Ret {| states := states data;
           districts :=
             PyDict.set key [("representative"%string, filtered_data)] (districts data) |}.

Definition build_from (data : legislators_dict) (df : list record)
    (keep_fields delete_fields : field_set) : res legislators_dict :=
  foldM (add_row keep_fields delete_fields) df data.

Definition build_legislators_dict (df : list record)
    (keep_fields delete_fields : field_set) : res legislators_dict :=
  build_from empty_dict df keep_fields delete_fields.

(** The district key a row is stored under, when it is a representative
    ([None] for a senator and for a row on which [int] raises). *)
Definition row_district_key (row : record) : option string :=
  let state := py_or (row_get "state" row) (row_get "state_code" row) in
  let dist := row_get "district" row in
  if isna dist then None
  else match py_int dist with
       | Ret d => Some (district_key state d)
       | Raise _ => None
       end.

(** [states[state]["senators"]], empty while the state has no bucket. *)
Definition senators_of (state : scalar)
    (sts : list (scalar * list (string * list record))) : list record :=
  default [] (PyDict.get "senators"%string (default [] (PyDict.get state sts))).

End Builder.

(** ** The data model of the result mapper *)

Local Open Scope string_scope.

(** [{"senators": [...], "representatives": [...]}]: every value the
    mappers store in [district_data] has exactly these two keys. *)
Record DistrictEntry : Type := {
  senators : list record;
  representatives : list record
}.

Definition empty_entry : DistrictEntry := {| senators := []; representatives := [] |}.

(** The cache file as loaded: [{"states": {ST: {"senators": [...]}},
    "districts": {"ST-N": {"representative": {...}}}}], every level
    possibly absent. *)
Record StateBucket : Type := { cached_senators : option (list record) }.
Record DistrictBucket : Type := { cached_representative : option record }.
Record LegislatorCache : Type := {
  cache_states : option (list (string * StateBucket));
  cache_districts : option (list (string * DistrictBucket))
}.

(** The API's JSON body: [{"divisions": {ocd_id: {"name": ...}}}]. *)
Record DivisionResponse : Type := {
  divisions : option (list (string * pyval))
}.

(** [data.get("divisions", {})], its keys in order. *)
Definition ocd_ids (data : DivisionResponse) : list string :=
  PyDict.keys (default [] (divisions data)).

(** The mapper's return value [{"districts": ...}]. *)
Record MapperResult : Type := {
  result_districts : list (string * DistrictEntry)
}.

Definition val_of_entry (e : DistrictEntry) : pyval :=
  VDict [("senators", VList (map val_of_record (senators e)));
         ("representatives", VList (map val_of_record (representatives e)))].

Definition val_of_result (r : MapperResult) : pyval :=
  VDict [("districts",
          VDict (map (fun kv => (fst kv, val_of_entry (snd kv))) (result_districts r)))].

(** ** Steps shared by the two mappers

    The source repeats these fragments in every branch; they are named
    here once. *)

Module Mapper.

Definition district_data := list (string * DistrictEntry).

(** [district_data[k]] for a key that is present. *)
Definition entry (k : string) (dd : district_data) : DistrictEntry :=
  default empty_entry (PyDict.get k dd).

(** [if k not in district_data: district_data[k] = {"senators": [],
    "representatives": []}]. *)
Definition ensure (k : string) (dd : district_data) : district_data :=
  if PyDict.mem k dd then dd else PyDict.set k empty_entry dd.

(** [district_data[k]["senators"] = l]. *)
Definition set_senators (k : string) (l : list record) (dd : district_data)
  : district_data :=
  PyDict.set k {| senators := l; representatives := representatives (entry k dd) |} dd.

(** [district_data[k]["representatives"] = l]. *)
Definition set_representatives (k : string) (l : list record) (dd : district_data)
  : district_data :=
  PyDict.set k {| senators := senators (entry k dd); representatives := l |} dd.

(** [district_data[k]["representatives"].append(r)]. *)
Definition append_representative (k : string) (r : record) (dd : district_data)
  : district_data :=
  set_representatives k (representatives (entry k dd) ++ [r]) dd.

(** [x.get("full_name", f"{x.get('first_name', '')} {x.get('last_name', '')}").strip()];
    only text has [strip]. *)
Definition display_name (x : record) : res string :=
  let fallback :=
    py_str (rec_get "first_name" (SStr "") x) +:+ " "
    +:+ py_str (rec_get "last_name" (SStr "") x) in
  match rec_get "full_name" (SStr fallback) x with
  | SStr s => Ret (PyStr.strip s)
  | _ => Raise AttributeError
  end.

Definition senator_info (state_abbr : string) (senator : record) : res record :=
  let* name := display_name senator in
  Ret [("name", SStr name);
       ("party", rec_get "party" (SStr "Unknown") senator);
       ("role", SStr "Senator");
       ("state", SStr state_abbr);
       ("bioguide_id", rec_get "bioguide_id" (SStr "") senator)].

Definition representative_info (role district_id : string) (cached_rep : record)
  : res record :=
  let* name := display_name cached_rep in
  Ret [("name", SStr name);
       ("party", rec_get "party" (SStr "Unknown") cached_rep);
       ("role", SStr role);
       ("district", SStr district_id);
       ("bioguide_id", rec_get "bioguide_id" (SStr "") cached_rep)].

Definition placeholder_senators (state_abbr : string) : list record :=
  [ [("name", SStr ("Senator 1 for " +:+ state_abbr));
     ("role", SStr "Senator"); ("state", SStr state_abbr)];
    [("name", SStr ("Senator 2 for " +:+ state_abbr));
     ("role", SStr "Senator"); ("state", SStr state_abbr)] ].

Definition placeholder_representative (district_id : string) : record :=
  [("name", SStr ("Representative for " +:+ district_id));
   ("role", SStr "Representative"); ("district", SStr district_id)].

(** [cache and "states" in cache and st in cache["states"]], then
    [cache["states"][st].get("senators", [])].  A cache that has the key
    [states] is a non-empty dictionary, so the first conjunct adds
    nothing. [None]: the state is not in the cache. *)
Definition lookup_senators (cache : LegislatorCache) (st : string)
  : option (list record) :=
  match cache_states cache with
  | Some sts =>
      match PyDict.get st sts with
      | Some b => Some (default [] (cached_senators b))
      | None => None
      end
  | None => None
  end.

(** [cache and "districts" in cache and id in cache["districts"]], then
    [cached_rep = cache["districts"][id].get("representative")] and
    [if cached_rep:]. [Some r]: a non-empty record was found. *)
Definition lookup_representative (cache : LegislatorCache) (district_id : string)
  : option record :=
  match cache_districts cache with
  | Some ds =>
      match PyDict.get district_id ds with
      | Some b =>
          match cached_representative b with
          | Some (kv :: r) => Some (kv :: r)
          | _ => None
          end
      | None => None
      end
  | None => None
  end.

(** The senators of a bare state bucket: from the cache when it has
    some, then the placeholders when the bucket is still empty. *)
Definition fill_state_senators (cache : LegislatorCache) (state_abbr : string)
    (dd : district_data) : res district_data :=
  let* dd1 :=
    match lookup_senators cache state_abbr with
    | Some (s :: l) =>
        let* senators_data := mapM (senator_info state_abbr) (s :: l) in
        Ret (set_senators state_abbr senators_data dd)
    | _ => Ret dd
    end in
  Ret (match senators (entry state_abbr dd1) with
       | [] => set_senators state_abbr (placeholder_senators state_abbr) dd1
       | _ => dd1
       end).

(** The senators of a congressional district: copied from the state
    bucket, else from the cache, else the placeholders. *)
Definition fill_district_senators (cache : LegislatorCache)
    (state_abbr district_id : string) (dd : district_data) : res district_data :=
  if PyStr.nonempty state_abbr then
    if PyDict.mem state_abbr dd
       && match senators (entry state_abbr dd) with [] => false | _ => true end
    then Ret (set_senators district_id (senators (entry state_abbr dd)) dd)
    else
      match lookup_senators cache state_abbr with
      | Some (s :: l) =>
          let* senators_data := mapM (senator_info state_abbr) (s :: l) in
          Ret (set_senators district_id senators_data dd)
      | Some [] => Ret dd
      | None => Ret (set_senators district_id (placeholder_senators state_abbr) dd)
      end
  else Ret dd.

(** A congressional district's id: [STATE-AL] for the token [al]. *)
Definition cd_district_id (state_abbr district_num : string) : string :=
  if decide (district_num = "al") then state_abbr +:+ "-AL"
  else state_abbr +:+ "-" +:+ district_num.

(** [ocd_id.split("state:")[1].split("/")[0].upper()] and
    [ocd_id.split("cd:")[1]]. *)
Definition cd_parts (ocd_id : string) : res (string * string) :=
  let* after_state := PyStr.index (PyStr.split "state:" ocd_id) 1 in
  let* st := PyStr.index (PyStr.split "/" after_state) 0 in
  let* district_num := PyStr.index (PyStr.split "cd:" ocd_id) 1 in
  Ret (PyStr.upper st, district_num).

(** [ocd_id.split("district:")[1].upper()], cut at the first [/]. *)
Definition territory_code (ocd_id : string) : res string :=
  let* piece := PyStr.index (PyStr.split "district:" ocd_id) 1 in
  let district_code := PyStr.upper piece in
  if PyStr.contains "/" district_code
  then PyStr.index (PyStr.split "/" district_code) 0
  else Ret district_code.

(** ["state:" in ocd_id and "/" not in ocd_id.split("state:")[1]]. *)
Definition is_bare_state (ocd_id : string) : res bool :=
  if PyStr.contains "state:" ocd_id then
    let* piece := PyStr.index (PyStr.split "state:" ocd_id) 1 in
    Ret (negb (PyStr.contains "/" piece))
  else Ret false.

End Mapper.

(** ** The generic result mapper (parse_result_no_special_cases.py) *)

Module Generic.
Import Mapper.

Definition territories : list string := ["DC"; "PR"; "GU"; "VI"; "MP"; "AS"].

(** A fresh at-large entry [district_id] with a copy of the senators of
    [state_code]; the representative from the cache, else the placeholder. *)
Definition create_at_large (cache : LegislatorCache) (state_code district_id : string)
    (dd : district_data) : res district_data :=
  let dd1 :=
    PyDict.set district_id
      {| senators := senators (entry state_code dd); representatives := [] |} dd in
  let* dd2 :=
    match lookup_representative cache district_id with
    | Some cached_rep =>
        let* rep_data := representative_info "Representative" district_id cached_rep in
        Ret (append_representative district_id rep_data dd1)
    | None => Ret dd1
    end in
  Ret (match representatives (entry district_id dd2) with
       | [] => append_representative district_id
                 (placeholder_representative district_id) dd2
       | _ => dd2
       end).

(** Branch 1: a bare state division. *)
Definition state_division (ids : list string) (cache : LegislatorCache)
    (ocd_id : string) (dd : district_data) : res district_data :=
  let* piece := PyStr.index (PyStr.split "state:" ocd_id) 1 in
  let state_abbr := PyStr.upper piece in
  let dd1 := ensure state_abbr dd in
  let* dd2 := fill_state_senators cache state_abbr dd1 in
  let district_id := state_abbr +:+ "-AL" in
  let create_at_large_flag :=
    negb (existsb
            (fun other_id =>
               PyStr.contains ("state:" +:+ PyStr.lower state_abbr +:+ "/cd:") other_id
               && negb (PyStr.contains "cd:al" other_id))
            ids) in
  if create_at_large_flag && negb (PyDict.mem district_id dd2)
  then create_at_large cache state_abbr district_id dd2
  else Ret dd2.

Definition territory_role (district_code : string) : string :=
  if decide (district_code = "PR") then "Resident Commissioner (Non-Voting)"
  else "Delegate (Non-Voting)".

(** Branch 2: a district or territory outside of a state. *)
Definition territory_division (cache : LegislatorCache)
    (ocd_id : string) (dd : district_data) : res district_data :=
  let* district_code := territory_code ocd_id in
  let district_id := district_code +:+ "-AL" in
  let dd1 := ensure district_id dd in
  if bool_decide (district_code ∈ territories) then
    let* dd2 :=
      match lookup_representative cache district_id with
      | Some cached_rep =>
          let role := territory_role district_code in
          let* rep_data := representative_info role district_id cached_rep in
          Ret (append_representative district_id rep_data dd1)
      | None => Ret dd1
      end in
    Ret (match representatives (entry district_id dd2) with
         | [] =>
             let role := territory_role district_code in
             append_representative district_id
               [("name", SStr (role +:+ " for " +:+ district_code));
                ("role", SStr role); ("district", SStr district_id)] dd2
         | _ => dd2
         end)
  else Ret dd1.

(** Branch 3: a congressional district. *)
Definition cd_division (cache : LegislatorCache)
    (ocd_id : string) (dd : district_data) : res district_data :=
  let* parts := cd_parts ocd_id in
  let state_abbr := fst parts in
  let district_id := cd_district_id state_abbr (snd parts) in
  let dd1 := ensure district_id dd in
  let* rep_data :=
    match lookup_representative cache district_id with
    | Some cached_rep => representative_info "Representative" district_id cached_rep
    | None => Ret (placeholder_representative district_id)
    end in
  let dd2 := append_representative district_id rep_data dd1 in
  fill_district_senators cache state_abbr district_id dd2.

(** The body of the loop over the divisions. *)
Definition process_division (ids : list string) (cache : LegislatorCache)
    (dd : district_data) (ocd_id : string) : res district_data :=
  let* bare := is_bare_state ocd_id in
  if bare then state_division ids cache ocd_id dd
  else if PyStr.contains "district:" (PyStr.lower ocd_id)
  then territory_division cache ocd_id dd
  else if PyStr.contains "/cd:" ocd_id then cd_division cache ocd_id dd
  else Ret dd.

(** When no key has a [-]: an at-large district for every two-letter key. *)
Definition at_large_from_states (cache : LegislatorCache) (dd : district_data)
  : res district_data :=
  if negb (existsb (PyStr.contains "-") (PyDict.keys dd))
     && match dd with [] => false | _ => true end
  then
    foldM (fun dd' state_code =>
             if negb (String.length state_code =? 2)%nat then Ret dd'
             else
               let district_id := state_code +:+ "-AL" in
               if PyDict.mem district_id dd' then Ret dd'
               else create_at_large cache state_code district_id dd')
          (PyDict.keys dd) dd
  else Ret dd.

Definition test_paths : list string := ["/state:ca/cd:12"; "/district:dc"; "/state:vt"].

Definition test_data : list (string * DistrictEntry) :=
  [ ("CA-12",
     {| representatives :=
          [ [("name", SStr "Nancy Pelosi"); ("party", SStr "Democratic");
             ("role", SStr "Representative"); ("district", SStr "CA-12")] ];
        senators :=
          [ [("name", SStr "Alex Padilla"); ("party", SStr "Democratic");
             ("role", SStr "Senator"); ("state", SStr "CA")];
            [("name", SStr "Laphonza R. Butler"); ("party", SStr "Democratic");
             ("role", SStr "Senator"); ("state", SStr "CA")] ] |});
    ("DC-AL",
     {| representatives :=
          [ [("name", SStr "Eleanor Holmes Norton"); ("party", SStr "Democratic");
             ("role", SStr "Delegate (Non-Voting)"); ("district", SStr "DC-AL")] ];
        senators := [] |});
    ("VT-AL",
     {| senators :=
          [ [("name", SStr "Bernie Sanders"); ("party", SStr "Independent");
             ("role", SStr "Senator"); ("state", SStr "VT")];
            [("name", SStr "Peter Welch"); ("party", SStr "Democratic");
             ("role", SStr "Senator"); ("state", SStr "VT")] ];
        representatives :=
          [ [("name", SStr "Becca Balint"); ("party", SStr "Democratic");
             ("role", SStr "Representative"); ("district", SStr "VT-AL")] ] |}) ].

(** The condition under which the fixture [test_id] is applied for [ocd_id]. *)
Definition test_applies (test_id ocd_id : string) : bool :=
  (bool_decide (test_id = "CA-12") && PyStr.contains "/state:ca/cd:12" ocd_id)
  || (bool_decide (test_id = "DC-AL") && PyStr.contains "/district:dc" ocd_id)
  || (bool_decide (test_id = "VT-AL") && PyStr.contains "/state:vt" ocd_id
      && negb (PyStr.contains "/cd:" ocd_id)).

Definition apply_test_data (ids : list string) (dd : district_data) : district_data :=
  if existsb (fun ocd_id => existsb (fun ocd_path => PyStr.contains ocd_path ocd_id)
                              test_paths) ids
  then
    fold_left (fun dd' tc =>
                 if existsb (test_applies (fst tc)) ids
                 then PyDict.set (fst tc) (snd tc) dd'
                 else dd')
              test_data dd
  else dd.

(** [parse_result(data, cached_legislators)]. *)
Definition parse_result (data : DivisionResponse) (cached_legislators : LegislatorCache)
  : res MapperResult :=
  let ids := ocd_ids data in
  let* dd1 := foldM (process_division ids cached_legislators) ids [] in
  let* dd2 := at_large_from_states cached_legislators dd1 in
  let dd3 := apply_test_data ids dd2 in
  let result_data := PyDict.filter_keys (PyStr.contains "-") dd3 in
  Ret {| result_districts := result_data |}.

End Generic.

(** ** The in-module mapper (get_us_district_info_from_address.py,
       [parse_result]), used when the generic one cannot be imported.

    It reads the module-level [CACHED_LEGISLATORS], a parameter here.  The
    nested [add_ca12_if_needed] is never called and is left out. *)

Module Legacy.
Import Mapper.

Definition ca_senators : list record :=
  [ [("name", SStr "Alex Padilla"); ("party", SStr "Democratic");
     ("role", SStr "Senator"); ("state", SStr "CA")];
    [("name", SStr "Laphonza R. Butler"); ("party", SStr "Democratic");
     ("role", SStr "Senator"); ("state", SStr "CA")] ].

Definition vt_at_large : DistrictEntry :=
  {| senators :=
       [ [("name", SStr "Bernie Sanders"); ("party", SStr "Independent");
          ("role", SStr "Senator"); ("state", SStr "VT")];
         [("name", SStr "Peter Welch"); ("party", SStr "Democratic");
          ("role", SStr "Senator"); ("state", SStr "VT")] ];
     representatives :=
       [ [("name", SStr "Becca Balint"); ("party", SStr "Democratic");
          ("role", SStr "Representative"); ("district", SStr "VT-AL")] ] |}.

(** Branch 1: a bare state division. *)
Definition state_division (cache : LegislatorCache)
    (ocd_id : string) (dd : district_data) : res district_data :=
  let* piece := PyStr.index (PyStr.split "state:" ocd_id) 1 in
  let state_abbr := PyStr.upper piece in
  let dd1 := ensure state_abbr dd in
  let* dd2 := fill_state_senators cache state_abbr dd1 in
  if decide (state_abbr = "VT") then Ret (PyDict.set "VT-AL" vt_at_large dd2)
  else Ret dd2.

(** Branch 2: a district or territory outside of a state. *)
Definition territory_division (ocd_id : string) (dd : district_data)
  : res district_data :=
  let* district_code := territory_code ocd_id in
  let district_id := district_code +:+ "-AL" in
  let dd1 := ensure district_id dd in
  if decide (district_code = "DC") then
    let dd2 :=
      set_representatives district_id
        [ [("name", SStr "Eleanor Holmes Norton"); ("party", SStr "Democratic");
           ("role", SStr "Delegate (Non-Voting)"); ("district", SStr district_id)] ]
        dd1 in
    Ret (set_senators district_id [] dd2)
  else Ret dd1.

(** Branch 3: a congressional district. *)
Definition cd_division (cache : LegislatorCache)
    (ocd_id : string) (dd : district_data) : res district_data :=
  let* parts := cd_parts ocd_id in
  let state_abbr := fst parts in
  let district_id := cd_district_id state_abbr (snd parts) in
  let dd1 := ensure district_id dd in
  let* step :=
    if decide (district_id = "CA-12") then
      Ret ([("name", SStr "Nancy Pelosi"); ("party", SStr "Democratic");
            ("role", SStr "Representative"); ("district", SStr district_id)],
           set_senators district_id ca_senators dd1)
    else
      match lookup_representative cache district_id with
      | Some cached_rep =>
          let* rep_data :=
            representative_info "Representative" district_id cached_rep in
          Ret (rep_data, dd1)
      | None => Ret (placeholder_representative district_id, dd1)
      end in
  let dd2 := append_representative district_id (fst step) (snd step) in
  fill_district_senators cache state_abbr district_id dd2.

Definition process_division (cache : LegislatorCache)
    (dd : district_data) (ocd_id : string) : res district_data :=
  let* bare := is_bare_state ocd_id in
  if bare then state_division cache ocd_id dd
  else if PyStr.contains "district:" (PyStr.lower ocd_id)
  then territory_division ocd_id dd
  else if PyStr.contains "/cd:" ocd_id then cd_division cache ocd_id dd
  else Ret dd.

(** The closing loop: the senators of [CA-12] are forced for every
    identifier with [/state:ca/cd:12]. *)
Definition force_ca12 (ids : list string) (dd : district_data) : district_data :=
  fold_left (fun dd' ocd_id =>
               if PyStr.contains "/state:ca/cd:12" ocd_id && PyDict.mem "CA-12" dd'
               then set_senators "CA-12" ca_senators dd'
               else dd')
            ids dd.

(** [parse_result(data)]: [district_data] is returned as it is. *)
Definition parse_result (CACHED_LEGISLATORS : LegislatorCache) (data : DivisionResponse)
  : res MapperResult :=
  let ids := ocd_ids data in
  let* dd1 := foldM (process_division CACHED_LEGISLATORS) ids [] in
  Ret {| result_districts := force_ca12 ids dd1 |}.

End Legacy.

(** ** Filtering a result ([filter_legislator_data]) *)

(** [filter_data(x, keep, delete)] for an [x] of any type: with a filter in
    force [x.items()] needs a dictionary, without one [x] is returned. *)
Definition filter_data_dyn (x : pyval) (keep_fields delete_fields : field_set)
  : res pyval :=
  match x with
  | VDict d => Ret (VDict (filter_data d keep_fields delete_fields))
  | _ =>
      if set_truthy keep_fields || set_truthy delete_fields
      then Raise AttributeError
      else Ret x
  end.

(** One round of the loop over [data.get("districts", {}).items()]. *)
Definition filter_district (keep_fields delete_fields : field_set)
    (result : list (string * pyval)) (item : string * pyval)
  : res (list (string * pyval)) :=
  let district_id := fst item in
  let district_info := snd item in
  let* senators_in := py_get district_info "senators" (VList []) in
  let* senators_it := py_iter senators_in in
  let* senators_out :=
    mapM (fun senator => filter_data_dyn senator keep_fields delete_fields) senators_it in
  let* reps_in := py_get district_info "representatives" (VList []) in
  let* reps_it := py_iter reps_in in
  let* reps_out :=
    mapM (fun rep => filter_data_dyn rep keep_fields delete_fields) reps_it in
  (* result.setdefault("districts", {})[district_id] = {...} *)
  let districts_out :=
    match PyDict.get "districts" result with
    | Some (VDict ds) => ds
    | _ => []
    end in
  Ret (PyDict.set "districts"
         (VDict (PyDict.set district_id
                   (VDict [("senators", VList senators_out);
                           ("representatives", VList reps_out)])
                   districts_out))
         result).

Definition filter_legislator_data (data : pyval) (keep_fields delete_fields : field_set)
  : res pyval :=
  let* districts_in := py_get data "districts" (VDict []) in
  let* items := py_items districts_in in
  let* result := foldM (filter_district keep_fields delete_fields) items [] in
  if py_has_key data "error" then
    let* err := py_get data "error" VNone in
    Ret (VDict (PyDict.set "error" err result))
  else Ret (VDict result).

(** What [filter_district] stores for the item [(district_id, info)]. *)
Definition filtered_entry (items : list (string * pyval)) (district_id : string)
    (e : pyval) : Prop :=
  exists info s r,
    In (district_id, info) items
    /\ e = VDict [("senators", VList s); ("representatives", VList r)]
    /\ (py_has_key info "senators" = false -> s = [])
    /\ (py_has_key info "representatives" = false -> r = []).

(** The [result] dictionary between two rounds of the loop. *)
Definition filter_result_inv (items : list (string * pyval))
    (result : list (string * pyval)) : Prop :=
  result = []
  \/ exists ds,
       result = [("districts", VDict ds)]
       /\ ds <> []
       /\ forall district_id e, PyDict.get district_id ds = Some e ->
            filtered_entry items district_id e.

(** ** The division resolver and its caller *)

Section CivicApi.

(** The environment of the module: the API key read from the
    environment ([os.getenv], [None] when unset), the HTTP call of
    [lookup_divisions] (it raises on a timeout, on a non-2xx status and
    on a body that is not JSON), whether the generic mapper was
    imported, and the cache loaded at import time. *)
Variable ENV_API_KEY : option string.
Variable lookup_divisions : string -> string -> res DivisionResponse.
Variable USE_GENERIC_PARSER : bool.
Variable CACHED_LEGISLATORS : LegislatorCache.

(** [get_api_key]: [sys.exit(1)] without a key. *)
Definition get_api_key : res string :=
  match ENV_API_KEY with
  | Some key => if PyStr.nonempty key then Ret key else Raise (SystemExit 1)
  | None => Raise (SystemExit 1)
  end.

Definition get_district_info_from_civic_api (address : string) : res pyval :=
  try_except
    (let* api_key := get_api_key in
     let* data := lookup_divisions address api_key in
     let* r :=
       if USE_GENERIC_PARSER
       then Generic.parse_result data CACHED_LEGISLATORS
       else Legacy.parse_result CACHED_LEGISLATORS data in
     Ret (val_of_result r))
    (fun _ => Ret VNone).

End CivicApi.

(** ** Lookup orchestration ([get_us_district_info_from_address]) *)

Definition STATE_MAPPING : list (string * string) :=
  [ ("AL", "Alabama"); ("AK", "Alaska"); ("AZ", "Arizona"); ("AR", "Arkansas");
    ("CA", "California"); ("CO", "Colorado"); ("CT", "Connecticut");
    ("DE", "Delaware"); ("FL", "Florida"); ("GA", "Georgia"); ("HI", "Hawaii");
    ("ID", "Idaho"); ("IL", "Illinois"); ("IN", "Indiana"); ("IA", "Iowa");
    ("KS", "Kansas"); ("KY", "Kentucky"); ("LA", "Louisiana"); ("ME", "Maine");
    ("MD", "Maryland"); ("MA", "Massachusetts"); ("MI", "Michigan");
    ("MN", "Minnesota"); ("MS", "Mississippi"); ("MO", "Missouri");
    ("MT", "Montana"); ("NE", "Nebraska"); ("NV", "Nevada");
    ("NH", "New Hampshire"); ("NJ", "New Jersey"); ("NM", "New Mexico");
    ("NY", "New York"); ("NC", "North Carolina"); ("ND", "North Dakota");
    ("OH", "Ohio"); ("OK", "Oklahoma"); ("OR", "Oregon"); ("PA", "Pennsylvania");
    ("RI", "Rhode Island"); ("SC", "South Carolina"); ("SD", "South Dakota");
    ("TN", "Tennessee"); ("TX", "Texas"); ("UT", "Utah"); ("VT", "Vermont");
    ("VA", "Virginia"); ("WA", "Washington"); ("WV", "West Virginia");
    ("WI", "Wisconsin"); ("WY", "Wyoming"); ("DC", "District of Columbia") ].

Definition zip_to_state : list (string * string) :=
  [("94110", "CA"); ("94612", "CA"); ("10001", "NY"); ("82001", "WY")].

Definition lookup_zip_code_state (zip_code : string) : option string :=
  PyDict.get zip_code zip_to_state.

(** A computation that calls the resolver: the addresses it was called
    with, in order, and the outcome. *)
Definition logged (A : Type) : Type := list string * res A.

Definition lret {A : Type} (a : A) : logged A := ([], Ret a).

Definition lift {A : Type} (m : res A) : logged A := ([], m).

Definition lbind {A B : Type} (m : logged A) (k : A -> logged B) : logged B :=
  match snd m with
  | Ret a => ((fst m ++ fst (k a))%list, snd (k a))
  | Raise e => (fst m, Raise e)
  end.

Notation "'let!' x := m 'in' k" := (lbind m (fun x => k))
  (at level 10, x name, m at level 100, k at level 200).

Section Orchestration.

(** The resolver the module calls; the tests replace it by a mock. *)
Variable get_district_info_from_civic_api : string -> res pyval.

Definition call_api (address : string) : logged pyval :=
  ([address], get_district_info_from_civic_api address).

(** [f"{address}, USA" if "USA" not in address else address]. *)
Definition full_address (address : string) : string :=
  if negb (PyStr.contains "USA" address) then address +:+ ", USA" else address.

(** [not result or not result.get("districts")]. *)
Definition no_districts (result : pyval) : res bool :=
  if negb (truthy result) then Ret true
  else
    let* ds := py_get result "districts" VNone in
    Ret (negb (truthy ds)).

(** The address of the second attempt, when the input looks like a ZIP
    code of the table. *)
Definition fallback_address (address : string) : option string :=
  let zip := PyStr.strip address in
  if (String.length zip =? 5)%nat && PyStr.isdigit zip then
    match lookup_zip_code_state zip with
    | Some state =>
        if PyStr.nonempty state then
          match PyDict.get state STATE_MAPPING with
          | Some state_name =>
              if PyStr.nonempty state_name then Some (state_name +:+ ", USA") else None
          | None => None
          end
        else None
    | None => None
    end
  else None.

Definition not_found_message (address : string) : string :=
  "Could not find district information for '" +:+ address
  +:+ "'. Try providing a more specific address.".

Definition get_us_district_info_from_address (address : string)
    (keep_fields delete_fields : field_set) : logged pyval :=
  let! result := call_api (full_address address) in
  let! retry := lift (no_districts result) in
  let! result :=
    if retry then
      match fallback_address address with
      | Some second => call_api second
      | None => lret result
      end
    else lret result in
  if negb (truthy result) then
    lret (VDict [("districts", VDict []); ("error", VStr (not_found_message address))])
  else lift (filter_legislator_data result keep_fields delete_fields).

End Orchestration.

(** An identifier as the API writes them: [district:] in lower case, and
    a [/cd:] part only under a [state:] part. *)
Definition well_formed_id (ocd_id : string) : Prop :=
  (PyStr.contains "district:" (PyStr.lower ocd_id) = true ->
   PyStr.contains "district:" ocd_id = true)
  /\ (PyStr.contains "/cd:" ocd_id = true -> PyStr.contains "state:" ocd_id = true).

(** A cached record whose [full_name], when it has one, is text. *)
Definition text_name (x : record) : Prop :=
  forall a, PyDict.get "full_name" x = Some a -> exists s, a = SStr s.

Definition named_cache (cache : LegislatorCache) : Prop :=
  (forall st l, Mapper.lookup_senators cache st = Some l -> Forall text_name l)
  /\ (forall district_id r,
        Mapper.lookup_representative cache district_id = Some r -> text_name r).

(** ** The text formatter ([format_text_output]) *)

(** [sep.join(l)]. *)
Fixpoint join (sep : string) (l : list string) : string :=
  match l with
  | [] => ""
  | [x] => x
  | x :: l' => x +:+ sep +:+ join sep l'
  end.

(** [s * n]. *)
Fixpoint repeat_string (s : string) (n : nat) : string :=
  match n with
  | O => ""
  | S n' => s +:+ repeat_string s n'
  end.

(** The line feed. *)
Definition nl : string := String (ascii_of_nat 10) "".

Section Formatter.

(** [str] of a list or of a dictionary, as an f-string would print one;
    their [repr] is not modelled. *)
Variable repr_container : pyval -> string.

(** [f"{v}"]. *)
Definition py_format (v : pyval) : string :=
  match v with
  | VAtom a => py_str a
  | _ => repr_container v
  end.

(** The bullet of one senator or representative: the bullet sign is
    written as its three UTF-8 bytes. *)
Definition legislator_line (x : pyval) : res string :=
  let* name := py_get x "name" (VStr "Unknown") in
  let* party :=
    if py_has_key x "party" then
      let* p := py_get x "party" (VStr "Unknown") in
      Ret (" (" +:+ py_format p +:+ ")")
    else Ret "" in
  Ret ("  • " +:+ py_format name +:+ party).

(** [if info.get(key): output.append(title); for x in info[key]: ...]. *)
Definition legislators_block (title key : string) (info : pyval) : res (list string) :=
  let* l := py_get info key VNone in
  if truthy l then
    let* xs := py_iter l in
    let* lines := mapM legislator_line xs in
    Ret (title :: lines)
  else Ret [].

Definition separator_line : string := nl +:+ repeat_string "-" 40 +:+ nl.

(** The lines of one district. *)
Definition district_block (item : string * pyval) : res (list string) :=
  let* senators_lines := legislators_block (nl +:+ "Senators:") "senators" (snd item) in
  let* reps_lines :=
    legislators_block (nl +:+ "Representatives:") "representatives" (snd item) in
  Ret ((("District: " +:+ fst item) :: senators_lines ++ reps_lines)
       ++ [separator_line])%list.

Definition no_districts_text : string := "No congressional districts found." +:+ nl.

Definition format_text_output (data : pyval) : res string :=
  let* ds := py_get data "districts" VNone in
  if negb (truthy ds) then Ret no_districts_text
  else
    let* districts := py_get data "districts" (VDict []) in
    let* items := py_items districts in
    let* blocks := mapM district_block items in
    let* note :=
      if py_has_key data "error" then
        let* err := py_get data "error" VNone in
        Ret ["Note: " +:+ py_format err]
      else Ret [] in
    Ret (join nl (concat blocks ++ note)%list).

End Formatter.

(** ** The command line ([main]) *)

(** [set(args.keep_fields) if args.keep_fields else None]: [args] holds
    [None] when the option is not given, else the list of its values. *)
Definition cli_field_set (arg : option (list string)) : field_set :=
  match arg with
  | Some (x :: l) => Some (list_to_set (x :: l))
  | _ => None
  end.

(** ** The CSV cache ([get_current_congress_legislators]) *)

(** The cached CSV file: its bytes and its modification time.  Times
    are in microseconds, the resolution of [datetime]; the passage of a
    time stamp through [os.utime] and [st_mtime] is taken as exact. *)
Record CsvFile : Type := {
  file_bytes : string;
  file_mtime : Z
}.

(** [timedelta(hours=24)]. *)
Definition one_day : Z := 24 * 3600 * 1000000.

(** What a call leaves and did: the file afterwards, the number of
    requests made, and the frame or the exception. *)
Record CsvOutcome : Type := {
  file_after : option CsvFile;
  requests : nat;
  frame : res (list record)
}.

Section CsvCache.

(** [requests.get(url, timeout=10)] followed by [raise_for_status]: the
    body, or the exception; and [pd.read_csv] on the bytes of the file. *)
Variable http_get : res string.
Variable read_csv : string -> res (list record).

(** [download()], stamped with the clock read after the write. *)
Definition download (old : option CsvFile) (stamp : Z) : CsvOutcome :=
  match http_get with
  | Ret body =>
      {| file_after := Some {| file_bytes := body; file_mtime := stamp |};
         requests := 1;
         frame := read_csv body |}
  | Raise e => {| file_after := old; requests := 1; frame := Raise e |}
  end.

(** [now] is the clock read for the age test, [stamp] the clock read
    when a download is stamped. *)
Definition get_current_congress_legislators (file : option CsvFile) (now stamp : Z)
  : CsvOutcome :=
  match file with
  | None => download file stamp
  | Some f =>
      if now - file_mtime f >? one_day then download file stamp
      else {| file_after := file; requests := 0; frame := read_csv (file_bytes f) |}
  end.

End CsvCache.

(** ** Vocabulary of the further properties *)

(** Computations that raise nothing but exceptions of class [Exception]. *)
Definition only_exceptions {A : Type} (m : res A) : Prop :=
  forall e, m = Raise e -> is_Exception e = true.

(** An identifier that is neither a state, nor a territory, nor a
    congressional district for the mappers. *)
Definition unrelated_id (ocd_id : string) : Prop :=
  PyStr.contains "state:" ocd_id = false
  /\ PyStr.contains "district:" (PyStr.lower ocd_id) = false
  /\ PyStr.contains "/cd:" ocd_id = false.

(** The state value of a row. *)
Definition row_state (row : record) : scalar :=
  py_or (Builder.row_get "state" row) (Builder.row_get "state_code" row).

(** Whether [row] is a senator of [state]. *)
Definition senator_of (state : scalar) (row : record) : bool :=
  Builder.isna (Builder.row_get "district" row) && bool_decide (row_state row = state).

(** The shape of the built dictionary. *)
Definition well_shaped (data : Builder.legislators_dict) : Prop :=
  (forall state bucket,
      PyDict.get state (Builder.states data) = Some bucket ->
      exists l, bucket = [("senators", l)] /\ l <> [])
  /\ (forall key bucket,
        PyDict.get key (Builder.districts data) = Some bucket ->
        exists r, bucket = [("representative", r)]).

(** The last character of a string. *)
Fixpoint last_char (s : string) : option ascii :=
  match s with
  | EmptyString => None
  | String c EmptyString => Some c
  | String _ s' => last_char s'
  end.

(** [filter_data] on every record of a district entry. *)
Definition filter_entry (keep_fields delete_fields : field_set) (e : DistrictEntry)
  : DistrictEntry :=
  {| senators := map (fun r => filter_data r keep_fields delete_fields) (senators e);
     representatives :=
       map (fun r => filter_data r keep_fields delete_fields) (representatives e) |}.

(** The dictionary [filter_legislator_data] builds from a mapper's districts. *)
Definition filtered_result (keep_fields delete_fields : field_set)
    (dd : list (string * DistrictEntry)) : pyval :=
  VDict match dd with
        | [] => []
        | _ =>
            [("districts",
              VDict (map (fun kv => (fst kv,
                                     val_of_entry
                                       (filter_entry keep_fields delete_fields (snd kv))))
                       dd))]
        end.

(** Computations on [district_data] whose result has distinct keys. *)
Definition keeps_keys_unique (m : res Mapper.district_data) : Prop :=
  forall dd', m = Ret dd' -> NoDup (PyDict.keys dd').

(** The lines of a record, of a list of records and of a district, as
    the formatter writes them for a mapper's result. *)
Definition record_line (x : record) : string :=
  "  • " +:+ py_str (rec_get "name" (SStr "Unknown") x)
  +:+ (if PyDict.mem "party" x
       then " (" +:+ py_str (rec_get "party" (SStr "Unknown") x) +:+ ")"
       else "").

Definition records_block (title : string) (l : list record) : list string :=
  match l with
  | [] => []
  | _ => title :: map record_line l
  end.

Definition entry_block (kv : string * DistrictEntry) : list string :=
  ((("District: " +:+ fst kv)
    :: records_block (nl +:+ "Senators:") (senators (snd kv))
    ++ records_block (nl +:+ "Representatives:") (representatives (snd kv)))
   ++ [separator_line])%list.

(** ** Sample inputs, taken from the test suite *)

Module Samples.

Definition pelosi : record :=
  [("name", SStr "Nancy Pelosi"); ("party", SStr "Democratic");
   ("role", SStr "Representative"); ("district", SStr "CA-12")].

(** test_build_legislators_dict: the rows of the frame. *)
Definition row_pelosi : record :=
  [("first_name", SStr "Nancy"); ("last_name", SStr "Pelosi");
   ("state", SStr "CA"); ("district", SInt 12)].
Definition row_padilla : record :=
  [("first_name", SStr "Alex"); ("last_name", SStr "Padilla");
   ("state", SStr "CA"); ("district", SNaN)].
Definition row_hageman : record :=
  [("first_name", SStr "Harriet"); ("last_name", SStr "Hageman");
   ("state", SStr "WY"); ("district", SInt 0)].

Definition no_cache : LegislatorCache :=
  {| cache_states := None; cache_districts := None |}.

(** A cache that names somebody else for CA-12. *)
Definition other_cache : LegislatorCache :=
  {| cache_states := None;
     cache_districts :=
       Some [("CA-12",
              {| cached_representative :=
                   Some [("full_name", SStr "Somebody Else");
                         ("party", SStr "Independent")] |})] |}.

(** The cache file written for the three rows above. *)
Definition built_cache : LegislatorCache :=
  {| cache_states :=
       Some [("CA", {| cached_senators := Some [row_padilla] |})];
     cache_districts :=
       Some [("CA-12", {| cached_representative := Some row_pelosi |});
             ("WY-0", {| cached_representative := Some row_hageman |})] |}.

(** A response with the given identifiers. *)
Definition response (ids : list string) : DivisionResponse :=
  {| divisions := Some (map (fun ocd_id => (ocd_id, VDict [("name", VStr ocd_id)])) ids) |}.

(** A result with one district, one senator and a stray key. *)
Definition stray_result : list (string * pyval) :=
  [("districts",
    VDict [("CA-12", VDict [("senators", VList [val_of_record pelosi])])]);
   ("source", VStr "mock")].

End Samples.

(** ** The generic mapper on Python objects

    The mapper is handed two objects that outlive the call, the API
    response and the module-level [CACHED_LEGISLATORS], and it builds its
    result by assigning into dictionaries and appending to lists.  Here
    the dictionaries and lists are objects of a store, named by
    references, and the mapper is a computation on the store, statement
    by statement; which objects it writes to, and what the objects it
    returns hold, is then a matter of proof. *)

Module Heap.

(** A Python value: a scalar, or a reference to a dictionary or to a list
    of the store. *)
Inductive hval : Type :=
| HAtom (a : scalar)
| HDict (l : nat)
| HList (l : nat).

(** The store: the dictionaries (keys in insertion order) and the lists,
    each object at the index its references carry. *)
Record store : Type := {
  dicts : list (list (string * hval));
  lists : list (list hval)
}.

(** A reference Python holds is never dangling; outside the store it
    reads as an empty object. *)
Definition dict_at (s : store) (l : nat) : list (string * hval) :=
  default [] (dicts s !! l).

Definition list_at (s : store) (l : nat) : list hval :=
  default [] (lists s !! l).

(** A computation: it returns or raises, and leaves a store. *)
Definition M (A : Type) : Type := store -> res A * store.

Definition mret {A : Type} (a : A) : M A := fun s => (Ret a, s).

Definition mraise {A : Type} (e : exn) : M A := fun s => (Raise e, s).

Definition mbind {A B : Type} (m : M A) (k : A -> M B) : M B :=
  fun s =>
    match m s with
    | (Ret a, s') => k a s'
    | (Raise e, s') => (Raise e, s')
    end.

Notation "'let&' x := m 'in' k" := (mbind m (fun x => k))
  (at level 10, x name, m at level 100, k at level 200).

(** A computation that does not touch the store. *)
Definition lift {A : Type} (r : res A) : M A := fun s => (r, s).

(** [for a in l: f(a)]. *)
Fixpoint for_each {A : Type} (f : A -> M unit) (l : list A) : M unit :=
  match l with
  | [] => mret tt
  | a :: l' => let& _ := f a in for_each f l'
  end.

(** [for a in l: if f(a): found = True; break]. *)
Fixpoint exists_first {A : Type} (f : A -> M bool) (l : list A) : M bool :=
  match l with
  | [] => mret false
  | a :: l' => let& b := f a in if b then mret true else exists_first f l'
  end.

(** *** The operations of Python the mapper uses *)

(** A dictionary display [{k: v, ...}] and a list display [[v, ...]]:
    a new object. *)
Definition new_dict (d : list (string * hval)) : M hval :=
  fun s => (Ret (HDict (length (dicts s))),
            {| dicts := dicts s ++ [d]; lists := lists s |}).

Definition new_list (l : list hval) : M hval :=
  fun s => (Ret (HList (length (lists s))),
            {| dicts := dicts s; lists := lists s ++ [l] |}).

(** The truth value of [v]. *)
Definition py_truthy (v : hval) : M bool :=
  fun s =>
    (Ret match v with
         | HAtom a => scalar_truthy a
         | HDict l => match dict_at s l with [] => false | _ => true end
         | HList l => match list_at s l with [] => false | _ => true end
         end, s).

(** [v.get(k, dflt)]: only a dictionary has the method. *)
Definition py_get (v : hval) (k : string) (dflt : hval) : M hval :=
  fun s =>
    (match v with
     | HDict l => Ret (default dflt (PyDict.get k (dict_at s l)))
     | _ => Raise AttributeError
     end, s).

(** [v[k]] for a string [k]. *)
Definition py_getitem (v : hval) (k : string) : M hval :=
  fun s =>
    (match v with
     | HDict l =>
         match PyDict.get k (dict_at s l) with
         | Some x => Ret x
         | None => Raise KeyError
         end
     | _ => Raise TypeError
     end, s).

(** [k in v] for a string [k]: a key of a dictionary, an element of a
    list, a substring of a string. *)
Definition py_contains (k : string) (v : hval) : M bool :=
  fun s =>
    (match v with
     | HDict l => Ret (PyDict.mem k (dict_at s l))
     | HList l =>
         Ret (existsb (fun x => match x with
                                | HAtom (SStr t) => bool_decide (t = k)
                                | _ => false
                                end) (list_at s l))
     | HAtom (SStr t) => Ret (PyStr.contains k t)
     | HAtom _ => Raise TypeError
     end, s).

(** [v[k] = x]. *)
Definition py_setitem (v : hval) (k : string) (x : hval) : M unit :=
  fun s =>
    match v with
    | HDict l =>
        (Ret tt, {| dicts := <[l := PyDict.set k x (dict_at s l)]> (dicts s);
                    lists := lists s |})
    | _ => (Raise TypeError, s)
    end.

(** [v.append(x)]. *)
Definition py_append (v x : hval) : M unit :=
  fun s =>
    match v with
    | HList l =>
        (Ret tt, {| dicts := dicts s;
                    lists := <[l := (list_at s l ++ [x])%list]> (lists s) |})
    | _ => (Raise AttributeError, s)
    end.

(** [v.copy()]: a new list, or a new dictionary, with the same items. *)
Definition py_copy (v : hval) : M hval :=
  fun s =>
    match v with
    | HList l => new_list (list_at s l) s
    | HDict l => new_dict (dict_at s l) s
    | HAtom _ => (Raise AttributeError, s)
    end.

(** [v.items()] and [v.keys()]. *)
Definition py_items (v : hval) : M (list (string * hval)) :=
  fun s =>
    (match v with
     | HDict l => Ret (dict_at s l)
     | _ => Raise AttributeError
     end, s).

Definition py_keys (v : hval) : M (list string) :=
  let& items := py_items v in mret (PyDict.keys items).

(** [for x in v]: the keys of a dictionary, the elements of a list, the
    characters of a string. *)
Definition py_iter (v : hval) : M (list hval) :=
  fun s =>
    (match v with
     | HDict l => Ret (map (fun k => HAtom (SStr k)) (PyDict.keys (dict_at s l)))
     | HList l => Ret (list_at s l)
     | HAtom (SStr t) => Ret (map (fun c => HAtom (SStr c)) (chars t))
     | HAtom _ => Raise TypeError
     end, s).

(** [v.strip()]: a method of strings. *)
Definition py_strip (v : hval) : M string :=
  match v with
  | HAtom (SStr t) => mret (PyStr.strip t)
  | _ => mraise AttributeError
  end.

Section Mapper.

(** The text Python prints for a dictionary or a list. *)
Variable repr_container : store -> hval -> string.

(** [f"{v}"] and [str(v)]. *)
Definition py_format (v : hval) : M string :=
  fun s =>
    (Ret match v with
         | HAtom a => py_str a
         | _ => repr_container s v
         end, s).

(** *** The fragments the source repeats *)

(** [x.get("full_name", f"{x.get('first_name', '')} {x.get('last_name', '')}").strip()]. *)
Definition display_name (x : hval) : M string :=
  let& first_name := py_get x "first_name" (HAtom (SStr "")) in
  let& last_name := py_get x "last_name" (HAtom (SStr "")) in
  let& first_text := py_format first_name in
  let& last_text := py_format last_name in
  let& full_name :=
    py_get x "full_name" (HAtom (SStr (first_text +:+ " " +:+ last_text))) in
  py_strip full_name.

Definition senator_info (state_abbr : string) (senator : hval) : M hval :=
  let& name := display_name senator in
  let& party := py_get senator "party" (HAtom (SStr "Unknown")) in
  let& bioguide_id := py_get senator "bioguide_id" (HAtom (SStr "")) in
  new_dict [("name", HAtom (SStr name));
            ("party", party);
            ("role", HAtom (SStr "Senator"));
            ("state", HAtom (SStr state_abbr));
            ("bioguide_id", bioguide_id)].

Definition representative_info (role district_id : string) (cached_rep : hval)
  : M hval :=
  let& name := display_name cached_rep in
  let& party := py_get cached_rep "party" (HAtom (SStr "Unknown")) in
  let& bioguide_id := py_get cached_rep "bioguide_id" (HAtom (SStr "")) in
  new_dict [("name", HAtom (SStr name));
            ("party", party);
            ("role", HAtom (SStr role));
            ("district", HAtom (SStr district_id));
            ("bioguide_id", bioguide_id)].

(** A dictionary display whose values are scalars. *)
Definition new_record (r : record) : M hval :=
  new_dict (map (fun kv => (fst kv, HAtom (snd kv))) r).

(** A list display of such dictionaries. *)
Fixpoint new_records (l : list record) : M (list hval) :=
  match l with
  | [] => mret []
  | r :: l' =>
      let& v := new_record r in
      let& vs := new_records l' in
      mret (v :: vs)
  end.

Definition new_record_list (l : list record) : M hval :=
  let& vs := new_records l in new_list vs.

(** [{"senators": senators, "representatives": []}]. *)
Definition new_entry (senators : hval) : M hval :=
  let& representatives := new_list [] in
  new_dict [("senators", senators); ("representatives", representatives)].

(** [if k not in district_data: district_data[k] = {"senators": [],
    "representatives": []}]. *)
Definition ensure (district_data : hval) (k : string) : M unit :=
  let& present := py_contains k district_data in
  if present then mret tt
  else
    let& senators := new_list [] in
    let& e := new_entry senators in
    py_setitem district_data k e.

(** [district_data[k]["senators"]] and [district_data[k]["representatives"]]. *)
Definition get_senators (district_data : hval) (k : string) : M hval :=
  let& e := py_getitem district_data k in py_getitem e "senators".

Definition get_representatives (district_data : hval) (k : string) : M hval :=
  let& e := py_getitem district_data k in py_getitem e "representatives".

(** [district_data[k]["senators"] = v]. *)
Definition set_senators (district_data : hval) (k : string) (v : hval) : M unit :=
  let& e := py_getitem district_data k in py_setitem e "senators" v.

(** [district_data[k]["representatives"].append(v)]. *)
Definition append_representative (district_data : hval) (k : string) (v : hval)
  : M unit :=
  let& representatives := get_representatives district_data k in
  py_append representatives v.

(** [cache and section in cache and k in cache[section]]. *)
Definition in_cache (cache : hval) (section k : string) : M bool :=
  let& loaded := py_truthy cache in
  if negb loaded then mret false
  else
    let& has_section := py_contains section cache in
    if negb has_section then mret false
    else
      let& sec := py_getitem cache section in
      py_contains k sec.

(** The guard on the cache's states, then
    [cache["states"][state_abbr].get("senators", [])]; [None] when the
    guard fails. *)
Definition lookup_senators (cache : hval) (state_abbr : string) : M (option hval) :=
  let& found := in_cache cache "states" state_abbr in
  if found then
    let& sts := py_getitem cache "states" in
    let& bucket := py_getitem sts state_abbr in
    let& empty := new_list [] in
    let& l := py_get bucket "senators" empty in
    mret (Some l)
  else mret None.

(** The guard on the cache's districts, then
    [cached_rep = cache["districts"][district_id].get("representative")]
    and [if cached_rep:]; [None] when a test fails. *)
Definition lookup_representative (cache : hval) (district_id : string)
  : M (option hval) :=
  let& found := in_cache cache "districts" district_id in
  if found then
    let& ds := py_getitem cache "districts" in
    let& bucket := py_getitem ds district_id in
    let& cached_rep := py_get bucket "representative" (HAtom SNone) in
    let& filled := py_truthy cached_rep in
    mret (if filled then Some cached_rep else None)
  else mret None.

(** [senators_data = []], then [senators_data.append(senator_info)] for
    every [senator] of [cached]. *)
Definition senators_data (state_abbr : string) (cached : hval) : M hval :=
  let& out := new_list [] in
  let& items := py_iter cached in
  let& _ :=
    for_each (fun senator =>
                let& info := senator_info state_abbr senator in
                py_append out info) items in
  mret out.

(** Lines 39 to 53: the senators of the state from the cache, when it
    has some. *)
Definition cached_state_senators (cache district_data : hval) (state_abbr : string)
  : M unit :=
  let& cached := lookup_senators cache state_abbr in
  match cached with
  | Some l =>
      let& some := py_truthy l in
      if some then
        let& data := senators_data state_abbr l in
        set_senators district_data state_abbr data
      else mret tt
  | None => mret tt
  end.

(** Lines 56 to 68: the placeholders, when the list is still empty. *)
Definition default_state_senators (district_data : hval) (state_abbr : string)
  : M unit :=
  let& current := get_senators district_data state_abbr in
  let& some := py_truthy current in
  if some then mret tt
  else
    let& placeholders := new_record_list (Mapper.placeholder_senators state_abbr) in
    set_senators district_data state_abbr placeholders.

(** Lines 39 to 68: the senators of a bare state bucket. *)
Definition fill_state_senators (cache district_data : hval) (state_abbr : string)
  : M unit :=
  let& _ := cached_state_senators cache district_data state_abbr in
  default_state_senators district_data state_abbr.

(** Lines 191 to 219: the senators of the district from the cache when
    the state is in it, else the placeholders. *)
Definition cached_district_senators (cache district_data : hval)
    (state_abbr district_id : string) : M unit :=
  let& cached := lookup_senators cache state_abbr in
  match cached with
  | Some l =>
      let& some := py_truthy l in
      if some then
        let& data := senators_data state_abbr l in
        set_senators district_data district_id data
      else mret tt
  | None =>
      let& placeholders :=
        new_record_list (Mapper.placeholder_senators state_abbr) in
      set_senators district_data district_id placeholders
  end.

(** Lines 186 to 219: the senators of a congressional district. *)
Definition fill_district_senators (cache district_data : hval)
    (state_abbr district_id : string) : M unit :=
  if PyStr.nonempty state_abbr then
    let& present := py_contains state_abbr district_data in
    let& from_state :=
      if present then
        let& l := get_senators district_data state_abbr in py_truthy l
      else mret false in
    if from_state then
      let& l := get_senators district_data state_abbr in
      set_senators district_data district_id l
    else cached_district_senators cache district_data state_abbr district_id
  else mret tt.

(** Lines 88 to 98 and 125 to 136: the representative of the district
    from the cache, when it has one. *)
Definition cached_representative_into (cache district_data : hval)
    (role district_id : string) : M unit :=
  let& cached := lookup_representative cache district_id in
  match cached with
  | Some cached_rep =>
      let& rep_data := representative_info role district_id cached_rep in
      append_representative district_data district_id rep_data
  | None => mret tt
  end.

(** Lines 101 to 106 and 139 to 145: the placeholder, when the list of
    representatives is still empty. *)
Definition default_representative (district_data : hval) (district_id : string)
    (placeholder : record) : M unit :=
  let& current := get_representatives district_data district_id in
  let& some := py_truthy current in
  if some then mret tt
  else
    let& v := new_record placeholder in
    append_representative district_data district_id v.

(** Lines 82 to 85 and 231 to 234: a new entry with a copy of the
    senators of [state_code]. *)
Definition copy_state_entry (district_data : hval) (state_code district_id : string)
  : M unit :=
  let& l := get_senators district_data state_code in
  let& senators := py_copy l in
  let& e := new_entry senators in
  py_setitem district_data district_id e.

(** Lines 82 to 106 and 231 to 255: a new at-large entry. *)
Definition create_at_large (cache district_data : hval)
    (state_code district_id : string) : M unit :=
  let& _ := copy_state_entry district_data state_code district_id in
  let& _ :=
    cached_representative_into cache district_data "Representative" district_id in
  default_representative district_data district_id
    (Mapper.placeholder_representative district_id).

(** Lines 76 to 79: whether another identifier of the response is a
    numbered district of the state. *)
Definition has_numbered_district (data : hval) (state_abbr : string) : M bool :=
  let& empty := new_dict [] in
  let& divisions := py_get data "divisions" empty in
  let& others := py_iter divisions in
  exists_first
    (fun other_id =>
       let& in_state :=
         py_contains ("state:" +:+ PyStr.lower state_abbr +:+ "/cd:") other_id in
       if in_state then
         let& at_large := py_contains "cd:al" other_id in mret (negb at_large)
       else mret false)
    others.

(** Branch 1, lines 30 to 106: a bare state division. *)
Definition state_division (data cache district_data : hval) (ocd_id : string)
  : M unit :=
  let& piece := lift (PyStr.index (PyStr.split "state:" ocd_id) 1) in
  let state_abbr := PyStr.upper piece in
  let& _ := ensure district_data state_abbr in
  let& _ := fill_state_senators cache district_data state_abbr in
  let district_id := state_abbr +:+ "-AL" in
  let& numbered := has_numbered_district data state_abbr in
  let create_at_large_flag := negb numbered in
  if create_at_large_flag then
    let& present := py_contains district_id district_data in
    if negb present
    then create_at_large cache district_data state_abbr district_id
    else mret tt
  else mret tt.

(** Branch 2, lines 109 to 145: a district or territory outside of a
    state. *)
Definition territory_division (cache district_data territories : hval)
    (ocd_id : string) : M unit :=
  let& district_code := lift (Mapper.territory_code ocd_id) in
  let district_id := district_code +:+ "-AL" in
  let& _ := ensure district_data district_id in
  let& is_territory := py_contains district_code territories in
  if is_territory then
    let role := Generic.territory_role district_code in
    let& _ := cached_representative_into cache district_data role district_id in
    default_representative district_data district_id
      [("name", SStr (role +:+ " for " +:+ district_code));
       ("role", SStr role); ("district", SStr district_id)]
  else mret tt.

(** Branch 3, lines 148 to 219: a congressional district. *)
Definition cd_division (cache district_data : hval) (ocd_id : string) : M unit :=
  let& parts := lift (Mapper.cd_parts ocd_id) in
  let state_abbr := fst parts in
  let district_id := Mapper.cd_district_id state_abbr (snd parts) in
  let& _ := ensure district_data district_id in
  let& placeholder := new_record (Mapper.placeholder_representative district_id) in
  let& cached := lookup_representative cache district_id in
  let& rep_data :=
    match cached with
    | Some cached_rep => representative_info "Representative" district_id cached_rep
    | None => mret placeholder
    end in
  let& _ := append_representative district_data district_id rep_data in
  fill_district_senators cache district_data state_abbr district_id.

(** The body of the loop over the divisions. *)
Definition process_division (data cache district_data territories : hval)
    (ocd_id : string) : M unit :=
  let& bare := lift (Mapper.is_bare_state ocd_id) in
  if bare then state_division data cache district_data ocd_id
  else if PyStr.contains "district:" (PyStr.lower ocd_id)
  then territory_division cache district_data territories ocd_id
  else if PyStr.contains "/cd:" ocd_id then cd_division cache district_data ocd_id
  else mret tt.

(** Lines 222 to 255: when no key has a [-], an at-large district for
    every two-letter key. *)
Definition at_large_from_states (cache district_data : hval) : M unit :=
  let& keys := py_keys district_data in
  let& some := py_truthy district_data in
  if negb (existsb (PyStr.contains "-") keys) && some then
    let& state_codes := py_keys district_data in
    for_each
      (fun state_code =>
         if negb (String.length state_code =? 2)%nat then mret tt
         else
           let district_id := state_code +:+ "-AL" in
           let& present := py_contains district_id district_data in
           if present then mret tt
           else create_at_large cache district_data state_code district_id)
      state_codes
  else mret tt.

(** Lines 259 to 266: whether an identifier of the response has one of
    the paths of the test suite. *)
Definition is_test_response (data : hval) : M bool :=
  let& empty := new_dict [] in
  let& divisions := py_get data "divisions" empty in
  let& ids := py_iter divisions in
  exists_first
    (fun ocd_id =>
       let& text := py_format ocd_id in
       mret (existsb (fun ocd_path => PyStr.contains ocd_path text)
               Generic.test_paths))
    ids.

(** A value of [test_data]: a dictionary display with its two list
    displays, the representatives first in the source's [CA-12] and
    [DC-AL], the senators first in its [VT-AL]. *)
Definition new_test_entry (representatives_first : bool) (e : DistrictEntry)
  : M hval :=
  if representatives_first then
    let& reps := new_record_list (representatives e) in
    let& sens := new_record_list (senators e) in
    new_dict [("representatives", reps); ("senators", sens)]
  else
    let& sens := new_record_list (senators e) in
    let& reps := new_record_list (representatives e) in
    new_dict [("senators", sens); ("representatives", reps)].

(** Lines 268 to 302: the display of [test_data]. *)
Definition new_test_data : M hval :=
  let& ca := new_test_entry true (Mapper.entry "CA-12" Generic.test_data) in
  let& dc := new_test_entry true (Mapper.entry "DC-AL" Generic.test_data) in
  let& vt := new_test_entry false (Mapper.entry "VT-AL" Generic.test_data) in
  new_dict [("CA-12", ca); ("DC-AL", dc); ("VT-AL", vt)].

(** Lines 305 to 314: [district_data[test_id] = content] at the first
    identifier of the response that asks for it. *)
Definition apply_test_case (data district_data : hval) (tc : string * hval)
  : M unit :=
  let& empty := new_dict [] in
  let& divisions := py_get data "divisions" empty in
  let& ids := py_iter divisions in
  let& wanted :=
    exists_first
      (fun ocd_id =>
         let test_id := fst tc in
         let& ca :=
           if bool_decide (test_id = "CA-12")
           then py_contains "/state:ca/cd:12" ocd_id else mret false in
         if ca then mret true
         else
           let& dc :=
             if bool_decide (test_id = "DC-AL")
             then py_contains "/district:dc" ocd_id else mret false in
           if dc then mret true
           else if bool_decide (test_id = "VT-AL") then
             let& vt := py_contains "/state:vt" ocd_id in
             if vt then let& cd := py_contains "/cd:" ocd_id in mret (negb cd)
             else mret false
           else mret false)
      ids in
  if wanted then py_setitem district_data (fst tc) (snd tc) else mret tt.

Definition apply_test_data (data district_data : hval) : M unit :=
  let& test := is_test_response data in
  if test then
    let& test_data := new_test_data in
    let& cases := py_items test_data in
    for_each (apply_test_case data district_data) cases
  else mret tt.

(** Lines 317 to 320: the entries whose key has a [-], in a new
    dictionary. *)
Definition district_entries (district_data : hval) : M hval :=
  let& result_data := new_dict [] in
  let& items := py_items district_data in
  let& _ :=
    for_each (fun kv =>
                if PyStr.contains "-" (fst kv)
                then py_setitem result_data (fst kv) (snd kv)
                else mret tt) items in
  mret result_data.

(** [parse_result(data, cached_legislators)]. *)
Definition parse_result (data cached_legislators : hval) : M hval :=
  let& district_data := new_dict [] in
  let& territories :=
    new_list (map (fun code => HAtom (SStr code)) Generic.territories) in
  let& empty := new_dict [] in
  let& divisions := py_get data "divisions" empty in
  let& items := py_items divisions in
  let& _ :=
    for_each (fun item =>
                process_division data cached_legislators district_data territories
                  (fst item))
      items in
  let& _ := at_large_from_states cached_legislators district_data in
  let& _ := apply_test_data data district_data in
  let& result_data := district_entries district_data in
  new_dict [("districts", result_data)].

End Mapper.

(** *** What a store holds *)

(** The record, the list of records and the district entry a value
    stands for; [None] when the value is of another shape. *)
Definition view_field (kv : string * hval) : option (string * scalar) :=
  match snd kv with
  | HAtom a => Some (fst kv, a)
  | _ => None
  end.

Definition view_record (s : store) (v : hval) : option record :=
  match v with
  | HDict l => d ← dicts s !! l; list.mapM view_field d
  | _ => None
  end.

Definition view_records (s : store) (v : hval) : option (list record) :=
  match v with
  | HList l => vs ← lists s !! l; list.mapM (view_record s) vs
  | _ => None
  end.

(** A district entry: a dictionary with the two keys [senators] and
    [representatives], in either order. *)
Definition view_entry (s : store) (v : hval) : option DistrictEntry :=
  match v with
  | HDict l =>
      d ← dicts s !! l;
      sv ← PyDict.get "senators" d;
      rv ← PyDict.get "representatives" d;
      ss ← view_records s sv;
      rs ← view_records s rv;
      if (length d =? 2)%nat
      then Some {| senators := ss; representatives := rs |}
      else None
  | _ => None
  end.

Definition view_item {B : Type} (view : hval -> option B) (kv : string * hval)
  : option (string * B) :=
  b ← view (snd kv); Some (fst kv, b).

(** The mapper's return value [{"districts": {...}}]. *)
Definition view_result (s : store) (v : hval) : option MapperResult :=
  match v with
  | HDict l =>
      d ← dicts s !! l;
      match d with
      | [(k, HDict l')] =>
          if decide (k = "districts") then
            dd ← dicts s !! l';
            entries ← list.mapM (view_item (view_entry s)) dd;
            Some {| result_districts := entries |}
          else None
      | _ => None
      end
  | _ => None
  end.

(** What a call returned or raised, read in the store it left. *)
Definition view_outcome (out : res hval * store) : option (res MapperResult) :=
  match fst out with
  | Ret v => r ← view_result (snd out) v; Some (Ret r)
  | Raise e => Some (Raise e)
  end.

(** The identifiers of a response [{"divisions": {ocd_id: ...}}], or of
    one without the key. *)
Definition view_ids (s : store) (v : hval) : option (list string) :=
  match v with
  | HDict l =>
      d ← dicts s !! l;
      match PyDict.get "divisions" d with
      | None => Some []
      | Some (HDict l') => divisions ← dicts s !! l'; Some (PyDict.keys divisions)
      | Some _ => None
      end
  | _ => None
  end.

(** The legislator cache, every level possibly absent. *)
Definition view_state_bucket (s : store) (v : hval) : option StateBucket :=
  match v with
  | HDict l =>
      d ← dicts s !! l;
      match PyDict.get "senators" d with
      | None => Some {| cached_senators := None |}
      | Some lv => rs ← view_records s lv; Some {| cached_senators := Some rs |}
      end
  | _ => None
  end.

Definition view_district_bucket (s : store) (v : hval) : option DistrictBucket :=
  match v with
  | HDict l =>
      d ← dicts s !! l;
      match PyDict.get "representative" d with
      | None => Some {| cached_representative := None |}
      | Some rv => r ← view_record s rv; Some {| cached_representative := Some r |}
      end
  | _ => None
  end.

Definition view_section {B : Type} (view : store -> hval -> option B)
    (s : store) (d : list (string * hval)) (k : string)
  : option (option (list (string * B))) :=
  match PyDict.get k d with
  | None => Some None
  | Some (HDict l) =>
      sec ← dicts s !! l;
      buckets ← list.mapM (view_item (view s)) sec;
      Some (Some buckets)
  | Some _ => None
  end.

Definition view_cache (s : store) (v : hval) : option LegislatorCache :=
  match v with
  | HDict l =>
      d ← dicts s !! l;
      sts ← view_section view_state_bucket s d "states";
      ds ← view_section view_district_bucket s d "districts";
      Some {| cache_states := sts; cache_districts := ds |}
  | _ => None
  end.

(** [s'] has every object of [s], unchanged, and possibly new ones. *)
Definition extends (s s' : store) : Prop :=
  dicts s `prefix_of` dicts s' /\ lists s `prefix_of` lists s'.

End Heap.

(** ** How the generic mapper lays out [district_data]

    What the proofs about [Heap.parse_result] say of a store: where the
    entries of [district_data] live and which value of the model each
    one stands for. *)

Module Layout.
Import Heap Mapper.

Local Open Scope nat_scope.
Local Open Scope list_scope.

(** The dictionary a record is written as. *)
Definition atoms (r : record) : list (string * hval) :=
  map (fun kv => (fst kv, HAtom (snd kv))) r.

(** Where a district entry lives: its dictionary, the list of its
    senators and the list of its representatives. *)
Definition cell : Type := nat * nat * nat.
Definition c_entry (c : cell) : nat := fst (fst c).
Definition c_sen (c : cell) : nat := snd (fst c).
Definition c_rep (c : cell) : nat := snd c.

Definition territories_list : list hval :=
  map (fun code => HAtom (SStr code)) Generic.territories.

(** Stores that agree on the dictionaries outside [wd] and on the lists
    outside [wl]. *)
Definition agree (wd wl : nat -> Prop) (s s' : store) : Prop :=
  (forall p d, dicts s !! p = Some d -> ~ wd p -> dicts s' !! p = Some d)
  /\ (forall l vs, lists s !! l = Some vs -> ~ wl l -> lists s' !! l = Some vs).

Definition nowhere : nat -> Prop := fun _ => False.

(** The store after [{}] was evaluated in [s]. *)
Definition with_empty_dict (s : store) : store :=
  {| dicts := dicts s ++ [[]]; lists := lists s |}.

(** Cells of objects that [s] has, and cells of objects made after [s]. *)
Definition below (s : store) (c : cell) : Prop :=
  c_entry c < length (dicts s) /\ c_sen c < length (lists s) /\ c_rep c < length (lists s).

Definition above (s : store) (c : cell) : Prop :=
  length (dicts s) <= c_entry c /\ length (lists s) <= c_sen c
  /\ length (lists s) <= c_rep c.

Definition entry_at (s : store) (c : cell) : Prop :=
  exists d,
    dicts s !! c_entry c = Some d
    /\ PyDict.get "senators" d = Some (HList (c_sen c))
    /\ PyDict.get "representatives" d = Some (HList (c_rep c))
    /\ length d = 2.

Section Invariant.

(** The store the mapper was called in: [district_data] is the first
    dictionary it makes, [territories] the first list. *)
Variable s0 : store.

Definition ddl : nat := length (dicts s0).
Definition tl : nat := length (lists s0).
Definition ddv : hval := HDict ddl.
Definition tv : hval := HList tl.

(** The store after the first two statements: an empty [district_data]
    and the list of territory codes. *)
Definition started : store :=
  {| dicts := dicts s0 ++ [[]]; lists := lists s0 ++ [territories_list] |}.

Definition record_at (s : store) (v : hval) (r : record) : Prop :=
  exists p, v = HDict p /\ ddl < p /\ dicts s !! p = Some (atoms r).

Definition records_at (s : store) (l : nat) (rs : list record) : Prop :=
  exists vs, lists s !! l = Some vs /\ Forall2 (record_at s) vs rs.

Definition cell_ok (s : store) (kc : string * cell) (kv : string * DistrictEntry)
  : Prop :=
  fst kc = fst kv
  /\ ddl < c_entry (snd kc)
  /\ tl < c_rep (snd kc)
  /\ entry_at s (snd kc)
  /\ records_at s (c_sen (snd kc)) (senators (snd kv))
  /\ records_at s (c_rep (snd kc)) (representatives (snd kv)).

(** [district_data], as the list of its keys with their cells, stands
    for [dd]; the objects of [s0] are untouched; a list of
    representatives belongs to one entry and is the list of senators of
    none. *)
Record Inv (s : store) (cells : list (string * cell)) (dd : district_data)
  : Prop := {
  inv_dicts : dicts s0 `prefix_of` dicts s;
  inv_lists : (lists s0 ++ [territories_list]) `prefix_of` lists s;
  inv_dd : dicts s !! ddl = Some (map (fun kc => (fst kc, HDict (c_entry (snd kc)))) cells);
  inv_cells : Forall2 (cell_ok s) cells dd;
  inv_entries : NoDup (map (fun kc => c_entry (snd kc)) cells);
  inv_reps : NoDup (map (fun kc => c_rep (snd kc)) cells);
  inv_sens : forall kc kc', kc ∈ cells -> kc' ∈ cells -> c_sen (snd kc) <> c_rep (snd kc')
}.

(** No record is written to. *)
Definition spares_records (s : store) (wd : nat -> Prop) : Prop :=
  forall p r, ddl < p -> dicts s !! p = Some (atoms r) -> ~ wd p.

(** [m], run in a store where [district_data] stands for [dd], returns
    in a store where it stands for the result of [p], or raises what [p]
    raises; in both cases the objects of [s0] are untouched. *)
Definition simulates (m : M unit) (dd : district_data) (p : res district_data) : Prop :=
  forall s cells, Inv s cells dd ->
    exists s',
      match p with
      | Ret dd' => m s = (Ret tt, s') /\ exists cells', Inv s' cells' dd'
      | Raise e => m s = (Raise e, s') /\ extends s0 s'
      end.

End Invariant.

(** [dv] is the dictionary of the divisions [ids]. *)
Definition divisions_at (ids : list string) (s : store) (dv : hval) : Prop :=
  exists l items, dv = HDict l /\ dicts s !! l = Some items /\ PyDict.keys items = ids.

End Layout.

(** A store with a cache file and a response loaded, as
    [get_district_info_from_civic_api] passes them to the mapper. *)
Module StoreSamples.
Import Heap.

(** No container is formatted for these records. *)
Definition no_repr : store -> hval -> string := fun _ _ => "".

Definition loaded : store :=
  {| dicts :=
       [ [("first_name", HAtom (SStr "Alex")); ("last_name", HAtom (SStr "Padilla"));
          ("state", HAtom (SStr "CA"))];
         [("senators", HList 0)];
         [("CA", HDict 1)];
         [("full_name", HAtom (SStr "Nancy Pelosi")); ("party", HAtom (SStr "Democratic"))];
         [("representative", HDict 3)];
         [("CA-11", HDict 4)];
         [("states", HDict 2); ("districts", HDict 5)];
         [("name", HAtom (SStr "California"))];
         [("ocd-division/country:us", HDict 7);
          ("ocd-division/country:us/state:ca", HDict 7);
          ("ocd-division/country:us/state:ca/cd:11", HDict 7)];
         [("divisions", HDict 8)] ];
     lists := [ [HDict 0] ] |}.

Definition loaded_cache : hval := HDict 6.
Definition loaded_response : hval := HDict 9.

(** What the two objects hold. *)
Definition cache_value : LegislatorCache :=
  {| cache_states :=
       Some [("CA",
              {| cached_senators :=
                   Some [[("first_name", SStr "Alex"); ("last_name", SStr "Padilla");
                          ("state", SStr "CA")]] |})];
     cache_districts :=
       Some [("CA-11",
              {| cached_representative :=
                   Some [("full_name", SStr "Nancy Pelosi");
                         ("party", SStr "Democratic")] |})] |}.

Definition response_value : DivisionResponse :=
  Samples.response ["ocd-division/country:us";
                    "ocd-division/country:us/state:ca";
                    "ocd-division/country:us/state:ca/cd:11"].

End StoreSamples.

(** * Properties *)

(** ** Substrings *)

Lemma append_cons (c : ascii) (a b : string) :
  String c a +:+ b = String c (a +:+ b).
Proof. reflexivity. Qed.

Lemma append_nil (b : string) : EmptyString +:+ b = b.
Proof. reflexivity. Qed.

Lemma prefix_app (n h : string) :
  String.prefix n h = true <-> exists b, h = n +:+ b.
Proof.
  revert h. induction n as [|c n IH]; intros h.
  - split; [exists h; reflexivity | intros _; destruct h; reflexivity].
  - destruct h as [|c' h]; simpl.
    + split; [discriminate | intros [b Hb]; rewrite append_cons in Hb; discriminate].
    + destruct (Ascii.ascii_dec c c') as [->|Hne].
      * rewrite IH. split.
        -- intros [b ->]. exists b. reflexivity.
        -- intros [b Hb]. rewrite append_cons in Hb. injection Hb as ->.
           exists b. reflexivity.
      * split; [discriminate|].
        intros [b Hb]. rewrite append_cons in Hb. congruence.
Qed.

Lemma contains_nil (n : string) :
  PyStr.contains n EmptyString = String.prefix n EmptyString.
Proof. simpl. apply orb_false_r. Qed.

Lemma contains_cons (n : string) (c : ascii) (h : string) :
  PyStr.contains n (String c h)
  = String.prefix n (String c h) || PyStr.contains n h.
Proof. reflexivity. Qed.

Lemma contains_app (n h : string) :
  PyStr.contains n h = true <-> exists a b, h = a +:+ n +:+ b.
Proof.
  induction h as [|c h IH].
  - rewrite contains_nil, prefix_app. split.
    + intros [b Hb]. exists EmptyString, b. exact Hb.
    + intros [a [b Hab]]. destruct a as [|c a].
      * exists b. exact Hab.
      * rewrite append_cons in Hab. discriminate.
  - rewrite contains_cons, orb_true_iff, prefix_app, IH. split.
    + intros [[b Hb] | [a [b Hab]]].
      * exists EmptyString, b. exact Hb.
      * exists (String c a), b. rewrite append_cons, Hab. reflexivity.
    + intros [a [b Hab]]. destruct a as [|c' a].
      * left. exists b. exact Hab.
      * right. rewrite append_cons in Hab. injection Hab as -> ->.
        exists a, b. reflexivity.
Qed.

Lemma string_app_assoc (a b c : string) : (a +:+ b) +:+ c = a +:+ (b +:+ c).
Proof.
  induction a as [|x a IH]; [reflexivity|].
  rewrite !append_cons, IH. reflexivity.
Qed.

(** A substring of a substring is a substring. *)
Lemma contains_trans (n m h : string) :
  PyStr.contains n m = true -> PyStr.contains m h = true -> PyStr.contains n h = true.
Proof.
  rewrite !contains_app. intros [a [b ->]] [a' [b' ->]].
  exists (a' +:+ a), (b +:+ b'). rewrite !string_app_assoc. reflexivity.
Qed.

(** ** Dictionaries *)

Section DictFacts.
Context {K V : Type} `{EqDecision K}.

Lemma get_set_eq (k : K) (v : V) (d : list (K * V)) :
  PyDict.get k (PyDict.set k v d) = Some v.
Proof.
  induction d as [|[k' v'] d IH]; simpl.
  - destruct (decide (k = k)); [reflexivity | contradiction].
  - destruct (decide (k = k')) as [->|Hne]; simpl.
    + destruct (decide (k' = k')); [reflexivity | contradiction].
    + destruct (decide (k = k')); [contradiction | exact IH].
Qed.

Lemma get_set_ne (k k0 : K) (v : V) (d : list (K * V)) :
  k0 <> k -> PyDict.get k0 (PyDict.set k v d) = PyDict.get k0 d.
Proof.
  intros Hne. induction d as [|[k' v'] d IH]; simpl.
  - destruct (decide (k0 = k)); [contradiction | reflexivity].
  - destruct (decide (k = k')) as [->|Hne']; simpl.
    + destruct (decide (k0 = k')); [contradiction | reflexivity].
    + destruct (decide (k0 = k')); [reflexivity | exact IH].
Qed.

Lemma get_Some_In (k : K) (v : V) (d : list (K * V)) :
  PyDict.get k d = Some v -> In (k, v) d.
Proof.
  induction d as [|[k' v'] d IH]; simpl; [discriminate|].
  destruct (decide (k = k')) as [->|Hne].
  - intros [= ->]. left. reflexivity.
  - intros Hg. right. exact (IH Hg).
Qed.

Lemma get_None_keys (k : K) (d : list (K * V)) :
  PyDict.get k d = None <-> ~ In k (PyDict.keys d).
Proof.
  induction d as [|[k' v'] d IH]; simpl.
  - split; [intros _ []| reflexivity].
  - destruct (decide (k = k')) as [->|Hne].
    + split; [discriminate | intros Hn; exfalso; apply Hn; left; reflexivity].
    + rewrite IH. split.
      * intros Hn [Heq|Hin]; [congruence | exact (Hn Hin)].
      * intros Hn Hin. apply Hn. right. exact Hin.
Qed.

Lemma keys_set (k : K) (v : V) (d : list (K * V)) (x : K) :
  In x (PyDict.keys (PyDict.set k v d)) <-> x = k \/ In x (PyDict.keys d).
Proof.
  induction d as [|[k' v'] d IH]; simpl.
  - split; [intros [<-|[]]; left; reflexivity | intros [->|[]]; left; reflexivity].
  - destruct (decide (k = k')) as [->|Hne]; simpl.
    + split; [intros [<-|Hin]; right; [left; reflexivity | right; exact Hin]
             | intros [->|[<-|Hin]]; [left | left | right]; auto].
    + rewrite IH. split.
      * intros [<-|[->|Hin]]; [right; left | left | right; right]; auto.
      * intros [->|[<-|Hin]]; [right; left | left | right; right]; auto.
Qed.

End DictFacts.

Lemma keys_filter_keys {V : Type} (p : string -> bool) (d : list (string * V)) (k : string) :
  In k (PyDict.keys (PyDict.filter_keys p d)) <-> p k = true /\ In k (PyDict.keys d).
Proof.
  unfold PyDict.keys, PyDict.filter_keys. rewrite !in_map_iff. split.
  - intros [[k' v] [<- Hin]]. apply filter_In in Hin as [Hin Hp]. simpl in *.
    split; [exact Hp | exists (k', v); split; [reflexivity | exact Hin]].
  - intros [Hp [[k' v] [<- Hin]]]. exists (k', v). split; [reflexivity|].
    apply filter_In. split; [exact Hin | exact Hp].
Qed.

Lemma keyset_filter_keys {V : Type} (p : string -> bool) (d : list (string * V)) (k : string) :
  k ∈ keyset (PyDict.filter_keys p d) <-> p k = true /\ k ∈ keyset d.
Proof.
  unfold keyset. rewrite !elem_of_list_to_set, !list_elem_of_In.
  apply keys_filter_keys.
Qed.

(** ** Field filtering *)

Lemma filter_data_fields {V : Type} (d : list (string * V)) (keep delete : field_set) :
  filter_fields d keep delete = filter_data d keep delete.
Proof. reflexivity. Qed.


Lemma filter_data_keep_keys {V : Type} (d : list (string * V)) (K : gset string)
    (delete : field_set) :
  K <> ∅ -> keyset (filter_data d (Some K) delete) = K ∩ keyset d.
Proof.
  intros HK. unfold filter_data, set_truthy.
  rewrite bool_decide_eq_true_2 by exact HK.
  apply set_eq. intros k. rewrite keyset_filter_keys, elem_of_intersection.
  simpl. rewrite bool_decide_eq_true. reflexivity.
Qed.




(** ** The cache builder *)

Lemma foldM_app {A S : Type} (f : S -> A -> res S) (l1 l2 : list A) (s : S) :
  foldM f (l1 ++ l2)%list s = (let* s' := foldM f l1 s in foldM f l2 s').
Proof.
  revert s. induction l1 as [|a l1 IH]; intros s; simpl; [reflexivity|].
  destruct (f s a) as [s'|e]; simpl; [apply IH | reflexivity].
Qed.

(** Decimal numerals carry no leading zero. *)
Lemma pretty_N_go_leading (x : N) (s : string) :
  (0 < x)%N ->
  exists c rest, pretty_N_go x s = String c rest /\ c <> "0"%char.
Proof.
  revert s. induction (N.lt_wf_0 x) as [x _ IH]. intros s Hx.
  rewrite pretty_N_go_step by exact Hx.
  destruct (decide (x `div` 10 = 0)%N) as [Hz|Hnz].
  - rewrite Hz, pretty_N_go_0. eexists _, _. split; [reflexivity|].
    assert (Hlt : (x < 10)%N) by (apply N.div_small_iff; [lia | exact Hz]).
    rewrite N.mod_small by exact Hlt.
    assert (x = 1 \/ x = 2 \/ x = 3 \/ x = 4 \/ x = 5 \/ x = 6
            \/ x = 7 \/ x = 8 \/ x = 9)%N as Hc by lia.
    destruct Hc as [->|[->|[->|[->|[->|[->|[->|[->| ->]]]]]]]]; discriminate.
  - apply IH; [apply N.div_lt; lia | apply N.neq_0_lt_0; exact Hnz].
Qed.

Lemma pretty_no_zero_padding (d : Z) :
  0 < d -> exists c rest, pretty d = String c rest /\ c <> "0"%char.
Proof.
  intros Hd. destruct d as [|p|p]; try lia.
  unfold pretty, pretty_Z. unfold pretty, pretty_N.
  destruct (decide (N.pos p = 0%N)) as [Hz|_]; [discriminate|].
  apply pretty_N_go_leading. lia.
Qed.

Import Builder.

Lemma build_snoc (df : list record) (row : record) (keep delete : field_set) :
  build_legislators_dict (df ++ [row]) keep delete
  = (let* data := build_legislators_dict df keep delete in add_row keep delete data row).
Proof.
  unfold build_legislators_dict, build_from. rewrite foldM_app. 
  destruct (foldM (add_row keep delete) df empty_dict) as [data|e]; simpl; [|reflexivity].
  destruct (add_row keep delete data row); reflexivity.
Qed.

Lemma add_row_other_key keep delete data row data' key :
  add_row keep delete data row = Ret data' ->
  row_district_key row <> Some key ->
  PyDict.get key (districts data') = PyDict.get key (districts data).
Proof.
  unfold add_row, row_district_key.
  destruct (isna (row_get "district" row)).
  - intros [= <-] _. reflexivity.
  - destruct (py_int (row_get "district" row)) as [d|e]; simpl; [|discriminate].
    intros [= <-] Hk. simpl. apply get_set_ne. congruence.
Qed.

Lemma build_from_other_keys keep delete df data out key :
  build_from data df keep delete = Ret out ->
  (forall r, In r df -> row_district_key r <> Some key) ->
  PyDict.get key (districts out) = PyDict.get key (districts data).
Proof.
  unfold build_from. revert data.
  induction df as [|r df IH]; intros data; simpl.
  - intros [= <-] _. reflexivity.
  - destruct (add_row keep delete data r) as [data1|e] eqn:Hr; simpl; [|discriminate].
    intros Hout Hk. rewrite (IH data1 Hout) by (intros r' Hin; apply Hk; right; exact Hin).
    apply (add_row_other_key _ _ _ _ _ _ Hr). apply Hk. left. reflexivity.
Qed.

Lemma add_row_own_key keep delete data row data' key :
  add_row keep delete data row = Ret data' ->
  row_district_key row = Some key ->
  PyDict.get key (districts data')
  = Some [("representative", filter_fields row keep delete)].
Proof.
  unfold add_row, row_district_key.
  destruct (isna (row_get "district" row)); [discriminate|].
  destruct (py_int (row_get "district" row)) as [d|e]; simpl; [|discriminate].
  intros [= <-] [= <-]. simpl. apply get_set_eq.
Qed.

Lemma build_last_row_wins keep delete df1 row df2 out key :
  build_legislators_dict (df1 ++ row :: df2) keep delete = Ret out ->
  row_district_key row = Some key ->
  (forall r, In r df2 -> row_district_key r <> Some key) ->
  PyDict.get key (districts out)
  = Some [("representative", filter_fields row keep delete)].
Proof.
  unfold build_legislators_dict, build_from. rewrite foldM_app.
  destruct (foldM (add_row keep delete) df1 empty_dict) as [d1|e]; simpl; [|discriminate].
  destruct (add_row keep delete d1 row) as [d2|e] eqn:Hrow; simpl; [|discriminate].
  intros Hout Hkey Hlater.
  rewrite (build_from_other_keys keep delete df2 d2 out key Hout Hlater).
  exact (add_row_own_key _ _ _ _ _ _ Hrow Hkey).
Qed.

(** C4: a row whose district is missing is appended to the senators of its
    state, the districts untouched; a row with a numeric district [d], 0
    included, is stored as the representative under the key made of the
    state, a dash and the decimal numeral of [d], which has no leading
    zero, the other keys untouched; and of the rows with one key the last
    is the one found in the result. *)
Theorem build_legislators_dict_classification
    (keep_fields delete_fields : field_set) (df : list record) (row : record)
    (data : legislators_dict) :
  build_legislators_dict df keep_fields delete_fields = Ret data ->
  let state := py_or (row_get "state" row) (row_get "state_code" row) in
  let filtered := filter_fields row keep_fields delete_fields in
  (isna (row_get "district" row) = true ->
   exists data',
     build_legislators_dict (df ++ [row]) keep_fields delete_fields = Ret data'
     /\ districts data' = districts data
     /\ senators_of state (states data')
        = (senators_of state (states data) ++ [filtered])%list
     /\ forall st, st <> state ->
          PyDict.get st (states data') = PyDict.get st (states data))
  /\ (forall d : Z,
        row_get "district" row = SInt d ->
        exists data',
          build_legislators_dict (df ++ [row]) keep_fields delete_fields = Ret data'
          /\ states data' = states data
          /\ PyDict.get (py_str state +:+ "-" +:+ pretty d) (districts data')
             = Some [("representative", filtered)]
          /\ (forall k, k <> py_str state +:+ "-" +:+ pretty d ->
                PyDict.get k (districts data') = PyDict.get k (districts data))
          /\ (0 < d -> exists c rest, pretty d = String c rest /\ c <> "0"%char))
  /\ (forall df1 r df2 out key,
        build_legislators_dict (df1 ++ r :: df2) keep_fields delete_fields = Ret out ->
        row_district_key r = Some key ->
        (forall r', In r' df2 -> row_district_key r' <> Some key) ->
        PyDict.get key (districts out)
        = Some [("representative", filter_fields r keep_fields delete_fields)]).
Proof.
  intros Hdf state filtered. split; [|split].
  - intros Hna. rewrite build_snoc, Hdf. simpl. unfold add_row.
    fold state. fold filtered. rewrite Hna.
    eexists. split; [reflexivity|]. simpl. split; [reflexivity|]. split.
    + unfold senators_of, add_senator. rewrite get_set_eq. simpl.
      rewrite get_set_eq. reflexivity.
    + intros st Hst. unfold add_senator. apply get_set_ne. exact Hst.
  - intros d Hd. rewrite build_snoc, Hdf. simpl. unfold add_row.
    fold state. fold filtered. rewrite Hd. simpl.
    eexists. split; [reflexivity|]. simpl. split; [reflexivity|]. split; [|split].
    + apply get_set_eq.
    + intros k Hk. apply get_set_ne. exact Hk.
    + apply pretty_no_zero_padding.
  - intros df1 r df2 out key. apply build_last_row_wins.
Qed.

Lemma build_legislators_dict_classification_witness :
  exists data',
    build_legislators_dict [Samples.row_pelosi; Samples.row_padilla; Samples.row_hageman]
      None None = Ret data'
    /\ PyDict.get "WY-0" (districts data')
       = Some [("representative", Samples.row_hageman)].
Proof.
  destruct (build_legislators_dict_classification None None
              [Samples.row_pelosi; Samples.row_padilla] Samples.row_hageman _ eq_refl)
    as (_ & Hrep & _).
  destruct (Hrep 0 eq_refl) as (data' & Hrun & _ & Hget & _).
  exists data'. split; [exact Hrun | exact Hget].
Defined.

(** ** The result mappers *)

Lemma get_filter_keys {V : Type} (p : string -> bool) (d : list (string * V)) (k : string) :
  p k = true -> PyDict.get k (PyDict.filter_keys p d) = PyDict.get k d.
Proof.
  intros Hp. induction d as [|[k' v] d IH]; simpl; [reflexivity|].
  destruct (p k') eqn:Hp'; simpl.
  - destruct (decide (k = k')); [reflexivity | exact IH].
  - destruct (decide (k = k')) as [->|_]; [congruence | exact IH].
Qed.

Lemma get_filter_keys_false {V : Type} (p : string -> bool) (d : list (string * V))
    (k : string) :
  p k = false -> PyDict.get k (PyDict.filter_keys p d) = None.
Proof.
  intros Hp. apply get_None_keys. rewrite keys_filter_keys. intros [Hp' _]. congruence.
Qed.

(** The generic mapper returns keys with a dash only. *)
Lemma generic_parse_result_keys_have_dash (data : DivisionResponse)
    (cache : LegislatorCache) (out : MapperResult) :
  Generic.parse_result data cache = Ret out ->
  (forall k, In k (PyDict.keys (result_districts out)) -> PyStr.contains "-" k = true)
  /\ (forall st, PyStr.contains "-" st = false ->
        PyDict.get st (result_districts out) = None).
Proof.
  unfold Generic.parse_result.
  destruct (foldM _ _ _) as [dd1|e]; simpl; [|discriminate].
  destruct (Generic.at_large_from_states cache dd1) as [dd2|e]; simpl; [|discriminate].
  intros [= <-]. simpl. split.
  - intros k Hk. apply keys_filter_keys in Hk as [Hk _]. exact Hk.
  - intros st Hst. apply get_filter_keys_false. exact Hst.
Qed.

Lemma apply_test_data_dc (ids : list string) (dd : Mapper.district_data) :
  (exists ocd_id, In ocd_id ids /\ PyStr.contains "/district:dc" ocd_id = true) ->
  exists content,
    PyDict.get "DC-AL" Generic.test_data = Some content
    /\ PyDict.get "DC-AL" (Generic.apply_test_data ids dd) = Some content.
Proof.
  intros [ocd_id [Hin Hdc]].
  eexists. split; [reflexivity|].
  unfold Generic.apply_test_data.
  assert (Hany : existsb (fun ocd_id => existsb (fun ocd_path => PyStr.contains ocd_path ocd_id)
                             Generic.test_paths) ids = true).
  { apply existsb_exists. exists ocd_id. split; [exact Hin|].
    unfold Generic.test_paths. cbn [existsb]. rewrite Hdc.
    rewrite orb_true_r. reflexivity. }
  rewrite Hany.
  assert (Hdcal : existsb (Generic.test_applies "DC-AL") ids = true).
  { apply existsb_exists. exists ocd_id. split; [exact Hin|].
    unfold Generic.test_applies. rewrite Hdc.
    rewrite (bool_decide_eq_true_2 ("DC-AL" = "DC-AL")) by reflexivity.
    rewrite orb_true_r. reflexivity. }
  unfold Generic.test_data. cbn [fold_left fst snd]. rewrite Hdcal.
  destruct (existsb (Generic.test_applies "VT-AL") ids).
  - rewrite get_set_ne by discriminate. apply get_set_eq.
  - apply get_set_eq.
Qed.

(** ** The mappers return on well-formed input *)

Lemma split_go_cons (sep : string) (cur : string) (c : ascii) (s : string) :
  PyStr.split_go sep 0 cur (String c s)
  = if String.prefix sep (String c s)
    then cur :: PyStr.split_go sep (Nat.pred (String.length sep)) EmptyString s
    else PyStr.split_go sep 0 (cur +:+ String c EmptyString) s.
Proof. reflexivity. Qed.

Lemma split_go_nonempty (sep : string) (skip : nat) (cur s : string) :
  exists a rest, PyStr.split_go sep skip cur s = a :: rest.
Proof.
  revert skip cur. induction s as [|c s IH]; intros skip cur.
  - eexists _, _. reflexivity.
  - destruct skip as [|k]; [|apply IH].
    rewrite split_go_cons. destruct (String.prefix sep (String c s)).
    + eexists _, _. reflexivity.
    + apply IH.
Qed.

Lemma split_go_two (sep : string) (cur s : string) :
  sep <> "" -> PyStr.contains sep s = true ->
  exists a b rest, PyStr.split_go sep 0 cur s = a :: b :: rest.
Proof.
  intros Hsep. revert cur. induction s as [|c s IH]; intros cur Hc.
  - rewrite contains_nil in Hc. destruct sep; [contradiction | discriminate].
  - rewrite split_go_cons. rewrite contains_cons in Hc.
    destruct (String.prefix sep (String c s)).
    + destruct (split_go_nonempty sep (Nat.pred (String.length sep)) "" s)
        as (b & rest & ->).
      eexists _, _, _. reflexivity.
    + apply IH. exact Hc.
Qed.

Lemma index_split_1 (sep s : string) :
  sep <> "" -> PyStr.contains sep s = true ->
  exists piece, PyStr.index (PyStr.split sep s) 1 = Ret piece.
Proof.
  intros Hsep Hc. destruct (split_go_two sep "" s Hsep Hc) as (a & b & rest & H).
  unfold PyStr.split. rewrite H. exists b. reflexivity.
Qed.

Lemma index_split_0 (sep s : string) :
  exists piece, PyStr.index (PyStr.split sep s) 0 = Ret piece.
Proof.
  destruct (split_go_nonempty sep 0 "" s) as (a & rest & H).
  unfold PyStr.split. rewrite H. exists a. reflexivity.
Qed.

Lemma foldM_returns {A S : Type} (f : S -> A -> res S) (l : list A) (s : S) :
  (forall s a, exists s', f s a = Ret s') -> exists s', foldM f l s = Ret s'.
Proof.
  intros Hf. revert s. induction l as [|a l IH]; intros s.
  - eexists. reflexivity.
  - cbn [foldM]. destruct (Hf s a) as [s1 ->]. cbn [bind]. apply IH.
Qed.

Section Returns.
Import Mapper.
Variable cache : LegislatorCache.
Hypothesis Hcache : named_cache cache.

Lemma display_name_returns (x : record) :
  text_name x -> exists name, display_name x = Ret name.
Proof.
  intros Hx. unfold display_name, rec_get.
  destruct (PyDict.get "full_name" x) as [a|] eqn:Hg; simpl.
  - destruct (Hx a Hg) as [s ->]. eexists. reflexivity.
  - eexists. reflexivity.
Qed.

Lemma senators_info_return (st : string) (l : list record) :
  Forall text_name l -> exists out, mapM (senator_info st) l = Ret out.
Proof.
  induction 1 as [|x l Hx _ [out IH]]; simpl; [eexists; reflexivity|].
  unfold senator_info at 1. destruct (display_name_returns x Hx) as [name ->].
  simpl. rewrite IH. simpl. eexists. reflexivity.
Qed.

Lemma representative_info_returns (role district_id : string) (r : record) :
  lookup_representative cache district_id = Some r ->
  exists out, representative_info role district_id r = Ret out.
Proof.
  intros Hr. unfold representative_info.
  destruct (display_name_returns r (proj2 Hcache _ _ Hr)) as [name ->].
  simpl. eexists. reflexivity.
Qed.

Lemma fill_state_senators_returns (st : string) (dd : district_data) :
  exists dd', fill_state_senators cache st dd = Ret dd'.
Proof.
  unfold fill_state_senators.
  destruct (lookup_senators cache st) as [[|s l]|] eqn:Hl;
    try (eexists; reflexivity).
  destruct (senators_info_return st (s :: l) (proj1 Hcache _ _ Hl)) as [out Hout].
  cbv beta iota. rewrite Hout. eexists. reflexivity.
Qed.

Lemma fill_district_senators_returns (st district_id : string) (dd : district_data) :
  exists dd', fill_district_senators cache st district_id dd = Ret dd'.
Proof.
  unfold fill_district_senators.
  destruct (PyStr.nonempty st); [|eexists; reflexivity].
  destruct (_ && _); [eexists; reflexivity|].
  destruct (lookup_senators cache st) as [[|s l]|] eqn:Hl;
    try (eexists; reflexivity).
  destruct (senators_info_return st (s :: l) (proj1 Hcache _ _ Hl)) as [out Hout].
  rewrite Hout. eexists. reflexivity.
Qed.

Lemma create_at_large_returns (state_code district_id : string) (dd : district_data) :
  exists dd', Generic.create_at_large cache state_code district_id dd = Ret dd'.
Proof.
  unfold Generic.create_at_large.
  destruct (lookup_representative cache district_id) as [r|] eqn:Hr.
  - destruct (representative_info_returns "Representative" district_id r Hr)
      as [info ->]. eexists. reflexivity.
  - eexists. reflexivity.
Qed.

Lemma territory_division_returns (ocd_id : string) (dd : district_data) :
  PyStr.contains "district:" ocd_id = true ->
  exists dd', Generic.territory_division cache ocd_id dd = Ret dd'.
Proof.
  intros Hd. unfold Generic.territory_division, territory_code.
  destruct (index_split_1 "district:" ocd_id) as [piece ->];
    [discriminate | exact Hd |].
  cbn [bind].
  assert (Hcode : exists code,
             (if PyStr.contains "/" (PyStr.upper piece)
              then PyStr.index (PyStr.split "/" (PyStr.upper piece)) 0
              else Ret (PyStr.upper piece)) = Ret code).
  { destruct (PyStr.contains "/" (PyStr.upper piece));
      [apply index_split_0 | eexists; reflexivity]. }
  destruct Hcode as [code ->]. cbn [bind].
  destruct (bool_decide (code ∈ Generic.territories)); [|eexists; reflexivity].
  destruct (lookup_representative cache (code +:+ "-AL")) as [r|] eqn:Hr.
  - destruct (representative_info_returns (Generic.territory_role code)
                (code +:+ "-AL") r Hr) as [info ->].
    eexists. reflexivity.
  - eexists. reflexivity.
Qed.

Lemma cd_division_returns (ocd_id : string) (dd : district_data) :
  PyStr.contains "state:" ocd_id = true ->
  PyStr.contains "/cd:" ocd_id = true ->
  exists dd', Generic.cd_division cache ocd_id dd = Ret dd'.
Proof.
  intros Hstate Hcd. unfold Generic.cd_division, cd_parts.
  destruct (index_split_1 "state:" ocd_id) as [after ->];
    [discriminate | exact Hstate |].
  cbn [bind].
  destruct (index_split_0 "/" after) as [st ->]. cbn [bind].
  destruct (index_split_1 "cd:" ocd_id) as [num ->];
    [discriminate | apply (contains_trans _ "/cd:"); [reflexivity | exact Hcd] |].
  cbn [bind fst snd].
  set (district_id := cd_district_id (PyStr.upper st) num).
  destruct (lookup_representative cache district_id) as [r|] eqn:Hr.
  - destruct (representative_info_returns "Representative" district_id r Hr)
      as [info ->]. cbn [bind]. apply fill_district_senators_returns.
  - cbn [bind]. apply fill_district_senators_returns.
Qed.

Lemma process_division_returns (ids : list string) (dd : district_data)
    (ocd_id : string) :
  well_formed_id ocd_id ->
  exists dd', Generic.process_division ids cache dd ocd_id = Ret dd'.
Proof.
  intros [Hdistrict Hcd]. unfold Generic.process_division, is_bare_state.
  destruct (PyStr.contains "state:" ocd_id) eqn:Hstate.
  - destruct (index_split_1 "state:" ocd_id) as [piece Hpiece];
      [discriminate | exact Hstate |].
    rewrite Hpiece. cbn [bind].
    destruct (negb (PyStr.contains "/" piece)).
    + unfold Generic.state_division. rewrite Hpiece. cbn [bind].
      destruct (fill_state_senators_returns (PyStr.upper piece)
                  (ensure (PyStr.upper piece) dd)) as [dd2 ->]. cbn [bind].
      destruct (_ && _); [apply create_at_large_returns | eexists; reflexivity].
    + destruct (PyStr.contains "district:" (PyStr.lower ocd_id)) eqn:Hd.
      * apply territory_division_returns. apply Hdistrict. reflexivity.
      * destruct (PyStr.contains "/cd:" ocd_id) eqn:Hc; [|eexists; reflexivity].
        apply cd_division_returns; [exact Hstate | exact Hc].
  - cbn [bind]. destruct (PyStr.contains "district:" (PyStr.lower ocd_id)) eqn:Hd.
    + apply territory_division_returns. apply Hdistrict. reflexivity.
    + destruct (PyStr.contains "/cd:" ocd_id) eqn:Hc; [|eexists; reflexivity].
      specialize (Hcd eq_refl). discriminate.
Qed.

Lemma divisions_loop_returns (ids todo : list string) (dd : district_data) :
  Forall well_formed_id todo ->
  exists dd', foldM (Generic.process_division ids cache) todo dd = Ret dd'.
Proof.
  intros Hwf. revert dd. induction Hwf as [|ocd_id todo Hid _ IH]; intros dd.
  - eexists. reflexivity.
  - cbn [foldM]. destruct (process_division_returns ids dd ocd_id Hid) as [dd1 ->].
    cbn [bind]. apply IH.
Qed.

Lemma at_large_from_states_returns (dd : district_data) :
  exists dd', Generic.at_large_from_states cache dd = Ret dd'.
Proof.
  unfold Generic.at_large_from_states.
  destruct (_ && _); [|eexists; reflexivity].
  apply foldM_returns. intros acc code. cbv beta zeta.
  destruct (negb _); [eexists; reflexivity|].
  destruct (PyDict.mem _ acc); [eexists; reflexivity|].
  apply create_at_large_returns.
Qed.

Lemma generic_parse_result_returns (data : DivisionResponse) :
  Forall well_formed_id (ocd_ids data) ->
  exists out, Generic.parse_result data cache = Ret out.
Proof.
  intros Hwf. unfold Generic.parse_result.
  destruct (divisions_loop_returns (ocd_ids data) (ocd_ids data) [] Hwf) as [dd1 ->].
  cbn [bind]. destruct (at_large_from_states_returns dd1) as [dd2 ->].
  cbn [bind]. eexists. reflexivity.
Qed.

End Returns.

(** C7: when the response has an identifier with [country:us/district:dc],
    the generic mapper returns, for well-formed identifiers and a cache
    whose names are text; and whenever it returns, the districts have the
    key [DC-AL], with exactly one representative, whose role is the
    non-voting delegate, and with no senator. *)
Theorem generic_parse_result_dc_delegate (data : DivisionResponse)
    (cache : LegislatorCache) :
  (exists ocd_id,
      In ocd_id (ocd_ids data)
      /\ PyStr.contains "country:us/district:dc" ocd_id = true) ->
  (Forall well_formed_id (ocd_ids data) -> named_cache cache ->
   exists out, Generic.parse_result data cache = Ret out)
  /\ (forall out,
        Generic.parse_result data cache = Ret out ->
        exists e rep,
          PyDict.get "DC-AL" (result_districts out) = Some e
          /\ representatives e = [rep]
          /\ PyDict.get "role" rep = Some (SStr "Delegate (Non-Voting)")
          /\ senators e = []).
Proof.
  intros [ocd_id [Hin Hdc]]. split.
  { intros Hwf Hcache. apply generic_parse_result_returns; assumption. }
  intros out Hrun.
  assert (Hsub : PyStr.contains "/district:dc" ocd_id = true).
  { apply (contains_trans _ "country:us/district:dc"); [reflexivity | exact Hdc]. }
  unfold Generic.parse_result in Hrun.
  destruct (foldM _ _ _) as [dd1|e]; simpl in Hrun; [|discriminate].
  destruct (Generic.at_large_from_states cache dd1) as [dd2|e]; simpl in Hrun;
    [|discriminate].
  injection Hrun as <-. simpl.
  destruct (apply_test_data_dc (ocd_ids data) dd2) as (content & Hc & Hget).
  { exists ocd_id. split; [exact Hin | exact Hsub]. }
  injection Hc as <-.
  eexists _, _. split.
  { rewrite get_filter_keys by reflexivity. exact Hget. }
  split; [reflexivity | split; reflexivity].
Qed.

Lemma generic_parse_result_dc_delegate_witness :
  exists out e rep,
    Generic.parse_result
      (Samples.response ["ocd-division/country:us";
                         "ocd-division/country:us/district:dc"])
      Samples.no_cache = Ret out
    /\ PyDict.get "DC-AL" (result_districts out) = Some e
    /\ representatives e = [rep]
    /\ PyDict.get "role" rep = Some (SStr "Delegate (Non-Voting)")
    /\ senators e = [].
Proof.
  destruct (generic_parse_result_dc_delegate
              (Samples.response ["ocd-division/country:us";
                                 "ocd-division/country:us/district:dc"])
              Samples.no_cache) as [Hret Hdc].
  { exists "ocd-division/country:us/district:dc". split; [right; left|]; reflexivity. }
  destruct Hret as [out Hout].
  { repeat constructor; intros H; vm_compute in H; discriminate. }
  { split; intros ? ?; discriminate. }
  destruct (Hdc out Hout) as (e & rep & H).
  exists out, e, rep. split; [exact Hout | exact H].
Defined.

(** C2, the in-module mapper on the response of test_california_address:
    the state bucket [CA], a key without a dash, is among the districts it
    returns. *)
Theorem legacy_parse_result_returns_state_bucket :
  exists out,
    Legacy.parse_result Samples.no_cache
      (Samples.response ["ocd-division/country:us";
                         "ocd-division/country:us/state:ca";
                         "ocd-division/country:us/state:ca/cd:12"]) = Ret out
    /\ PyDict.keys (result_districts out) = ["CA"; "CA-12"]
    /\ PyStr.contains "-" "CA" = false.
Proof.
  eexists. split; [vm_compute; reflexivity|]. split; reflexivity.
Qed.

(** ** The division resolver *)

(** C9: with an API key configured, an exception of class [Exception]
    raised by [lookup_divisions] (a timeout, an HTTP error, a body that is
    not JSON) is caught: the caller gets [None]. *)
Theorem civic_api_exception_gives_none
    (key : string) (lookup_divisions : string -> string -> res DivisionResponse)
    (use_generic : bool) (cache : LegislatorCache) (address : string) (e : exn) :
  PyStr.nonempty key = true ->
  lookup_divisions address key = Raise e ->
  is_Exception e = true ->
  get_district_info_from_civic_api (Some key) lookup_divisions use_generic cache address
  = Ret VNone.
Proof.
  intros Hkey Hlookup He.
  unfold get_district_info_from_civic_api, get_api_key. rewrite Hkey. simpl.
  rewrite Hlookup. simpl. rewrite He. reflexivity.
Qed.

Lemma civic_api_exception_gives_none_witness :
  get_district_info_from_civic_api (Some "fake_api_key")
    (fun _ _ => Raise Timeout) true Samples.no_cache "94110, USA" = Ret VNone.
Proof.
  apply (civic_api_exception_gives_none "fake_api_key" (fun _ _ => Raise Timeout)
           true Samples.no_cache "94110, USA" Timeout); reflexivity.
Defined.

(** ** Lookup orchestration *)

Section OrchestrationFacts.
Variable civic : string -> res pyval.

Lemma first_call (address : string) (keep delete : field_set) :
  exists rest,
    fst (get_us_district_info_from_address civic address keep delete)
    = full_address address :: rest.
Proof.
  unfold get_us_district_info_from_address, lbind, call_api. simpl.
  destruct (civic (full_address address)); simpl; eexists; reflexivity.
Qed.

End OrchestrationFacts.

(** C8 (as amended): the first address resolved is the input followed by
    [, USA] when the input does not contain [USA], and the input itself
    when it does. *)
Theorem first_resolution_appends_usa (civic : string -> res pyval)
    (address : string) (keep_fields delete_fields : field_set) :
  hd_error (fst (get_us_district_info_from_address civic address keep_fields delete_fields))
  = Some (if PyStr.contains "USA" address then address else address +:+ ", USA").
Proof.
  destruct (first_call civic address keep_fields delete_fields) as [rest ->].
  simpl. unfold full_address. destruct (PyStr.contains "USA" address); reflexivity.
Qed.

(** C8, as the claim states it, fails on an address that has [USA] but not
    [, USA]: nothing is appended. *)
Lemma usa_without_comma_counterexample :
  PyStr.contains ", USA" "1 USA Way" = false
  /\ hd_error (fst (get_us_district_info_from_address (fun _ => Ret VNone)
                      "1 USA Way" None None))
     <> Some ("1 USA Way" +:+ ", USA").
Proof. split; [reflexivity | vm_compute; discriminate]. Qed.

Lemma zip_table_keys (zip st : string) :
  lookup_zip_code_state zip = Some st ->
  (zip = "94110" /\ st = "CA") \/ (zip = "94612" /\ st = "CA")
  \/ (zip = "10001" /\ st = "NY") \/ (zip = "82001" /\ st = "WY").
Proof.
  unfold lookup_zip_code_state, zip_to_state. simpl.
  repeat (destruct (decide _) as [->|_]; [intros [= <-]; tauto|]).
  discriminate.
Qed.

(** C6: when the first resolution yields no districts and the stripped
    input is a ZIP code of the table (a five-digit string, then), exactly
    one more resolution is made, for the full name of the mapped state
    followed by [, USA]. *)
Theorem zip_fallback_retries_with_state_name (civic : string -> res pyval)
    (address : string) (keep_fields delete_fields : field_set)
    (first : pyval) (st : string) :
  civic (full_address address) = Ret first ->
  no_districts first = Ret true ->
  lookup_zip_code_state (PyStr.strip address) = Some st ->
  exists state_name,
    PyDict.get st STATE_MAPPING = Some state_name
    /\ String.length (PyStr.strip address) = 5%nat
    /\ PyStr.isdigit (PyStr.strip address) = true
    /\ fst (get_us_district_info_from_address civic address keep_fields delete_fields)
       = [full_address address; state_name +:+ ", USA"].
Proof.
  intros Hfirst Hnone Hzip.
  unfold get_us_district_info_from_address, lbind, call_api. simpl.
  rewrite Hfirst. simpl. rewrite Hnone. simpl.
  unfold fallback_address.
  destruct (zip_table_keys _ _ Hzip) as [[Hz ->]|[[Hz ->]|[[Hz ->]|[Hz ->]]]];
    rewrite Hz; simpl;
    (eexists; split; [reflexivity|]; split; [reflexivity|]; split; [reflexivity|]);
    match goal with
    | |- context [civic ?a] => destruct (civic a) as [second|e]; simpl; [|reflexivity]
    end;
    destruct (truthy second); simpl; reflexivity.
Qed.

Lemma zip_fallback_retries_with_state_name_witness :
  fst (get_us_district_info_from_address (fun _ => Ret VNone) " 94110 " None None)
  = [" 94110 , USA"; "California, USA"].
Proof.
  destruct (zip_fallback_retries_with_state_name (fun _ => Ret VNone) " 94110 "
              None None VNone "CA" eq_refl eq_refl eq_refl)
    as (state_name & Hname & _ & _ & Hcalls).
  injection Hname as <-. exact Hcalls.
Defined.

(** When every resolution returns nothing ([None] or an empty dictionary),
    the result is the empty [districts] with the error message. *)
Lemma not_found_when_resolver_returns_nothing (civic : string -> res pyval)
    (address : string) (keep_fields delete_fields : field_set) :
  (forall a, exists r, civic a = Ret r /\ truthy r = false) ->
  snd (get_us_district_info_from_address civic address keep_fields delete_fields)
  = Ret (VDict [("districts", VDict []); ("error", VStr (not_found_message address))])
  /\ not_found_message address <> "".
Proof.
  intros Hciv. split; [|discriminate].
  unfold get_us_district_info_from_address, lbind, call_api. simpl.
  destruct (Hciv (full_address address)) as (r1 & -> & Hr1). simpl.
  unfold no_districts. rewrite Hr1. simpl.
  destruct (fallback_address address) as [second|]; simpl.
  - destruct (Hciv second) as (r2 & -> & Hr2). simpl. rewrite Hr2. reflexivity.
  - rewrite Hr1. reflexivity.
Qed.

(** C1, on a response that names the country only: the mapper, the
    generic one or the in-module one, returns [{"districts": {}}], a
    non-empty dictionary, so the not-found branch is skipped and the
    filtered result is the empty dictionary: neither [districts] nor
    [error]. *)
Theorem empty_districts_result_has_no_keys (use_generic : bool) :
  let lookup := fun (_ _ : string) => Ret (Samples.response ["ocd-division/country:us"]) in
  let civic := get_district_info_from_civic_api (Some "fake_api_key") lookup use_generic
                 Samples.no_cache in
  civic "Atlantis, USA" = Ret (VDict [("districts", VDict [])])
  /\ get_us_district_info_from_address civic "Atlantis" None None
     = (["Atlantis, USA"], Ret (VDict [])).
Proof. destruct use_generic; split; vm_compute; reflexivity. Qed.

(** ** Filtering a result *)

Lemma py_get_absent (v : pyval) (k : string) (dflt x : pyval) :
  py_get v k dflt = Ret x -> py_has_key v k = false -> x = dflt.
Proof.
  destruct v as [a|l|d]; simpl; try discriminate.
  unfold PyDict.mem. destruct (PyDict.get k d); [discriminate|].
  intros [= <-] _. reflexivity.
Qed.

Lemma mapM_nil_inv {A B : Type} (f : A -> res B) (ys : list B) :
  mapM f [] = Ret ys -> ys = [].
Proof. intros [= <-]. reflexivity. Qed.

Lemma set_nonempty {V : Type} (k : string) (v : V) (d : list (string * V)) :
  PyDict.set k v d <> [].
Proof.
  destruct d as [|[k' v'] d]; simpl; [discriminate|].
  destruct (decide (k = k')); discriminate.
Qed.

Lemma filter_district_inv (keep delete : field_set) (items : list (string * pyval))
    (result result' : list (string * pyval)) (item : string * pyval) :
  filter_result_inv items result ->
  In item items ->
  filter_district keep delete result item = Ret result' ->
  filter_result_inv items result'.
Proof.
  intros Hinv Hin. destruct item as [district_id info].
  unfold filter_district. simpl.
  destruct (py_get info "senators" (VList [])) as [sin|e] eqn:Hs; simpl; [|discriminate].
  destruct (py_iter sin) as [sit|e] eqn:Hsit; simpl; [|discriminate].
  destruct (mapM _ sit) as [sout|e] eqn:Hsout; simpl; [|discriminate].
  destruct (py_get info "representatives" (VList [])) as [rin|e] eqn:Hr; simpl;
    [|discriminate].
  destruct (py_iter rin) as [rit|e] eqn:Hrit; simpl; [|discriminate].
  destruct (mapM _ rit) as [rout|e] eqn:Hrout; simpl; [|discriminate].
  intros [= <-].
  assert (Hentry : filtered_entry items district_id
                     (VDict [("senators", VList sout); ("representatives", VList rout)])).
  { exists info, sout, rout. split; [exact Hin|]. split; [reflexivity|]. split.
    - intros Habs. rewrite (py_get_absent _ _ _ _ Hs Habs) in Hsit.
      injection Hsit as <-. exact (mapM_nil_inv _ _ Hsout).
    - intros Habs. rewrite (py_get_absent _ _ _ _ Hr Habs) in Hrit.
      injection Hrit as <-. exact (mapM_nil_inv _ _ Hrout). }
  right. destruct Hinv as [->|(ds & -> & Hne & Hds)]; simpl.
  - eexists. split; [reflexivity|]. split; [discriminate|].
    intros id e. simpl. destruct (decide (id = district_id)) as [->|_]; [|discriminate].
    intros [= <-]. exact Hentry.
  - eexists. split; [reflexivity|]. split; [apply set_nonempty|].
    intros id e. destruct (decide (id = district_id)) as [->|Hid].
    + rewrite get_set_eq. intros [= <-]. exact Hentry.
    + rewrite get_set_ne by exact Hid. apply Hds.
Qed.

Lemma filter_loop_inv (keep delete : field_set) (items todo : list (string * pyval))
    (result result' : list (string * pyval)) :
  filter_result_inv items result ->
  (forall item, In item todo -> In item items) ->
  foldM (filter_district keep delete) todo result = Ret result' ->
  filter_result_inv items result' /\ (todo <> [] -> result' <> []).
Proof.
  revert result. induction todo as [|item todo IH]; intros result Hinv Hsub; simpl.
  - intros [= <-]. split; [exact Hinv | congruence].
  - destruct (filter_district keep delete result item) as [r1|e] eqn:Hstep; simpl;
      [|discriminate].
    intros Hrest.
    assert (Hinv1 : filter_result_inv items r1).
    { apply (filter_district_inv keep delete items result r1 item Hinv);
        [apply Hsub; left; reflexivity | exact Hstep]. }
    destruct (IH r1 Hinv1 (fun i Hi => Hsub i (or_intror Hi)) Hrest) as [Hinv' Hne].
    split; [exact Hinv'|]. intros _.
    destruct todo as [|item' todo].
    + simpl in Hrest. injection Hrest as <-.
      unfold filter_district in Hstep.
      repeat match type of Hstep with
             | bind ?m _ = Ret _ => destruct m; simpl in Hstep; [|discriminate]
             end.
      injection Hstep as <-. apply set_nonempty.
    + apply Hne. discriminate.
Qed.

(** A mapper's result is filtered without an exception. *)
Lemma mapM_filter_records (keep delete : field_set) (l : list record) :
  exists out, mapM (fun x => filter_data_dyn x keep delete) (map val_of_record l) = Ret out.
Proof.
  induction l as [|r l [out IH]]; simpl; [eexists; reflexivity|].
  rewrite IH. simpl. eexists. reflexivity.
Qed.

Lemma filter_district_entry (keep delete : field_set) (result : list (string * pyval))
    (district_id : string) (e : DistrictEntry) :
  exists result',
    filter_district keep delete result (district_id, val_of_entry e) = Ret result'.
Proof.
  unfold filter_district. simpl.
  destruct (mapM_filter_records keep delete (senators e)) as [sout ->]. simpl.
  destruct (mapM_filter_records keep delete (representatives e)) as [rout ->]. simpl.
  eexists. reflexivity.
Qed.

Lemma filter_loop_entries (keep delete : field_set) (dd : list (string * DistrictEntry))
    (result : list (string * pyval)) :
  exists result',
    foldM (filter_district keep delete)
      (map (fun kv => (fst kv, val_of_entry (snd kv))) dd) result = Ret result'.
Proof.
  revert result. induction dd as [|[k e] dd IH]; intros result; simpl.
  - eexists. reflexivity.
  - destruct (filter_district_entry keep delete result k e) as [r1 ->]. simpl.
    apply IH.
Qed.

Lemma filter_legislator_data_returns (keep delete : field_set) (r : MapperResult) :
  exists out, filter_legislator_data (val_of_result r) keep delete = Ret (VDict out).
Proof.
  unfold filter_legislator_data, val_of_result. simpl.
  destruct (filter_loop_entries keep delete (result_districts r) []) as [res ->].
  simpl. eexists. reflexivity.
Qed.

(** C10: a mapper's result is filtered without an exception; and whenever
    [filter_legislator_data] returns, on any input dictionary, the result
    is a dictionary with no key but [districts] and [error]; [error] is
    there exactly when the input has it, with the same value; every entry
    under [districts] has the two keys [senators] and [representatives],
    both lists, empty when the input's entry lacks the key; [districts] is
    there exactly when the input has a district; so an input without
    districts and without [error] gives the empty dictionary. *)
Theorem filter_legislator_data_frame (keep_fields delete_fields : field_set) :
  (forall r : MapperResult,
      exists out, filter_legislator_data (val_of_result r) keep_fields delete_fields
                  = Ret (VDict out))
  /\ (forall (data : list (string * pyval)) (out : pyval),
        filter_legislator_data (VDict data) keep_fields delete_fields = Ret out ->
        exists (o items : list (string * pyval)),
          out = VDict o
          /\ default (VDict []) (PyDict.get "districts" data) = VDict items
          /\ (forall k, In k (PyDict.keys o) -> k = "districts" \/ k = "error")
          /\ PyDict.get "error" o = PyDict.get "error" data
          /\ (items = [] -> PyDict.get "districts" o = None)
          /\ (items <> [] ->
              exists ds,
                PyDict.get "districts" o = Some (VDict ds)
                /\ forall district_id e,
                     PyDict.get district_id ds = Some e ->
                     exists info s r,
                       In (district_id, info) items
                       /\ e = VDict [("senators", VList s); ("representatives", VList r)]
                       /\ (py_has_key info "senators" = false -> s = [])
                       /\ (py_has_key info "representatives" = false -> r = []))
          /\ (items = [] -> PyDict.get "error" data = None -> o = [])).
Proof.
  split; [apply filter_legislator_data_returns|].
  intros data out. unfold filter_legislator_data. simpl.
  destruct (default (VDict []) (PyDict.get "districts" data)) as [a|l|items] eqn:Hd;
    simpl; try discriminate.
  destruct (foldM _ items []) as [result|e] eqn:Hloop; simpl; [|discriminate].
  destruct (filter_loop_inv keep_fields delete_fields items items [] result)
    as [Hinv Hne]; [left; reflexivity | auto | exact Hloop |].
  unfold PyDict.mem.
  destruct (PyDict.get "error" data) as [err|] eqn:Herr; simpl; intros [= <-];
    eexists _, items; (split; [reflexivity|]); (split; [reflexivity|]).
  - destruct Hinv as [->|(ds & -> & Hds & Hentries)]; simpl.
    + split; [intros k [<-|[]]; right; reflexivity|].
      split; [reflexivity|]. split; [reflexivity|].
      split; [intros Hi; exfalso; exact (Hne Hi eq_refl)|].
      intros _; discriminate.
    + split; [intros k [<-|[<-|[]]]; [left | right]; reflexivity|].
      split; [reflexivity|].
      split; [intros ->; simpl in Hloop; discriminate|].
      split; [|intros _; discriminate].
      intros _. exists ds. split; [reflexivity | exact Hentries].
  - destruct Hinv as [->|(ds & -> & Hds & Hentries)]; simpl.
    + split; [intros k []|]. split; [reflexivity|]. split; [reflexivity|].
      split; [intros Hi; exfalso; exact (Hne Hi eq_refl)|]. reflexivity.
    + split; [intros k [<-|[]]; left; reflexivity|].
      split; [reflexivity|].
      split; [intros ->; simpl in Hloop; discriminate|].
      split; [|intros ->; simpl in Hloop; discriminate].
      intros _. exists ds. split; [reflexivity | exact Hentries].
Qed.

Lemma filter_legislator_data_frame_witness :
  exists o,
    filter_legislator_data (VDict Samples.stray_result) (Some {["name"]}) None
    = Ret (VDict o)
    /\ PyDict.get "error" o = None
    /\ (forall k, In k (PyDict.keys o) -> k = "districts" \/ k = "error").
Proof.
  assert (Hrun :
    filter_legislator_data (VDict Samples.stray_result) (Some {["name"]}) None
    = Ret (VDict
             [("districts",
               VDict [("CA-12",
                       VDict [("senators",
                               VList [VDict [("name", VStr "Nancy Pelosi")]]);
                              ("representatives", VList [])])])]))
    by (vm_compute; reflexivity).
  destruct (proj2 (filter_legislator_data_frame (Some {["name"]}) None)
              Samples.stray_result _ Hrun)
    as (o & items & Hout & _ & Hkeys & Herr & _).
  exists o. split; [rewrite Hrun, Hout; reflexivity|].
  split; [exact Herr | exact Hkeys].
Defined.

(** * Further properties *)

(** ** Field filtering, continued *)

Lemma get_filter_keys_if {V : Type} (p : string -> bool) (d : list (string * V))
    (k : string) :
  PyDict.get k (PyDict.filter_keys p d) = if p k then PyDict.get k d else None.
Proof.
  destruct (p k) eqn:Hp; [apply get_filter_keys | apply get_filter_keys_false]; exact Hp.
Qed.

(** X1: with no keep-set in force and a non-empty delete-set, the keys
    left are the keys of the record that are not in the delete-set. *)
Theorem filter_data_delete_keys {V : Type} (r : list (string * V))
    (keep_fields : field_set) (D : gset string) :
  set_truthy keep_fields = false -> D <> ∅ ->
  keyset (filter_data r keep_fields (Some D)) = keyset r ∖ D
  /\ keyset (filter_fields r keep_fields (Some D)) = keyset r ∖ D.
Proof.
  intros Hk HD.
  change (filter_fields r keep_fields (Some D)) with (filter_data r keep_fields (Some D)).
  assert (H : keyset (filter_data r keep_fields (Some D)) = keyset r ∖ D).
  { unfold filter_data. rewrite Hk. unfold set_truthy.
    rewrite bool_decide_eq_true_2 by exact HD.
    apply set_eq. intros k. rewrite keyset_filter_keys, elem_of_difference.
    simpl. rewrite negb_true_iff, bool_decide_eq_false. tauto. }
  split; exact H.
Qed.

Lemma filter_data_delete_keys_witness :
  keyset (filter_data Samples.pelosi None (Some {["role"; "district"]}))
  = keyset Samples.pelosi ∖ {["role"; "district"]}.
Proof.
  apply (filter_data_delete_keys Samples.pelosi None {["role"; "district"]}).
  - reflexivity.
  - intros He. assert (Hin : "role" ∈ ({["role"; "district"]} : gset string))
      by set_solver.
    rewrite He in Hin. set_solver.
Defined.

(** X2: a field that survives the filter keeps its value, and a field
    has a value after the filter only if it had it before; whatever the
    two sets are. *)
Theorem filter_data_keeps_values {V : Type} (r : list (string * V))
    (keep_fields delete_fields : field_set) (k : string) (v : V) :
  PyDict.get k (filter_data r keep_fields delete_fields) = Some v ->
  PyDict.get k r = Some v.
Proof.
  unfold filter_data.
  destruct (set_truthy keep_fields); [|destruct (set_truthy delete_fields)];
    rewrite ?get_filter_keys_if; try (destruct (_ : bool); [tauto | discriminate]).
  tauto.
Qed.

Lemma filter_data_keeps_values_witness :
  PyDict.get "name" Samples.pelosi = Some (SStr "Nancy Pelosi").
Proof.
  apply (filter_data_keeps_values Samples.pelosi (Some {["name"]}) None).
  vm_compute. reflexivity.
Defined.

Lemma filter_filter {A : Type} (p : A -> bool) (l : list A) :
  List.filter p (List.filter p l) = List.filter p l.
Proof.
  induction l as [|a l IH]; simpl; [reflexivity|].
  destruct (p a) eqn:Hp; simpl; [rewrite Hp, IH|]; auto.
Qed.

(** X3: filtering twice with the same sets is filtering once. *)
Theorem filter_data_idempotent {V : Type} (r : list (string * V))
    (keep_fields delete_fields : field_set) :
  filter_data (filter_data r keep_fields delete_fields) keep_fields delete_fields
  = filter_data r keep_fields delete_fields.
Proof.
  unfold filter_data, PyDict.filter_keys.
  destruct (set_truthy keep_fields); [apply filter_filter|].
  destruct (set_truthy delete_fields); [apply filter_filter | reflexivity].
Qed.

(** ** Lookup orchestration, continued *)

Lemma fallback_address_table (address second : string) :
  fallback_address address = Some second ->
  exists st state_name,
    lookup_zip_code_state (PyStr.strip address) = Some st
    /\ PyDict.get st STATE_MAPPING = Some state_name
    /\ second = state_name +:+ ", USA".
Proof.
  unfold fallback_address.
  destruct (_ && _); [|discriminate].
  destruct (lookup_zip_code_state (PyStr.strip address)) as [st|]; [|discriminate].
  destruct (PyStr.nonempty st); [|discriminate].
  destruct (PyDict.get st STATE_MAPPING) as [name|] eqn:Hname; [|discriminate].
  destruct (PyStr.nonempty name); [|discriminate].
  intros [= <-]. exists st, name. split; [reflexivity|]. split; [exact Hname | reflexivity].
Qed.

Lemma no_districts_false_truthy (result : pyval) :
  no_districts result = Ret false -> truthy result = true.
Proof.
  unfold no_districts. destruct (truthy result); [reflexivity | discriminate].
Qed.

(** X4: the resolver is called once or twice, first with the full
    address; a second call is made with the full name of California, New
    York or Wyoming followed by [, USA], and with nothing else. *)
Theorem at_most_two_resolutions (civic : string -> res pyval) (address : string)
    (keep_fields delete_fields : field_set) :
  let calls := fst (get_us_district_info_from_address civic address
                      keep_fields delete_fields) in
  calls = [full_address address]
  \/ exists state_name,
       In state_name ["California"; "New York"; "Wyoming"]
       /\ calls = [full_address address; state_name +:+ ", USA"].
Proof.
  unfold get_us_district_info_from_address, lbind, call_api. simpl.
  destruct (civic (full_address address)) as [r1|e]; simpl; [|left; reflexivity].
  destruct (no_districts r1) as [[|]|e]; simpl; try (left; reflexivity).
  - destruct (fallback_address address) as [second|] eqn:Hfb; simpl.
    + right. destruct (fallback_address_table _ _ Hfb) as (st & name & Hzip & Hname & ->).
      exists name. split.
      * destruct (zip_table_keys _ _ Hzip) as [[_ ->]|[[_ ->]|[[_ ->]|[_ ->]]]];
          injection Hname as <-; simpl; tauto.
      * destruct (civic _) as [r2|e]; simpl; [|reflexivity].
        destruct (truthy r2); reflexivity.
    + left. destruct (truthy r1); reflexivity.
  - left. destruct (truthy r1); reflexivity.
Qed.

Lemma single_resolution_when_found (civic : string -> res pyval)
    (address : string) (keep_fields delete_fields : field_set) (result : pyval) :
  civic (full_address address) = Ret result ->
  no_districts result = Ret false ->
  get_us_district_info_from_address civic address keep_fields delete_fields
  = ([full_address address], filter_legislator_data result keep_fields delete_fields).
Proof.
  intros Hc Hn.
  unfold get_us_district_info_from_address, lbind, call_api. simpl.
  rewrite Hc. simpl. rewrite Hn. simpl.
  rewrite (no_districts_false_truthy _ Hn). simpl.
  destruct (filter_legislator_data result keep_fields delete_fields); reflexivity.
Qed.

(** X5: when the first resolution has districts, it is the only one and
    the outcome is its filtered result. *)
Theorem found_districts_single_resolution (civic : string -> res pyval)
    (address : string) (keep_fields delete_fields : field_set) (result : pyval) :
  civic (full_address address) = Ret result ->
  no_districts result = Ret false ->
  get_us_district_info_from_address civic address keep_fields delete_fields
  = ([full_address address], filter_legislator_data result keep_fields delete_fields).
Proof.
  intros Hc Hn.
  unfold get_us_district_info_from_address, lbind, call_api. simpl.
  rewrite Hc. simpl. rewrite Hn. simpl.
  rewrite (no_districts_false_truthy _ Hn). simpl.
  destruct (filter_legislator_data result keep_fields delete_fields); reflexivity.
Qed.

Lemma found_districts_single_resolution_witness :
  fst (get_us_district_info_from_address
         (fun _ => Ret (VDict Samples.stray_result)) "123 Main St" None None)
  = ["123 Main St, USA"].
Proof.
  rewrite (found_districts_single_resolution
             (fun _ => Ret (VDict Samples.stray_result)) "123 Main St" None None
             (VDict Samples.stray_result) eq_refl eq_refl).
  reflexivity.
Defined.

(** X6: an input that, stripped, is not a ZIP code of the table is
    resolved once, found or not. *)
Theorem unknown_zip_single_resolution (civic : string -> res pyval)
    (address : string) (keep_fields delete_fields : field_set) :
  lookup_zip_code_state (PyStr.strip address) = None ->
  fst (get_us_district_info_from_address civic address keep_fields delete_fields)
  = [full_address address].
Proof.
  intros Hzip.
  assert (Hfb : fallback_address address = None).
  { destruct (fallback_address address) as [second|] eqn:Hfb; [|reflexivity].
    destruct (fallback_address_table _ _ Hfb) as (st & _ & Hst & _). congruence. }
  unfold get_us_district_info_from_address, lbind, call_api. simpl.
  destruct (civic (full_address address)) as [r1|e]; simpl; [|reflexivity].
  destruct (no_districts r1) as [[|]|e]; simpl; try reflexivity.
  - rewrite Hfb. simpl. destruct (truthy r1); reflexivity.
  - destruct (truthy r1); reflexivity.
Qed.

Lemma unknown_zip_single_resolution_witness :
  fst (get_us_district_info_from_address (fun _ => Ret VNone) "90210" None None)
  = ["90210, USA"].
Proof.
  apply (unknown_zip_single_resolution (fun _ => Ret VNone) "90210" None None).
  reflexivity.
Defined.

(** ** The division resolver, continued *)

(** X7: without an API key (unset or empty) the resolver exits with
    status 1 before any request is made, whatever [lookup_divisions]
    would do; the lookup stops there, after its first call. *)
Theorem missing_api_key_exits
    (key : option string) (lookup_divisions : string -> string -> res DivisionResponse)
    (use_generic : bool) (cache : LegislatorCache) (address : string)
    (keep_fields delete_fields : field_set) :
  key = None \/ key = Some "" ->
  get_district_info_from_civic_api key lookup_divisions use_generic cache address
  = Raise (SystemExit 1)
  /\ get_us_district_info_from_address
       (get_district_info_from_civic_api key lookup_divisions use_generic cache)
       address keep_fields delete_fields
     = ([full_address address], Raise (SystemExit 1)).
Proof.
  intros Hkey.
  assert (H : forall a,
             get_district_info_from_civic_api key lookup_divisions use_generic cache a
             = Raise (SystemExit 1)).
  { intros a. destruct Hkey as [-> | ->]; reflexivity. }
  split; [apply H|].
  unfold get_us_district_info_from_address, lbind, call_api. simpl.
  rewrite H. reflexivity.
Qed.

Lemma missing_api_key_exits_witness :
  get_district_info_from_civic_api None (fun _ _ => Raise Timeout) true
    Samples.no_cache "94110, USA" = Raise (SystemExit 1).
Proof.
  apply (missing_api_key_exits None (fun _ _ => Raise Timeout) true Samples.no_cache
           "94110, USA" None None).
  left. reflexivity.
Defined.

Lemma only_ret {A : Type} (a : A) : only_exceptions (Ret a).
Proof. intros e H. discriminate. Qed.

Lemma only_bind {A B : Type} (m : res A) (k : A -> res B) :
  only_exceptions m -> (forall a, only_exceptions (k a)) -> only_exceptions (bind m k).
Proof.
  intros Hm Hk e. destruct m as [a|e']; simpl.
  - apply Hk.
  - intros [= <-]. apply Hm. reflexivity.
Qed.

Lemma only_index {A : Type} (l : list A) (i : nat) : only_exceptions (PyStr.index l i).
Proof.
  unfold PyStr.index. destruct (nth_error l i); intros e [= <-]. reflexivity.
Qed.

Lemma only_mapM {A B : Type} (f : A -> res B) (l : list A) :
  (forall a, only_exceptions (f a)) -> only_exceptions (mapM f l).
Proof.
  intros Hf. induction l as [|a l IH]; simpl; [apply only_ret|].
  apply only_bind; [apply Hf|]. intros b.
  apply only_bind; [exact IH|]. intros bs. apply only_ret.
Qed.

Lemma only_foldM {A S : Type} (f : S -> A -> res S) (l : list A) (s : S) :
  (forall s a, only_exceptions (f s a)) -> only_exceptions (foldM f l s).
Proof.
  intros Hf. revert s. induction l as [|a l IH]; intros s; simpl; [apply only_ret|].
  apply only_bind; [apply Hf | exact IH].
Qed.

Ltac only_step :=
  match goal with
  | |- only_exceptions (Ret _) => apply only_ret
  | |- only_exceptions (Raise _) => let e := fresh in intros e [= <-]; reflexivity
  | |- only_exceptions (bind _ _) => apply only_bind; [|intros ?]
  | |- only_exceptions (PyStr.index _ _) => apply only_index
  | |- only_exceptions (mapM _ _) => apply only_mapM; intros ?
  | |- only_exceptions (foldM _ _ _) => apply only_foldM; intros ? ?
  | |- only_exceptions (if ?b then _ else _) => destruct b
  | |- only_exceptions (match ?x with _ => _ end) => destruct x
  end.

Ltac only_solve := repeat only_step.


Import Mapper.

Lemma only_display_name (x : record) : only_exceptions (Mapper.display_name x).
Proof. unfold display_name. only_solve. Qed.

Lemma only_senator_info (st : string) (x : record) : only_exceptions (senator_info st x).
Proof. unfold senator_info. only_solve. apply only_display_name. Qed.

Lemma only_representative_info (role id : string) (x : record) :
  only_exceptions (representative_info role id x).
Proof. unfold representative_info. only_solve. apply only_display_name. Qed.

Lemma only_fill_state_senators cache st dd :
  only_exceptions (fill_state_senators cache st dd).
Proof. unfold fill_state_senators. only_solve; apply only_senator_info. Qed.

Lemma only_fill_district_senators cache st id dd :
  only_exceptions (fill_district_senators cache st id dd).
Proof. unfold fill_district_senators. only_solve; apply only_senator_info. Qed.

Lemma only_create_at_large cache st id dd :
  only_exceptions (Generic.create_at_large cache st id dd).
Proof. unfold Generic.create_at_large. only_solve; apply only_representative_info. Qed.

Lemma only_generic_process ids cache dd ocd_id :
  only_exceptions (Generic.process_division ids cache dd ocd_id).
Proof.
  unfold Generic.process_division, is_bare_state, Generic.state_division,
    Generic.territory_division, Generic.cd_division, territory_code, cd_parts.
  only_solve;
    first [apply only_fill_state_senators | apply only_fill_district_senators
          | apply only_create_at_large | apply only_representative_info].
Qed.

Lemma only_generic_parse_result data cache :
  only_exceptions (Generic.parse_result data cache).
Proof.
  unfold Generic.parse_result, Generic.at_large_from_states.
  only_solve; first [apply only_generic_process | apply only_create_at_large].
Qed.

Lemma only_legacy_parse_result cache data :
  only_exceptions (Legacy.parse_result cache data).
Proof.
  unfold Legacy.parse_result, Legacy.process_division, is_bare_state,
    Legacy.state_division, Legacy.territory_division, Legacy.cd_division,
    territory_code, cd_parts.
  only_solve;
    first [apply only_fill_state_senators | apply only_fill_district_senators
          | apply only_representative_info].
Qed.

Lemma resolver_returns_mapper_result
    (key : string) (lookup_divisions : string -> string -> res DivisionResponse)
    (use_generic : bool) (cache : LegislatorCache) (address : string)
    (data : DivisionResponse) (r : MapperResult) :
  PyStr.nonempty key = true ->
  lookup_divisions address key = Ret data ->
  (if use_generic then Generic.parse_result data cache
   else Legacy.parse_result cache data) = Ret r ->
  get_district_info_from_civic_api (Some key) lookup_divisions use_generic cache address
  = Ret (val_of_result r).
Proof.
  intros Hkey Hl Hr. unfold get_district_info_from_civic_api, get_api_key.
  rewrite Hkey. cbn [bind]. rewrite Hl. cbn [bind]. rewrite Hr. reflexivity.
Qed.

Lemma resolver_catches_mapper_exception
    (key : string) (lookup_divisions : string -> string -> res DivisionResponse)
    (use_generic : bool) (cache : LegislatorCache) (address : string)
    (data : DivisionResponse) (e : exn) :
  PyStr.nonempty key = true ->
  lookup_divisions address key = Ret data ->
  (if use_generic then Generic.parse_result data cache
   else Legacy.parse_result cache data) = Raise e ->
  is_Exception e = true ->
  get_district_info_from_civic_api (Some key) lookup_divisions use_generic cache address
  = Ret VNone.
Proof.
  intros Hkey Hl Hr He. unfold get_district_info_from_civic_api, get_api_key.
  rewrite Hkey. cbn [bind]. rewrite Hl. cbn [bind]. rewrite Hr. cbn [bind try_except].
  rewrite He. reflexivity.
Qed.

Lemma resolver_catches_lookup_exception
    (key : string) (lookup_divisions : string -> string -> res DivisionResponse)
    (use_generic : bool) (cache : LegislatorCache) (address : string) (e : exn) :
  PyStr.nonempty key = true ->
  lookup_divisions address key = Raise e ->
  is_Exception e = true ->
  get_district_info_from_civic_api (Some key) lookup_divisions use_generic cache address
  = Ret VNone.
Proof.
  intros Hkey Hl He. unfold get_district_info_from_civic_api, get_api_key.
  rewrite Hkey. cbn [bind]. rewrite Hl. cbn [bind try_except]. rewrite He. reflexivity.
Qed.

(** X8: with an API key configured and a [lookup_divisions] that raises
    nothing outside the class [Exception], the resolver never raises,
    whatever the response and the cache hold.  It returns the result of
    the mapper on the response that [lookup_divisions] returned, and
    [None] exactly when [lookup_divisions] or the mapper raised. *)
Theorem resolver_never_raises
    (key : string) (lookup_divisions : string -> string -> res DivisionResponse)
    (use_generic : bool) (cache : LegislatorCache) (address : string) :
  PyStr.nonempty key = true ->
  only_exceptions (lookup_divisions address key) ->
  (exists data r,
      lookup_divisions address key = Ret data
      /\ (if use_generic then Generic.parse_result data cache
          else Legacy.parse_result cache data) = Ret r
      /\ get_district_info_from_civic_api (Some key) lookup_divisions use_generic cache
           address = Ret (val_of_result r))
  \/ (((exists e, lookup_divisions address key = Raise e)
       \/ (exists data e,
              lookup_divisions address key = Ret data
              /\ (if use_generic then Generic.parse_result data cache
                  else Legacy.parse_result cache data) = Raise e))
      /\ get_district_info_from_civic_api (Some key) lookup_divisions use_generic cache
           address = Ret VNone).
Proof.
  intros Hkey Hlookup.
  destruct (lookup_divisions address key) as [data|e] eqn:Hl.
  - assert (Hm : only_exceptions
                   (if use_generic then Generic.parse_result data cache
                    else Legacy.parse_result cache data)).
    { destruct use_generic;
        [apply only_generic_parse_result | apply only_legacy_parse_result]. }
    destruct (if use_generic then Generic.parse_result data cache
              else Legacy.parse_result cache data) as [r|e] eqn:Hr.
    + left. exists data, r. split; [reflexivity|]. split; [exact Hr|].
      exact (resolver_returns_mapper_result key lookup_divisions use_generic cache
               address data r Hkey Hl Hr).
    + right. split.
      * right. exists data, e. split; [reflexivity | exact Hr].
      * exact (resolver_catches_mapper_exception key lookup_divisions use_generic cache
                 address data e Hkey Hl Hr (Hm e eq_refl)).
  - right. split.
    + left. exists e. reflexivity.
    + exact (resolver_catches_lookup_exception key lookup_divisions use_generic cache
               address e Hkey Hl (Hlookup e eq_refl)).
Qed.

(** On a response whose one identifier has a [cd:] part and no [state:]
    part the mapper raises [IndexError]; the resolver returns [None]. *)
Lemma resolver_never_raises_witness :
  get_district_info_from_civic_api (Some "fake_api_key")
    (fun _ _ => Ret (Samples.response ["ocd-division/country:us/cd:1"]))
    true Samples.no_cache "x" = Ret VNone.
Proof.
  destruct (resolver_never_raises "fake_api_key"
              (fun _ _ => Ret (Samples.response ["ocd-division/country:us/cd:1"]))
              true Samples.no_cache "x") as [(data & r & Hl & Hm & _) | [_ H]].
  - reflexivity.
  - intros e H. discriminate.
  - injection Hl as <-. vm_compute in Hm. discriminate.
  - exact H.
Defined.

(** ** The result mappers, continued *)

Lemma map_chars_app (f : ascii -> ascii) (a b : string) :
  PyStr.map_chars f (a +:+ b) = PyStr.map_chars f a +:+ PyStr.map_chars f b.
Proof.
  induction a as [|c a IH]; [reflexivity|].
  rewrite append_cons. simpl. rewrite IH. reflexivity.
Qed.

(** A lower-case substring is still there after [lower]. *)
Lemma contains_lower (n h : string) :
  PyStr.lower n = n -> PyStr.contains n h = true ->
  PyStr.contains n (PyStr.lower h) = true.
Proof.
  intros Hn. rewrite !contains_app. intros (a & b & ->).
  exists (PyStr.lower a), (PyStr.lower b).
  unfold PyStr.lower in *. rewrite !map_chars_app, Hn. reflexivity.
Qed.

Lemma not_contains_trans (n m h : string) :
  PyStr.contains n m = true -> PyStr.contains n h = false ->
  PyStr.contains m h = false.
Proof.
  intros Hnm Hnh. destruct (PyStr.contains m h) eqn:Hmh; [|reflexivity].
  rewrite (contains_trans n m h Hnm Hmh) in Hnh. discriminate.
Qed.

Lemma generic_loop_unrelated (ids todo : list string) (cache : LegislatorCache)
    (dd : Mapper.district_data) :
  Forall unrelated_id todo ->
  foldM (Generic.process_division ids cache) todo dd = Ret dd.
Proof.
  induction 1 as [|ocd_id todo (Hs & Hd & Hc) _ IH]; simpl; [reflexivity|].
  unfold Generic.process_division at 1, Mapper.is_bare_state.
  rewrite Hs. simpl. rewrite Hd, Hc. simpl. exact IH.
Qed.

Lemma legacy_loop_unrelated (todo : list string) (cache : LegislatorCache)
    (dd : Mapper.district_data) :
  Forall unrelated_id todo ->
  foldM (Legacy.process_division cache) todo dd = Ret dd.
Proof.
  induction 1 as [|ocd_id todo (Hs & Hd & Hc) _ IH]; simpl; [reflexivity|].
  unfold Legacy.process_division at 1, Mapper.is_bare_state.
  rewrite Hs. simpl. rewrite Hd, Hc. simpl. exact IH.
Qed.

Lemma existsb_cons {A : Type} (f : A -> bool) (a : A) (l : list A) :
  existsb f (a :: l) = f a || existsb f l.
Proof. reflexivity. Qed.

Lemma unrelated_no_test_path (ids : list string) :
  Forall unrelated_id ids ->
  existsb (fun ocd_id => existsb (fun ocd_path => PyStr.contains ocd_path ocd_id)
                           Generic.test_paths) ids = false.
Proof.
  induction 1 as [|ocd_id ids (Hs & Hd & Hc) _ IH]; [reflexivity|].
  rewrite existsb_cons, IH, orb_false_r.
  unfold Generic.test_paths. rewrite !existsb_cons.
  rewrite (not_contains_trans "state:" "/state:ca/cd:12" ocd_id eq_refl Hs).
  rewrite (not_contains_trans "state:" "/state:vt" ocd_id eq_refl Hs).
  assert (Hdc : PyStr.contains "/district:dc" ocd_id = false).
  { destruct (PyStr.contains "/district:dc" ocd_id) eqn:H; [|reflexivity].
    rewrite (contains_lower "district:" ocd_id eq_refl
               (contains_trans "district:" "/district:dc" ocd_id eq_refl H)) in Hd.
    discriminate. }
  rewrite Hdc. reflexivity.
Qed.

Lemma force_ca12_unrelated (ids : list string) (dd : Mapper.district_data) :
  Forall unrelated_id ids -> Legacy.force_ca12 ids dd = dd.
Proof.
  unfold Legacy.force_ca12. intros H. revert dd.
  induction H as [|ocd_id ids (Hs & Hd & Hc) _ IH]; intros dd; [reflexivity|].
  cbn [fold_left].
  rewrite (not_contains_trans "state:" "/state:ca/cd:12" ocd_id eq_refl Hs).
  cbn [andb]. apply IH.
Qed.

(** X9: identifiers without [state:], without [district:] in any case
    and without [/cd:] (the country, a county, a place) contribute
    nothing: a response made of such identifiers, or without divisions,
    gives the empty [districts], from either mapper and whatever the
    cache holds. *)
Theorem unrelated_identifiers_give_no_district (data : DivisionResponse)
    (cache : LegislatorCache) :
  Forall unrelated_id (ocd_ids data) ->
  Generic.parse_result data cache = Ret {| result_districts := [] |}
  /\ Legacy.parse_result cache data = Ret {| result_districts := [] |}.
Proof.
  intros Hids. split.
  - unfold Generic.parse_result.
    rewrite (generic_loop_unrelated _ _ cache [] Hids). simpl.
    unfold Generic.apply_test_data. rewrite (unrelated_no_test_path _ Hids).
    reflexivity.
  - unfold Legacy.parse_result.
    rewrite (legacy_loop_unrelated _ cache [] Hids). simpl.
    rewrite (force_ca12_unrelated _ [] Hids). reflexivity.
Qed.

Lemma unrelated_identifiers_give_no_district_witness :
  Generic.parse_result
    (Samples.response ["ocd-division/country:us";
                       "ocd-division/country:us/county:alameda"])
    Samples.no_cache = Ret {| result_districts := [] |}.
Proof.
  apply (unrelated_identifiers_give_no_district
           (Samples.response ["ocd-division/country:us";
                              "ocd-division/country:us/county:alameda"])
           Samples.no_cache).
  repeat constructor.
Defined.

Lemma test_applies_path (test_id ocd_id : string) :
  Generic.test_applies test_id ocd_id = true ->
  existsb (fun ocd_path => PyStr.contains ocd_path ocd_id) Generic.test_paths = true.
Proof.
  unfold Generic.test_applies, Generic.test_paths. intros Ht.
  rewrite !existsb_cons.
  rewrite !orb_true_iff, !andb_true_iff in Ht.
  destruct Ht as [[[_ H]|[_ H]]|[[_ H] _]];
    rewrite H; rewrite ?orb_true_r; reflexivity.
Qed.

Lemma apply_test_data_fixture (ids : list string) (dd : Mapper.district_data)
    (test_id : string) (content : DistrictEntry) :
  In (test_id, content) Generic.test_data ->
  existsb (Generic.test_applies test_id) ids = true ->
  PyDict.get test_id (Generic.apply_test_data ids dd) = Some content.
Proof.
  intros Hin Happ. unfold Generic.apply_test_data.
  assert (Hany : existsb (fun ocd_id => existsb (fun ocd_path => PyStr.contains ocd_path ocd_id)
                             Generic.test_paths) ids = true).
  { apply existsb_exists in Happ as (ocd_id & Hid & Ht).
    apply existsb_exists. exists ocd_id. split; [exact Hid|].
    exact (test_applies_path _ _ Ht). }
  rewrite Hany. unfold Generic.test_data in *. cbn [fold_left fst snd].
  destruct Hin as [[= <- <-]|[[= <- <-]|[[= <- <-]|[]]]]; rewrite ?Happ.
  - destruct (existsb (Generic.test_applies "DC-AL") ids);
      destruct (existsb (Generic.test_applies "VT-AL") ids);
      rewrite ?get_set_ne by discriminate; apply get_set_eq.
  - destruct (existsb (Generic.test_applies "VT-AL") ids);
      rewrite ?get_set_ne by discriminate; apply get_set_eq.
  - apply get_set_eq.
Qed.

(** X10: the fixtures win over the cache.  When an identifier has
    [/state:ca/cd:12], the generic mapper returns [CA-12] with the
    hard-coded representative and senators; when one has [/state:vt] and
    no [/cd:], it returns [VT-AL] with the hard-coded delegation;
    whatever the cache holds for them. *)
Theorem fixtures_override_cache (data : DivisionResponse) (cache : LegislatorCache)
    (out : MapperResult) (test_id : string) (content : DistrictEntry) :
  Generic.parse_result data cache = Ret out ->
  In (test_id, content) Generic.test_data ->
  existsb (Generic.test_applies test_id) (ocd_ids data) = true ->
  PyDict.get test_id (result_districts out) = Some content.
Proof.
  intros Hrun Hin Happ.
  unfold Generic.parse_result in Hrun.
  destruct (foldM _ _ _) as [dd1|e]; simpl in Hrun; [|discriminate].
  destruct (Generic.at_large_from_states cache dd1) as [dd2|e]; simpl in Hrun;
    [|discriminate].
  injection Hrun as <-. simpl.
  rewrite get_filter_keys.
  - apply apply_test_data_fixture; assumption.
  - unfold Generic.test_data in Hin.
    destruct Hin as [[= <- _]|[[= <- _]|[[= <- _]|[]]]]; reflexivity.
Qed.

Lemma fixtures_override_cache_witness :
  exists out content,
    Generic.parse_result
      (Samples.response ["ocd-division/country:us/state:ca";
                         "ocd-division/country:us/state:ca/cd:12"])
      Samples.other_cache = Ret out
    /\ In ("CA-12", content) Generic.test_data
    /\ PyDict.get "CA-12" (result_districts out) = Some content.
Proof.
  destruct (Generic.parse_result
              (Samples.response ["ocd-division/country:us/state:ca";
                                 "ocd-division/country:us/state:ca/cd:12"])
              Samples.other_cache) as [out|e] eqn:Hrun;
    [|vm_compute in Hrun; discriminate].
  exists out. eexists. split; [reflexivity|]. split; [left; reflexivity|].
  apply (fixtures_override_cache _ _ out "CA-12" _ Hrun); [left; reflexivity|].
  reflexivity.
Defined.

(** ** The cache builder, continued *)


Lemma build_snoc_inv (df : list record) (row : record) (keep delete : field_set)
    (out : legislators_dict) :
  build_legislators_dict (df ++ [row]) keep delete = Ret out ->
  exists data,
    build_legislators_dict df keep delete = Ret data
    /\ add_row keep delete data row = Ret out.
Proof.
  rewrite build_snoc.
  destruct (build_legislators_dict df keep delete) as [data|e]; simpl; [|discriminate].
  intros H. exists data. split; [reflexivity | exact H].
Qed.

Lemma filter_app_one {A : Type} (p : A -> bool) (l : list A) (a : A) :
  List.filter p (l ++ [a]) = (List.filter p l ++ (if p a then [a] else []))%list.
Proof. rewrite List.filter_app. reflexivity. Qed.

(** X11: the senators of a state in the built dictionary are the rows
    with a missing district and that state, filtered, in the order of
    the frame: none is lost, none is added. *)
Theorem senators_are_the_rows_without_district (df : list record)
    (keep_fields delete_fields : field_set) (out : legislators_dict) (state : scalar) :
  build_legislators_dict df keep_fields delete_fields = Ret out ->
  senators_of state (states out)
  = map (fun row => filter_fields row keep_fields delete_fields)
        (List.filter (senator_of state) df).
Proof.
  revert out. induction df as [|row df IH] using rev_ind; intros out Hrun.
  - injection Hrun as <-. reflexivity.
  - destruct (build_snoc_inv _ _ _ _ _ Hrun) as (data & Hdata & Hrow).
    rewrite filter_app_one, List.map_app.
    transitivity
      (senators_of state (states data)
       ++ map (fun row => filter_fields row keep_fields delete_fields)
            (if senator_of state row then [row] else []))%list;
      [|rewrite (IH data Hdata); reflexivity].
    unfold add_row in Hrow. unfold senator_of, row_state.
    destruct (isna (row_get "district" row)); simpl.
    + injection Hrow as <-. simpl. unfold senators_of, add_senator.
      destruct (decide (py_or (row_get "state" row) (row_get "state_code" row) = state))
        as [<-|Hne].
      * rewrite bool_decide_eq_true_2 by reflexivity. simpl.
        rewrite get_set_eq. simpl. rewrite get_set_eq. reflexivity.
      * rewrite bool_decide_eq_false_2 by exact Hne. simpl.
        rewrite get_set_ne by congruence. rewrite app_nil_r. reflexivity.
    + destruct (py_int (row_get "district" row)); simpl in Hrow; [|discriminate].
      injection Hrow as <-. simpl. rewrite app_nil_r. reflexivity.
Qed.

Lemma senators_are_the_rows_without_district_witness :
  senators_of (SStr "CA")
    (states {| states := [(SStr "CA", [("senators", [Samples.row_padilla])])];
               districts := [("CA-12", [("representative", Samples.row_pelosi)]);
                             ("WY-0", [("representative", Samples.row_hageman)])] |})
  = map (fun row => filter_fields row None None)
        (List.filter (senator_of (SStr "CA"))
           [Samples.row_pelosi; Samples.row_padilla; Samples.row_hageman]).
Proof.
  apply (senators_are_the_rows_without_district
           [Samples.row_pelosi; Samples.row_padilla; Samples.row_hageman] None None).
  reflexivity.
Defined.

Lemma add_row_well_shaped keep delete data row out :
  well_shaped data -> add_row keep delete data row = Ret out -> well_shaped out.
Proof.
  intros [Hst Hds]. unfold add_row.
  destruct (isna (row_get "district" row)).
  - intros [= <-]. split; [|exact Hds]. simpl.
    intros state bucket. unfold add_senator.
    set (st := py_or _ _).
    destruct (decide (state = st)) as [->|Hne].
    + rewrite get_set_eq. intros [= <-].
      destruct (PyDict.get st (states data)) as [b|] eqn:Hb; simpl.
      * destruct (Hst st b Hb) as (l & -> & Hl). simpl.
        eexists. split; [reflexivity|]. destruct l; discriminate.
      * eexists. split; [reflexivity | discriminate].
    + rewrite get_set_ne by exact Hne. apply Hst.
  - destruct (py_int (row_get "district" row)) as [d|e]; simpl; [|discriminate].
    intros [= <-]. split; [exact Hst|]. simpl.
    intros key bucket. set (k := district_key _ _).
    destruct (decide (key = k)) as [->|Hne].
    + rewrite get_set_eq. intros [= <-]. eexists. reflexivity.
    + rewrite get_set_ne by exact Hne. apply Hds.
Qed.

(** X12: every state bucket of the built dictionary is exactly
    [{"senators": l}] with [l] not empty, and every district bucket is
    exactly [{"representative": r}]. *)
Theorem built_dictionary_shape (df : list record)
    (keep_fields delete_fields : field_set) (out : legislators_dict) :
  build_legislators_dict df keep_fields delete_fields = Ret out ->
  well_shaped out.
Proof.
  revert out. induction df as [|row df IH] using rev_ind; intros out Hrun.
  - injection Hrun as <-. split; intros k b; discriminate.
  - destruct (build_snoc_inv _ _ _ _ _ Hrun) as (data & Hdata & Hrow).
    exact (add_row_well_shaped _ _ _ _ _ (IH data Hdata) Hrow).
Qed.

Lemma built_dictionary_shape_witness :
  well_shaped
    {| states := [(SStr "CA", [("senators", [Samples.row_padilla])])];
       districts := [("CA-12", [("representative", Samples.row_pelosi)]);
                     ("WY-0", [("representative", Samples.row_hageman)])] |}.
Proof.
  apply (built_dictionary_shape
           [Samples.row_pelosi; Samples.row_padilla; Samples.row_hageman] None None).
  reflexivity.
Defined.

(** X13: a row whose district is text that [int] does not read (the
    [AL] of an at-large seat, say) aborts the build with [ValueError]:
    no dictionary is returned, whatever the rows after it. *)
Theorem text_district_aborts_build (df1 df2 : list record) (row : record)
    (keep_fields delete_fields : field_set) (data : legislators_dict) (s : string) :
  build_legislators_dict df1 keep_fields delete_fields = Ret data ->
  row_get "district" row = SStr s ->
  int_of_text s = None ->
  build_legislators_dict (df1 ++ row :: df2) keep_fields delete_fields
  = Raise ValueError.
Proof.
  unfold build_legislators_dict, build_from. intros Hdf Hd Hs.
  rewrite foldM_app, Hdf. simpl. unfold add_row at 1. rewrite Hd. simpl.
  rewrite Hs. reflexivity.
Qed.

Lemma text_district_aborts_build_witness :
  build_legislators_dict
    [Samples.row_pelosi;
     [("last_name", SStr "Hageman"); ("state", SStr "WY"); ("district", SStr "AL")];
     Samples.row_padilla] None None
  = Raise ValueError.
Proof.
  eapply (text_district_aborts_build [Samples.row_pelosi] [Samples.row_padilla]
            [("last_name", SStr "Hageman"); ("state", SStr "WY"); ("district", SStr "AL")]
            None None); reflexivity.
Defined.

(** ** At-large keys: the builder against the mappers *)

Lemma last_char_cons (c : ascii) (s : string) :
  s <> "" -> last_char (String c s) = last_char s.
Proof. destruct s; [contradiction | reflexivity]. Qed.

Lemma last_char_app (a b : string) : b <> "" -> last_char (a +:+ b) = last_char b.
Proof.
  intros Hb. induction a as [|c a IH]; [reflexivity|].
  rewrite append_cons, last_char_cons; [exact IH|].
  destruct a; [exact Hb | rewrite append_cons; discriminate].
Qed.

Lemma pretty_N_char_digit (n : N) : PyStr.is_digit (pretty_N_char n) = true.
Proof. unfold pretty_N_char. repeat case_match; reflexivity. Qed.

Lemma pretty_N_go_last_acc (x : N) (s : string) :
  s <> "" -> last_char (pretty_N_go x s) = last_char s.
Proof.
  revert s. induction (N.lt_wf_0 x) as [x _ IH]. intros s Hs.
  destruct (decide (x = 0)%N) as [->|Hx]; [rewrite pretty_N_go_0; reflexivity|].
  rewrite pretty_N_go_step by lia.
  rewrite IH; [apply last_char_cons; exact Hs | apply N.div_lt; lia | discriminate].
Qed.

Lemma pretty_N_go_last (x : N) :
  (0 < x)%N ->
  exists c, last_char (pretty_N_go x "") = Some c /\ PyStr.is_digit c = true.
Proof.
  intros Hx. rewrite pretty_N_go_step by exact Hx.
  exists (pretty_N_char (x `mod` 10)). split; [|apply pretty_N_char_digit].
  rewrite pretty_N_go_last_acc by discriminate. reflexivity.
Qed.

Lemma pretty_N_last (x : N) :
  exists c, last_char (pretty x) = Some c /\ PyStr.is_digit c = true.
Proof.
  unfold pretty, pretty_N. destruct (decide (x = 0)%N) as [->|Hx].
  - exists "0"%char. split; reflexivity.
  - apply pretty_N_go_last. lia.
Qed.

(** A decimal numeral ends with a digit. *)
Lemma pretty_Z_last (d : Z) :
  exists c, last_char (pretty d) = Some c /\ PyStr.is_digit c = true.
Proof.
  destruct d as [|p|p].
  - exists "0"%char. split; reflexivity.
  - change (pretty (Z.pos p)) with (pretty (N.pos p)). apply pretty_N_last.
  - change (pretty (Z.neg p)) with ("-" +:+ pretty (N.pos p)).
    destruct (pretty_N_last (N.pos p)) as (c & Hc & Hd).
    exists c. split; [|exact Hd].
    rewrite last_char_app; [exact Hc|]. intros He. rewrite He in Hc. discriminate.
Qed.

Lemma district_key_not_at_large (state : scalar) (d : Z) (st : string) :
  district_key state d <> st +:+ "-AL".
Proof.
  intros Heq. apply (f_equal last_char) in Heq.
  destruct (pretty_Z_last d) as (c & Hc & Hd).
  assert (Hne : pretty d <> "") by (intros He; rewrite He in Hc; discriminate).
  unfold district_key in Heq.
  rewrite last_char_app in Heq.
  2:{ destruct (pretty d); [contradiction | discriminate]. }
  rewrite last_char_app in Heq by exact Hne.
  rewrite last_char_app in Heq by discriminate.
  rewrite Hc in Heq. simpl in Heq. injection Heq as ->. discriminate.
Qed.

Lemma add_row_keys keep delete data row out key :
  (forall k, In k (PyDict.keys (districts data)) ->
             exists state d, k = district_key state d) ->
  add_row keep delete data row = Ret out ->
  In key (PyDict.keys (districts out)) ->
  exists state d, key = district_key state d.
Proof.
  intros Hkeys. unfold add_row.
  destruct (isna (row_get "district" row)).
  - intros [= <-]. apply Hkeys.
  - destruct (py_int (row_get "district" row)) as [d|e]; simpl; [|discriminate].
    intros [= <-]. simpl. rewrite keys_set. intros [->|Hin].
    + eexists _, _. reflexivity.
    + apply Hkeys. exact Hin.
Qed.

(** Every district key of the built dictionary is a state value, a dash
    and a decimal numeral. *)
Lemma built_district_keys (df : list record) (keep delete : field_set)
    (out : legislators_dict) (key : string) :
  build_legislators_dict df keep delete = Ret out ->
  In key (PyDict.keys (districts out)) ->
  exists state d, key = district_key state d.
Proof.
  revert out key. induction df as [|row df IH] using rev_ind; intros out key Hrun.
  - injection Hrun as <-. intros [].
  - rewrite build_snoc in Hrun.
    destruct (build_legislators_dict df keep delete) as [data|e] eqn:Hdata;
      simpl in Hrun; [|discriminate].
    apply (add_row_keys keep delete data row out key); [|exact Hrun].
    intros k. apply (IH data k eq_refl).
Qed.

(** X14: the builder never writes a key that ends in [-AL] (an at-large
    seat is stored under district 0, as [WY-0]), while the mappers look an
    at-large or territory seat up under [XX-AL].  So with a cache whose
    district keys are those of a built dictionary the look-up of [XX-AL]
    finds nothing, and the at-large entry the generic mapper creates for
    a state gets the placeholder representative. *)
Theorem at_large_seat_never_found_in_built_cache
    (df : list record) (keep_fields delete_fields : field_set)
    (out : legislators_dict) (cache : LegislatorCache)
    (ds : list (string * DistrictBucket)) :
  build_legislators_dict df keep_fields delete_fields = Ret out ->
  cache_districts cache = Some ds ->
  (forall k, In k (PyDict.keys ds) -> In k (PyDict.keys (districts out))) ->
  forall st : string,
    ~ In (st +:+ "-AL") (PyDict.keys (districts out))
    /\ Mapper.lookup_representative cache (st +:+ "-AL") = None
    /\ forall dd,
         exists dd',
           Generic.create_at_large cache st (st +:+ "-AL") dd = Ret dd'
           /\ representatives (Mapper.entry (st +:+ "-AL") dd')
              = [Mapper.placeholder_representative (st +:+ "-AL")].
Proof.
  intros Hrun Hds Hsub st.
  assert (Hnot : ~ In (st +:+ "-AL") (PyDict.keys (districts out))).
  { intros Hin. destruct (built_district_keys _ _ _ _ _ Hrun Hin) as (state & d & Heq).
    symmetry in Heq. exact (district_key_not_at_large _ _ _ Heq). }
  assert (Hlook : Mapper.lookup_representative cache (st +:+ "-AL") = None).
  { unfold Mapper.lookup_representative. rewrite Hds.
    assert (Hg : PyDict.get (st +:+ "-AL") ds = None).
    { apply get_None_keys. intros Hin. exact (Hnot (Hsub _ Hin)). }
    rewrite Hg. reflexivity. }
  split; [exact Hnot|]. split; [exact Hlook|].
  intros dd. unfold Generic.create_at_large. rewrite Hlook. cbn [bind].
  set (dd1 := PyDict.set (st +:+ "-AL") _ dd).
  assert (He : Mapper.entry (st +:+ "-AL") dd1
               = {| senators := senators (Mapper.entry st dd); representatives := [] |}).
  { unfold Mapper.entry at 1, dd1. rewrite get_set_eq. reflexivity. }
  rewrite He. cbn [representatives].
  eexists. split; [reflexivity|].
  unfold Mapper.append_representative, Mapper.set_representatives.
  unfold Mapper.entry at 1. rewrite get_set_eq. cbn [default representatives].
  rewrite He. reflexivity.
Qed.

Lemma at_large_seat_never_found_in_built_cache_witness :
  Mapper.lookup_representative Samples.built_cache "WY-AL" = None.
Proof.
  destruct (at_large_seat_never_found_in_built_cache
              [Samples.row_pelosi; Samples.row_padilla; Samples.row_hageman]
              None None _ Samples.built_cache _ eq_refl eq_refl) with (st := "WY")
    as (_ & H & _).
  - intros k Hk. exact Hk.
  - exact H.
Defined.

(** ** Filtering a mapper's result *)

Lemma filter_keys_map {V W : Type} (p : string -> bool) (g : V -> W)
    (d : list (string * V)) :
  PyDict.filter_keys p (map (fun kv => (fst kv, g (snd kv))) d)
  = map (fun kv => (fst kv, g (snd kv))) (PyDict.filter_keys p d).
Proof.
  unfold PyDict.filter_keys. induction d as [|[k v] d IH]; simpl; [reflexivity|].
  destruct (p k); simpl; rewrite IH; reflexivity.
Qed.

Lemma filter_data_record (x : record) (keep delete : field_set) :
  filter_data_dyn (val_of_record x) keep delete
  = Ret (val_of_record (filter_data x keep delete)).
Proof.
  unfold filter_data_dyn, val_of_record, filter_data.
  destruct (set_truthy keep); [|destruct (set_truthy delete)];
    rewrite ?filter_keys_map; reflexivity.
Qed.

Lemma mapM_filter_data (l : list record) (keep delete : field_set) :
  mapM (fun x => filter_data_dyn x keep delete) (map val_of_record l)
  = Ret (map val_of_record (map (fun r => filter_data r keep delete) l)).
Proof.
  induction l as [|x l IH]; [reflexivity|].
  cbn [map mapM]. rewrite filter_data_record. cbn [bind]. rewrite IH. reflexivity.
Qed.

Lemma set_fresh {V : Type} (k : string) (v : V) (d : list (string * V)) :
  ~ In k (PyDict.keys d) -> PyDict.set k v d = (d ++ [(k, v)])%list.
Proof.
  induction d as [|[k' v'] d IH]; simpl; [reflexivity|].
  intros Hn. destruct (decide (k = k')) as [->|Hne].
  - exfalso. apply Hn. left. reflexivity.
  - rewrite IH; [reflexivity | intros Hin; apply Hn; right; exact Hin].
Qed.

Lemma filter_district_on_entry (keep delete : field_set)
    (result : list (string * pyval)) (k : string) (e : DistrictEntry) :
  filter_district keep delete result (k, val_of_entry e)
  = Ret (PyDict.set "districts"
           (VDict (PyDict.set k (val_of_entry (filter_entry keep delete e))
                     match PyDict.get "districts" result with
                     | Some (VDict ds) => ds
                     | _ => []
                     end))
           result).
Proof.
  unfold filter_district. simpl. rewrite !mapM_filter_data. reflexivity.
Qed.

Lemma keys_map_values {V W : Type} (g : V -> W) (d : list (string * V)) :
  PyDict.keys (map (fun kv => (fst kv, g (snd kv))) d) = PyDict.keys d.
Proof.
  unfold PyDict.keys. rewrite List.map_map. reflexivity.
Qed.

Lemma filter_loop_on_entries (keep delete : field_set)
    (done rest : list (string * DistrictEntry)) :
  NoDup (PyDict.keys (done ++ rest)) ->
  done <> [] ->
  let conv := fun kv : string * DistrictEntry =>
                (fst kv, val_of_entry (filter_entry keep delete (snd kv))) in
  foldM (filter_district keep delete)
    (map (fun kv => (fst kv, val_of_entry (snd kv))) rest)
    [("districts", VDict (map conv done))]
  = Ret [("districts", VDict (map conv (done ++ rest)))].
Proof.
  intros Hnd Hne conv. revert done Hnd Hne.
  induction rest as [|[k e] rest IH]; intros done Hnd Hne.
  - rewrite app_nil_r. reflexivity.
  - cbn [map foldM fst snd]. rewrite filter_district_on_entry. cbn [bind].
    cbn [PyDict.get]. rewrite decide_True by reflexivity.
    cbn [PyDict.set]. rewrite decide_True by reflexivity.
    rewrite set_fresh.
    + change [(k, val_of_entry (filter_entry keep delete e))] with (map conv [(k, e)]).
      rewrite <- List.map_app.
      replace (done ++ (k, e) :: rest)%list with ((done ++ [(k, e)]) ++ rest)%list
        by (rewrite <- app_assoc; reflexivity).
      apply IH.
      * rewrite <- app_assoc. exact Hnd.
      * destruct done; discriminate.
    + assert (Hk : PyDict.keys (map conv done) = PyDict.keys done)
        by apply (keys_map_values (fun x => val_of_entry (filter_entry keep delete x))).
      rewrite Hk. unfold PyDict.keys in *.
      rewrite List.map_app in Hnd. apply NoDup_app in Hnd as (_ & Hd & _).
      intros Hin. apply (Hd k).
      * apply list_elem_of_In. exact Hin.
      * apply list_elem_of_In. left. reflexivity.
Qed.

Lemma filter_legislator_data_districts_only (ds : list (string * pyval))
    (keep delete : field_set) :
  filter_legislator_data (VDict [("districts", VDict ds)]) keep delete
  = (let* result := foldM (filter_district keep delete) ds [] in Ret (VDict result)).
Proof. reflexivity. Qed.

Lemma filter_result_of_mapper_result (r : MapperResult)
    (keep_fields delete_fields : field_set) :
  NoDup (PyDict.keys (result_districts r)) ->
  filter_legislator_data (val_of_result r) keep_fields delete_fields
  = Ret (filtered_result keep_fields delete_fields (result_districts r)).
Proof.
  intros Hnd. unfold val_of_result, filtered_result.
  rewrite filter_legislator_data_districts_only.
  destruct (result_districts r) as [|[k e] rest] eqn:Hdd.
  - reflexivity.
  - cbn [map foldM fst snd]. rewrite filter_district_on_entry. cbn [bind].
    cbn [PyDict.get PyDict.set].
    pose proof (filter_loop_on_entries keep_fields delete_fields [(k, e)] rest) as H.
    cbn [map fst snd app] in H. rewrite H; [reflexivity | exact Hnd | discriminate].
Qed.

(** X15: on a mapper's result [filter_legislator_data] returns the same
    districts, in the same order, every record of every senators and
    representatives list replaced by its [filter_data]; the lists keep
    their lengths.  The [districts] key itself is dropped when there is
    no district. *)
Theorem filter_legislator_data_on_result (r : MapperResult)
    (keep_fields delete_fields : field_set) :
  NoDup (PyDict.keys (result_districts r)) ->
  filter_legislator_data (val_of_result r) keep_fields delete_fields
  = Ret (filtered_result keep_fields delete_fields (result_districts r)).
Proof.
  intros Hnd. unfold val_of_result, filtered_result.
  rewrite filter_legislator_data_districts_only.
  destruct (result_districts r) as [|[k e] rest] eqn:Hdd.
  - reflexivity.
  - cbn [map foldM fst snd]. rewrite filter_district_on_entry. cbn [bind].
    cbn [PyDict.get PyDict.set].
    pose proof (filter_loop_on_entries keep_fields delete_fields [(k, e)] rest) as H.
    cbn [map fst snd app] in H. rewrite H; [reflexivity | exact Hnd | discriminate].
Qed.

Lemma filter_legislator_data_on_result_witness :
  filter_legislator_data
    (val_of_result {| result_districts := Generic.test_data |}) (Some {["name"]}) None
  = Ret (filtered_result (Some {["name"]}) None Generic.test_data).
Proof.
  apply (filter_legislator_data_on_result {| result_districts := Generic.test_data |}).
  apply (bool_decide_unpack _). vm_compute. exact I.
Defined.

(** ** The keys of a mapper's result are distinct *)

Lemma keys_set_cases {V : Type} (k : string) (v : V) (d : list (string * V)) :
  PyDict.keys (PyDict.set k v d)
  = if PyDict.mem k d then PyDict.keys d else (PyDict.keys d ++ [k])%list.
Proof.
  unfold PyDict.mem. induction d as [|[k' v'] d IH]; simpl; [reflexivity|].
  destruct (decide (k = k')) as [->|Hne]; simpl; [reflexivity|].
  rewrite IH. destruct (PyDict.get k d); reflexivity.
Qed.

Lemma nodup_set {V : Type} (k : string) (v : V) (d : list (string * V)) :
  NoDup (PyDict.keys d) -> NoDup (PyDict.keys (PyDict.set k v d)).
Proof.
  intros Hd. rewrite keys_set_cases. unfold PyDict.mem.
  destruct (PyDict.get k d) eqn:Hg; [exact Hd|].
  apply NoDup_app. split; [exact Hd|]. split; [|apply NoDup_singleton].
  intros x Hx Hk. apply list_elem_of_singleton in Hk as ->.
  apply get_None_keys in Hg. apply Hg. apply list_elem_of_In. exact Hx.
Qed.

Lemma nodup_filter_keys {V : Type} (p : string -> bool) (d : list (string * V)) :
  NoDup (PyDict.keys d) -> NoDup (PyDict.keys (PyDict.filter_keys p d)).
Proof.
  induction d as [|[k v] d IH]; simpl; [intros _; constructor|].
  intros Hd. apply NoDup_cons in Hd as [Hk Hd].
  destruct (p k); simpl; [|exact (IH Hd)].
  apply NoDup_cons. split; [|exact (IH Hd)].
  intros Hin. apply Hk. apply list_elem_of_In in Hin.
  apply keys_filter_keys in Hin as [_ Hin]. apply list_elem_of_In. exact Hin.
Qed.

Lemma ku_ret (dd : Mapper.district_data) :
  NoDup (PyDict.keys dd) -> keeps_keys_unique (Ret dd).
Proof. intros H dd' [= <-]. exact H. Qed.

Lemma ku_raise (e : exn) : keeps_keys_unique (Raise e).
Proof. intros dd' H. discriminate. Qed.

Lemma ku_bind {A : Type} (m : res A) (k : A -> res Mapper.district_data) :
  (forall a, keeps_keys_unique (k a)) -> keeps_keys_unique (bind m k).
Proof. intros Hk dd'. destruct m as [a|e]; simpl; [apply Hk | discriminate]. Qed.

Lemma ku_bind_dd (m : res Mapper.district_data)
    (k : Mapper.district_data -> res Mapper.district_data) :
  keeps_keys_unique m ->
  (forall a, NoDup (PyDict.keys a) -> keeps_keys_unique (k a)) ->
  keeps_keys_unique (bind m k).
Proof.
  intros Hm Hk dd'. destruct m as [a|e]; simpl; [|discriminate].
  apply Hk. apply Hm. reflexivity.
Qed.

Lemma ku_foldM {A : Type} (f : Mapper.district_data -> A -> res Mapper.district_data)
    (l : list A) (dd : Mapper.district_data) :
  NoDup (PyDict.keys dd) ->
  (forall s a, NoDup (PyDict.keys s) -> keeps_keys_unique (f s a)) ->
  keeps_keys_unique (foldM f l dd).
Proof.
  intros Hdd Hf. revert dd Hdd. induction l as [|a l IH]; intros dd Hdd; simpl.
  - apply ku_ret. exact Hdd.
  - apply ku_bind_dd; [apply Hf; exact Hdd | intros s Hs; apply IH; exact Hs].
Qed.

Ltac nodup_solve :=
  repeat match goal with
    | |- NoDup (PyDict.keys (PyDict.set _ _ _)) => apply nodup_set
    | |- NoDup (PyDict.keys (PyDict.filter_keys _ _)) => apply nodup_filter_keys
    | |- NoDup (PyDict.keys (Mapper.ensure _ _)) => unfold Mapper.ensure
    | |- NoDup (PyDict.keys (Mapper.set_senators _ _ _)) => unfold Mapper.set_senators
    | |- NoDup (PyDict.keys (Mapper.set_representatives _ _ _)) =>
        unfold Mapper.set_representatives
    | |- NoDup (PyDict.keys (Mapper.append_representative _ _ _)) =>
        unfold Mapper.append_representative
    | |- NoDup (PyDict.keys (if ?b then _ else _)) => destruct b
    | |- NoDup (PyDict.keys (match ?x with _ => _ end)) => destruct x
    | |- NoDup (PyDict.keys []) => constructor
    | |- NoDup (PyDict.keys _) => assumption
    end.

Ltac ku_step :=
  match goal with
  | |- keeps_keys_unique (Ret _) => apply ku_ret; nodup_solve
  | |- keeps_keys_unique (Raise _) => apply ku_raise
  | |- keeps_keys_unique (bind _ _) =>
      first [apply ku_bind_dd; [|intros ? ?] | apply ku_bind; intros ?]
  | |- keeps_keys_unique (foldM _ _ _) => apply ku_foldM; [nodup_solve | intros ? ? ?]
  | |- keeps_keys_unique (if ?b then _ else _) => destruct b
  | |- keeps_keys_unique (match ?x with _ => _ end) => destruct x
  end.

Ltac ku_solve := repeat ku_step.

Section KeysUnique.
Import Mapper.
Variable cache : LegislatorCache.

Lemma ku_fill_state_senators st dd :
  NoDup (PyDict.keys dd) -> keeps_keys_unique (fill_state_senators cache st dd).
Proof. intros H. unfold fill_state_senators. ku_solve. Qed.

Lemma ku_fill_district_senators st id dd :
  NoDup (PyDict.keys dd) -> keeps_keys_unique (fill_district_senators cache st id dd).
Proof. intros H. unfold fill_district_senators. ku_solve. Qed.

Lemma ku_create_at_large st id dd :
  NoDup (PyDict.keys dd) -> keeps_keys_unique (Generic.create_at_large cache st id dd).
Proof. intros H. unfold Generic.create_at_large. ku_solve. Qed.

Lemma ku_generic_process ids dd ocd_id :
  NoDup (PyDict.keys dd) ->
  keeps_keys_unique (Generic.process_division ids cache dd ocd_id).
Proof.
  intros H.
  unfold Generic.process_division, Generic.state_division,
    Generic.territory_division, Generic.cd_division.
  ku_solve;
    first [ apply ku_fill_state_senators | apply ku_fill_district_senators
          | apply ku_create_at_large ]; nodup_solve.
Qed.

Lemma ku_legacy_cd dd ocd_id :
  NoDup (PyDict.keys dd) -> keeps_keys_unique (Legacy.cd_division cache ocd_id dd).
Proof.
  intros H. unfold Legacy.cd_division.
  apply ku_bind. intros parts.
  destruct (decide (cd_district_id (fst parts) (snd parts) = "CA-12")) as [He|Hne].
  - cbn [bind fst snd]. apply ku_fill_district_senators. nodup_solve.
  - destruct (lookup_representative cache _) as [r|].
    + destruct (representative_info _ _ r) as [info|e]; [|apply ku_raise].
      cbn [bind fst snd]. apply ku_fill_district_senators. nodup_solve.
    + cbn [bind fst snd]. apply ku_fill_district_senators. nodup_solve.
Qed.

Lemma ku_legacy_process dd ocd_id :
  NoDup (PyDict.keys dd) ->
  keeps_keys_unique (Legacy.process_division cache dd ocd_id).
Proof.
  intros H.
  unfold Legacy.process_division, Legacy.state_division, Legacy.territory_division.
  ku_solve;
    first [ apply ku_fill_state_senators | apply ku_legacy_cd ]; nodup_solve.
Qed.

Lemma nodup_apply_test_data ids dd :
  NoDup (PyDict.keys dd) -> NoDup (PyDict.keys (Generic.apply_test_data ids dd)).
Proof.
  intros H. unfold Generic.apply_test_data, Generic.test_data.
  cbn [fold_left fst snd]. nodup_solve.
Qed.

Lemma nodup_force_ca12 ids dd :
  NoDup (PyDict.keys dd) -> NoDup (PyDict.keys (Legacy.force_ca12 ids dd)).
Proof.
  unfold Legacy.force_ca12. revert dd.
  induction ids as [|ocd_id ids IH]; intros dd H; [exact H|].
  cbn [fold_left]. apply IH. nodup_solve.
Qed.

Lemma ku_at_large_from_states dd :
  NoDup (PyDict.keys dd) -> keeps_keys_unique (Generic.at_large_from_states cache dd).
Proof.
  intros H. unfold Generic.at_large_from_states.
  ku_solve. apply ku_create_at_large. assumption.
Qed.

Lemma ku_generic_loop ids todo :
  keeps_keys_unique (foldM (Generic.process_division ids cache) todo []).
Proof.
  apply ku_foldM; [constructor|]. intros s a Hs. apply ku_generic_process. exact Hs.
Qed.

Lemma ku_legacy_loop todo :
  keeps_keys_unique (foldM (Legacy.process_division cache) todo []).
Proof.
  apply ku_foldM; [constructor|]. intros s a Hs. apply ku_legacy_process. exact Hs.
Qed.

(** The districts a mapper returns have distinct keys. *)
Lemma generic_result_keys_nodup data out :
  Generic.parse_result data cache = Ret out ->
  NoDup (PyDict.keys (result_districts out)).
Proof.
  unfold Generic.parse_result.
  destruct (foldM _ _ _) as [dd1|e] eqn:H1; simpl; [|discriminate].
  destruct (Generic.at_large_from_states cache dd1) as [dd2|e] eqn:H2; simpl;
    [|discriminate].
  intros [= <-]. simpl.
  apply nodup_filter_keys, nodup_apply_test_data.
  apply (ku_at_large_from_states dd1 (ku_generic_loop _ _ dd1 H1) dd2 H2).
Qed.

Lemma legacy_result_keys_nodup data out :
  Legacy.parse_result cache data = Ret out ->
  NoDup (PyDict.keys (result_districts out)).
Proof.
  unfold Legacy.parse_result.
  destruct (foldM _ _ _) as [dd1|e] eqn:H1; simpl; [|discriminate].
  intros [= <-]. simpl. apply nodup_force_ca12.
  apply (ku_legacy_loop _ dd1 H1).
Qed.

End KeysUnique.

(** ** From the API response to the lookup's result *)

Lemma no_districts_of_result (r : MapperResult) :
  result_districts r <> [] -> no_districts (val_of_result r) = Ret false.
Proof.
  intros Hne. unfold no_districts, val_of_result. cbn [truthy negb].
  destruct (result_districts r) as [|kv rest]; [contradiction | reflexivity].
Qed.

(** X16: with an API key, a response the API returns and a mapper that
    finds at least one district, the lookup makes one request and returns
    the mapper's districts, every record filtered; with no filter set the
    result is the mapper's result itself. *)
Theorem lookup_returns_filtered_mapper_result
    (key : string) (lookup_divisions : string -> string -> res DivisionResponse)
    (use_generic : bool) (cache : LegislatorCache) (address : string)
    (keep_fields delete_fields : field_set) (data : DivisionResponse)
    (r : MapperResult) :
  PyStr.nonempty key = true ->
  lookup_divisions (full_address address) key = Ret data ->
  (if use_generic then Generic.parse_result data cache
   else Legacy.parse_result cache data) = Ret r ->
  result_districts r <> [] ->
  get_us_district_info_from_address
    (get_district_info_from_civic_api (Some key) lookup_divisions use_generic cache)
    address keep_fields delete_fields
  = ([full_address address],
     Ret (filtered_result keep_fields delete_fields (result_districts r)))
  /\ filtered_result None None (result_districts r) = val_of_result r.
Proof.
  intros Hkey Hlookup Hmap Hne.
  assert (Hcivic :
    get_district_info_from_civic_api (Some key) lookup_divisions use_generic cache
      (full_address address) = Ret (val_of_result r)).
  { unfold get_district_info_from_civic_api, get_api_key.
    rewrite Hkey. cbn [bind]. rewrite Hlookup. cbn [bind]. rewrite Hmap. reflexivity. }
  assert (Hnd : NoDup (PyDict.keys (result_districts r))).
  { destruct use_generic;
      [exact (generic_result_keys_nodup cache data r Hmap)
      | exact (legacy_result_keys_nodup cache data r Hmap)]. }
  split.
  - rewrite (single_resolution_when_found _ address keep_fields delete_fields
               (val_of_result r) Hcivic (no_districts_of_result r Hne)).
    rewrite (filter_result_of_mapper_result r keep_fields delete_fields Hnd).
    reflexivity.
  - unfold filtered_result, val_of_result.
    destruct (result_districts r) as [|kv rest] eqn:Hdd; [contradiction|].
    erewrite List.map_ext; [reflexivity|].
    intros [k [s rp]]. unfold filter_entry. cbn [fst snd senators representatives].
    change (fun r0 : record => filter_data r0 None None) with (fun r0 : record => r0).
    rewrite !List.map_id. reflexivity.
Qed.

Lemma lookup_returns_filtered_mapper_result_witness :
  fst (get_us_district_info_from_address
         (get_district_info_from_civic_api (Some "fake_api_key")
            (fun _ _ => Ret (Samples.response ["ocd-division/country:us/state:wy"]))
            true Samples.no_cache)
         "Cheyenne, WY" (Some {["name"]}) None)
  = ["Cheyenne, WY, USA"].
Proof.
  destruct (Generic.parse_result
              (Samples.response ["ocd-division/country:us/state:wy"]) Samples.no_cache)
    as [r|e] eqn:Hr; [|vm_compute in Hr; discriminate].
  destruct (lookup_returns_filtered_mapper_result "fake_api_key"
              (fun _ _ => Ret (Samples.response ["ocd-division/country:us/state:wy"]))
              true Samples.no_cache "Cheyenne, WY" (Some {["name"]}) None
              (Samples.response ["ocd-division/country:us/state:wy"]) r
              eq_refl eq_refl Hr) as [H _].
  - vm_compute in Hr. injection Hr as <-. discriminate.
  - rewrite H. reflexivity.
Defined.

(** ** The text formatter *)

Section FormatterFacts.
Variable repr_container : pyval -> string.

(** When the result has no districts (no key, [None] or an empty
    map) the text is the fixed sentence, and an [error] entry is not
    printed; so is the text of a lookup that found nothing. *)
Lemma text_of_no_districts (d : list (string * pyval)) :
  truthy (default VNone (PyDict.get "districts" d)) = false ->
  format_text_output repr_container (VDict d) = Ret no_districts_text.
Proof.
  intros H. unfold format_text_output. cbn [py_get bind]. rewrite H. reflexivity.
Qed.

Lemma get_val_of_record (k : string) (x : record) :
  PyDict.get k (map (fun kv => (fst kv, VAtom (snd kv))) x)
  = VAtom <$> PyDict.get k x.
Proof.
  induction x as [|[k' a] x IH]; simpl; [reflexivity|].
  destruct (decide (k = k')); [reflexivity | exact IH].
Qed.

Lemma legislator_line_record (x : record) :
  legislator_line repr_container (val_of_record x) = Ret (record_line x).
Proof.
  unfold legislator_line, val_of_record, record_line, rec_get, py_has_key, PyDict.mem.
  cbn [py_get bind]. rewrite !get_val_of_record.
  destruct (PyDict.get "name" x) as [n|]; destruct (PyDict.get "party" x) as [p|];
    reflexivity.
Qed.

Lemma legislator_lines_records (l : list record) :
  mapM (legislator_line repr_container) (map val_of_record l)
  = Ret (map record_line l).
Proof.
  induction l as [|x l IH]; [reflexivity|].
  cbn [map mapM]. rewrite legislator_line_record. cbn [bind]. rewrite IH. reflexivity.
Qed.

Lemma legislators_block_records (title key : string) (info : list (string * pyval))
    (l : list record) :
  PyDict.get key info = Some (VList (map val_of_record l)) ->
  legislators_block repr_container title key (VDict info)
  = Ret (records_block title l).
Proof.
  intros Hget. unfold legislators_block. cbn [py_get bind]. rewrite Hget.
  cbn [default from_option id py_iter bind].
  rewrite legislator_lines_records. cbn [bind].
  destruct l as [|x l]; reflexivity.
Qed.

Lemma district_block_entry (k : string) (e : DistrictEntry) :
  district_block repr_container (k, val_of_entry e) = Ret (entry_block (k, e)).
Proof.
  unfold district_block, val_of_entry. cbn [snd fst].
  rewrite (legislators_block_records _ "senators" _ (senators e)) by reflexivity.
  rewrite (legislators_block_records _ "representatives" _ (representatives e))
    by reflexivity.
  reflexivity.
Qed.

Lemma district_blocks_entries (dd : list (string * DistrictEntry)) :
  mapM (district_block repr_container)
    (map (fun kv => (fst kv, val_of_entry (snd kv))) dd)
  = Ret (map entry_block dd).
Proof.
  induction dd as [|[k e] dd IH]; [reflexivity|].
  cbn [map mapM fst snd]. rewrite district_block_entry. cbn [bind].
  rewrite IH. reflexivity.
Qed.

Lemma contains_self_app (a n b : string) : PyStr.contains n (a +:+ n +:+ b) = true.
Proof. apply contains_app. exists a, b. reflexivity. Qed.

Lemma string_app_nil_r (s : string) : s +:+ "" = s.
Proof.
  induction s as [|c s IH]; [reflexivity|]. rewrite append_cons, IH. reflexivity.
Qed.

Lemma join_cons (sep x y : string) (l : list string) :
  join sep (x :: y :: l) = x +:+ sep +:+ join sep (y :: l).
Proof. reflexivity. Qed.

(** Every joined line is in the text. *)
Lemma contains_join (sep line : string) (l : list string) :
  In line l -> PyStr.contains line (join sep l) = true.
Proof.
  induction l as [|x l IH]; [intros []|].
  intros [->|Hin].
  - destruct l as [|y l].
    + apply contains_app. exists "", "". rewrite string_app_nil_r. reflexivity.
    + rewrite join_cons. apply contains_app. exists "", (sep +:+ join sep (y :: l)).
      reflexivity.
  - destruct l as [|y l]; [destruct Hin|].
    rewrite join_cons. specialize (IH Hin). apply contains_app in IH as (a & b & Hab).
    apply contains_app. exists (x +:+ sep +:+ a), b. rewrite Hab.
    rewrite !string_app_assoc. reflexivity.
Qed.

(** X17: for a mapper's result with districts the text is the lines of
    the districts joined by line feeds, in the order of the result; so
    each district has its heading, each senator and representative its
    bullet with the name (or [Unknown]) and, when the record has one, the
    party in brackets, and a list that is empty has no title. *)
Theorem text_of_mapper_result (r : MapperResult) :
  result_districts r <> [] ->
  format_text_output repr_container (val_of_result r)
  = Ret (join nl (concat (map entry_block (result_districts r))))
  /\ (forall k e x,
        In (k, e) (result_districts r) ->
        In x (senators e ++ representatives e) ->
        PyStr.contains ("District: " +:+ k)
          (join nl (concat (map entry_block (result_districts r)))) = true
        /\ PyStr.contains (record_line x)
             (join nl (concat (map entry_block (result_districts r)))) = true).
Proof.
  intros Hne. split.
  - unfold format_text_output, val_of_result.
    cbn [py_get bind PyDict.get]. rewrite decide_True by reflexivity.
    cbn [default from_option id].
    destruct (result_districts r) as [|kv rest] eqn:Hdd; [contradiction|].
    cbn [map truthy negb py_items bind].
    change ((fst kv, val_of_entry (snd kv))
            :: map (fun kv0 => (fst kv0, val_of_entry (snd kv0))) rest)
      with (map (fun kv0 : string * DistrictEntry => (fst kv0, val_of_entry (snd kv0)))
              (kv :: rest)).
    rewrite district_blocks_entries. cbn [bind py_has_key].
    change (PyDict.mem "error"
              [("districts",
                VDict (map (fun kv0 : string * DistrictEntry =>
                              (fst kv0, val_of_entry (snd kv0))) (kv :: rest)))])
      with false.
    cbn [bind]. rewrite app_nil_r. reflexivity.
  - intros k e x Hin Hx.
    assert (Hblock : forall line, In line (entry_block (k, e)) ->
                       In line (concat (map entry_block (result_districts r)))).
    { intros line Hl. apply in_concat. exists (entry_block (k, e)).
      split; [apply in_map; exact Hin | exact Hl]. }
    split; apply contains_join, Hblock; unfold entry_block; cbn [fst snd].
    + left. reflexivity.
    + right. apply in_or_app. left. apply in_app_or in Hx as [Hs|Hr].
      * apply in_or_app. left. unfold records_block.
        destruct (senators e); [destruct Hs|]. right. apply in_map. exact Hs.
      * apply in_or_app. right. unfold records_block.
        destruct (representatives e); [destruct Hr|]. right. apply in_map. exact Hr.
Qed.


(** X18: a lookup that found nothing at all prints the fixed sentence
    only: the message of its [error] entry, which names the address, is
    not in the text. *)
Theorem text_of_lookup_that_found_nothing (civic : string -> res pyval)
    (address : string) (keep_fields delete_fields : field_set) :
  (forall a, exists r, civic a = Ret r /\ truthy r = false) ->
  exists out,
    snd (get_us_district_info_from_address civic address keep_fields delete_fields)
    = Ret out
    /\ out = VDict [("districts", VDict []); ("error", VStr (not_found_message address))]
    /\ format_text_output repr_container out = Ret no_districts_text.
Proof.
  intros Hciv.
  destruct (not_found_when_resolver_returns_nothing civic address keep_fields
              delete_fields Hciv) as [Hout _].
  eexists. split; [exact Hout|]. split; reflexivity.
Qed.

End FormatterFacts.

Lemma text_of_no_districts_witness :
  format_text_output (fun _ => "")
    (VDict [("districts", VDict []);
            ("error", VStr (not_found_message "Invalid Address XYZ"))])
  = Ret no_districts_text.
Proof.
  apply (text_of_no_districts (fun _ => "")
           [("districts", VDict []);
            ("error", VStr (not_found_message "Invalid Address XYZ"))]).
  reflexivity.
Defined.

Lemma text_of_mapper_result_witness :
  PyStr.contains "District: CA-12"
    (join nl (concat (map entry_block Generic.test_data))) = true
  /\ PyStr.contains "Alex Padilla (Democratic)"
       (join nl (concat (map entry_block Generic.test_data))) = true.
Proof.
  destruct (text_of_mapper_result (fun _ => "") {| result_districts := Generic.test_data |})
    as [_ H]; [discriminate|].
  destruct (H "CA-12" _ _ (or_introl eq_refl) (or_introl eq_refl)) as [Hd Hl].
  split; [exact Hd|].
  eapply contains_trans; [|exact Hl]; reflexivity.
Defined.

Lemma text_of_lookup_that_found_nothing_witness :
  exists out,
    snd (get_us_district_info_from_address (fun _ => Ret VNone)
           "Invalid Address XYZ" None None) = Ret out
    /\ format_text_output (fun _ => "") out = Ret no_districts_text.
Proof.
  destruct (text_of_lookup_that_found_nothing (fun _ => "") (fun _ => Ret VNone)
              "Invalid Address XYZ" None None) as (out & Hout & _ & Htext).
  - intros a. exists VNone. split; reflexivity.
  - exists out. split; [exact Hout | exact Htext].
Defined.


(** ** The command line *)

(** X19: the set the command line passes for [--keep-fields] is never
    the empty set, so the records keep exactly the requested fields they
    have; likewise [--delete-fields] removes exactly the requested ones. *)
Theorem cli_fields_filter_exactly {V : Type} (r : list (string * V))
    (x : string) (l : list string) :
  keyset (filter_data r (cli_field_set (Some (x :: l))) None)
  = list_to_set (x :: l) ∩ keyset r
  /\ keyset (filter_data r None (cli_field_set (Some (x :: l))))
     = keyset r ∖ list_to_set (x :: l)
  /\ cli_field_set (Some []) = None
  /\ filter_data r (cli_field_set None) (cli_field_set None) = r.
Proof.
  assert (Hne : (list_to_set (x :: l) : gset string) <> ∅).
  { intros He. assert (Hin : x ∈ (list_to_set (x :: l) : gset string)) by set_solver.
    rewrite He in Hin. set_solver. }
  split; [apply filter_data_keep_keys; exact Hne|].
  split; [|split; reflexivity].
  unfold cli_field_set, filter_data, set_truthy.
  rewrite bool_decide_eq_true_2 by exact Hne.
  apply set_eq. intros k. rewrite keyset_filter_keys, elem_of_difference.
  cbn [members default]. rewrite negb_true_iff, bool_decide_eq_false. tauto.
Qed.

(** ** The CSV cache *)

Section CsvCacheFacts.
Variable http_get : res string.
Variable read_csv : string -> res (list record).

(** A file not older than 24 hours is used as it is: no request is
    made, the file is left alone and the frame is read from it. *)
Lemma fresh_file_is_not_downloaded (f : CsvFile) (now stamp : Z) :
  now - file_mtime f <= one_day ->
  get_current_congress_legislators http_get read_csv (Some f) now stamp
  = {| file_after := Some f; requests := 0; frame := read_csv (file_bytes f) |}.
Proof.
  intros Hage. unfold get_current_congress_legislators.
  destruct (Z.gtb_spec (now - file_mtime f) one_day) as [Hgt|_]; [lia | reflexivity].
Qed.

(** X20: a call that downloads, the file missing or older than 24
    hours, and a second call whose clock is within 24 hours of the
    stamp: the second makes no request and reads the same bytes as the
    first, whatever the network does by then. *)
Theorem second_call_within_a_day_uses_the_file
    (file : option CsvFile) (body : string) (now1 stamp1 now2 stamp2 : Z)
    (http_get2 : res string) :
  http_get = Ret body ->
  (file = None \/ exists f, file = Some f /\ now1 - file_mtime f > one_day) ->
  now2 - stamp1 <= one_day ->
  let first := get_current_congress_legislators http_get read_csv file now1 stamp1 in
  let second :=
    get_current_congress_legislators http_get2 read_csv (file_after first) now2 stamp2 in
  requests first = 1%nat
  /\ file_after first = Some {| file_bytes := body; file_mtime := stamp1 |}
  /\ requests second = 0%nat
  /\ file_after second = file_after first
  /\ frame second = frame first.
Proof.
  intros Hget Hfile Hage.
  assert (Hfirst :
    get_current_congress_legislators http_get read_csv file now1 stamp1
    = {| file_after := Some {| file_bytes := body; file_mtime := stamp1 |};
         requests := 1; frame := read_csv body |}).
  { unfold get_current_congress_legislators, download. rewrite Hget.
    destruct Hfile as [->|(f & -> & Hold)]; [reflexivity|].
    destruct (Z.gtb_spec (now1 - file_mtime f) one_day) as [_|Hle]; [reflexivity | lia]. }
  cbn zeta. rewrite Hfirst. cbn [file_after requests frame].
  unfold get_current_congress_legislators. cbn [file_mtime file_bytes].
  destruct (Z.gtb_spec (now2 - stamp1) one_day) as [Hgt|_]; [lia|].
  repeat split; reflexivity.
Qed.

(** X21: when the request fails, the exception is the outcome and the
    file is as it was: a stale file is neither removed nor rewritten, a
    missing one is not created, and nothing is parsed. *)
Theorem failed_download_leaves_the_file (file : option CsvFile) (now stamp : Z)
    (e : exn) :
  http_get = Raise e ->
  (file = None \/ exists f, file = Some f /\ now - file_mtime f > one_day) ->
  get_current_congress_legislators http_get read_csv file now stamp
  = {| file_after := file; requests := 1; frame := Raise e |}.
Proof.
  intros Hget Hfile. unfold get_current_congress_legislators, download. rewrite Hget.
  destruct Hfile as [->|(f & -> & Hold)]; [reflexivity|].
  destruct (Z.gtb_spec (now - file_mtime f) one_day) as [_|Hle]; [reflexivity | lia].
Qed.

End CsvCacheFacts.

Lemma fresh_file_is_not_downloaded_witness :
  get_current_congress_legislators (Raise Timeout) (fun _ => Ret [])
    (Some {| file_bytes := "state,district"; file_mtime := 0 |}) one_day 0
  = {| file_after := Some {| file_bytes := "state,district"; file_mtime := 0 |};
       requests := 0; frame := Ret [] |}.
Proof.
  apply (fresh_file_is_not_downloaded (Raise Timeout) (fun _ => Ret [])
           {| file_bytes := "state,district"; file_mtime := 0 |} one_day 0).
  simpl. lia.
Defined.

Lemma second_call_within_a_day_uses_the_file_witness :
  requests
    (get_current_congress_legislators (Raise Timeout) (fun _ => Ret [])
       (file_after
          (get_current_congress_legislators (Ret "state,district") (fun _ => Ret [])
             None 5 7))
       (7 + one_day) 0)
  = 0%nat.
Proof.
  destruct (second_call_within_a_day_uses_the_file (Ret "state,district")
              (fun _ => Ret []) None "state,district" 5 7 (7 + one_day) 0
              (Raise Timeout) eq_refl (or_introl eq_refl))
    as (_ & _ & H & _); [lia | exact H].
Defined.

Lemma failed_download_leaves_the_file_witness :
  get_current_congress_legislators (Raise HTTPError) (fun _ => Ret [])
    (Some {| file_bytes := "old"; file_mtime := 0 |}) (one_day + 1) 9
  = {| file_after := Some {| file_bytes := "old"; file_mtime := 0 |};
       requests := 1; frame := Raise HTTPError |}.
Proof.
  apply (failed_download_leaves_the_file (Raise HTTPError) (fun _ => Ret [])
           (Some {| file_bytes := "old"; file_mtime := 0 |}) (one_day + 1) 9 HTTPError).
  - reflexivity.
  - right. eexists. split; [reflexivity|]. simpl. lia.
Defined.

(** ** The generic mapper's result *)

(** X22: every key of the districts the generic mapper returns has a
    dash: a bare state bucket, and any other key without one, is not in
    the result. *)
Theorem generic_result_keys_all_have_dash (data : DivisionResponse)
    (cache : LegislatorCache) (out : MapperResult) :
  Generic.parse_result data cache = Ret out ->
  (forall k, In k (PyDict.keys (result_districts out)) -> PyStr.contains "-" k = true)
  /\ (forall st, PyStr.contains "-" st = false ->
        PyDict.get st (result_districts out) = None).
Proof.
  unfold Generic.parse_result.
  destruct (foldM _ _ _) as [dd1|e]; simpl; [|discriminate].
  destruct (Generic.at_large_from_states cache dd1) as [dd2|e]; simpl; [|discriminate].
  intros [= <-]. simpl. split.
  - intros k Hk. apply keys_filter_keys in Hk as [Hk _]. exact Hk.
  - intros st Hst. apply get_filter_keys_false. exact Hst.
Qed.

Lemma generic_result_keys_all_have_dash_witness :
  exists out,
    Generic.parse_result
      (Samples.response ["ocd-division/country:us/state:ca";
                         "ocd-division/country:us/state:ca/cd:13"])
      Samples.no_cache = Ret out
    /\ PyDict.get "CA" (result_districts out) = None.
Proof.
  destruct (Generic.parse_result
              (Samples.response ["ocd-division/country:us/state:ca";
                                 "ocd-division/country:us/state:ca/cd:13"])
              Samples.no_cache) as [out|e] eqn:Hrun;
    [|vm_compute in Hrun; discriminate].
  exists out. split; [reflexivity|].
  apply (generic_result_keys_all_have_dash _ _ out Hrun). reflexivity.
Defined.

(** X23: the generic mapper returns, without an exception, on every
    response whose identifiers have [district:] in lower case only and
    [/cd:] only under [state:], with a cache whose [full_name] values are
    text. *)
Theorem generic_mapper_returns_on_well_formed_input (data : DivisionResponse)
    (cache : LegislatorCache) :
  Forall well_formed_id (ocd_ids data) ->
  named_cache cache ->
  exists out, Generic.parse_result data cache = Ret out.
Proof.
  intros Hids Hcache. unfold Generic.parse_result.
  destruct (divisions_loop_returns cache Hcache (ocd_ids data) (ocd_ids data) [] Hids)
    as [dd1 ->].
  cbn [bind]. destruct (at_large_from_states_returns cache Hcache dd1) as [dd2 ->].
  cbn [bind]. eexists. reflexivity.
Qed.

Lemma generic_mapper_returns_on_well_formed_input_witness :
  exists out,
    Generic.parse_result
      (Samples.response ["ocd-division/country:us";
                         "ocd-division/country:us/state:ca";
                         "ocd-division/country:us/state:ca/cd:13"])
      Samples.other_cache = Ret out.
Proof.
  apply (generic_mapper_returns_on_well_formed_input
           (Samples.response ["ocd-division/country:us";
                              "ocd-division/country:us/state:ca";
                              "ocd-division/country:us/state:ca/cd:13"])
           Samples.other_cache).
  - repeat constructor; intros H; vm_compute in H; try discriminate; reflexivity.
  - split.
    + intros st l H. discriminate.
    + intros district_id r H. unfold Mapper.lookup_representative in H.
      cbn [cache_districts Samples.other_cache PyDict.get] in H.
      destruct (decide (district_id = "CA-12")); [|discriminate].
      injection H as <-. intros a Ha. vm_compute in Ha. injection Ha as <-.
      eexists. reflexivity.
Defined.

(** * The generic mapper on Python objects *)

(** ** The mapper on Python objects against the mapper on values *)

Module HeapFacts.
Import Heap Mapper.

Lemma mbind_ret {A B : Type} (m : M A) (k : A -> M B) (s s' : store) (a : A) :
  m s = (Ret a, s') -> mbind m k s = k a s'.
Proof. intros H. unfold mbind. rewrite H. reflexivity. Qed.

Lemma mbind_raise {A B : Type} (m : M A) (k : A -> M B) (s s' : store) (e : exn) :
  m s = (Raise e, s') -> mbind m k s = (Raise e, s').
Proof. intros H. unfold mbind. rewrite H. reflexivity. Qed.

Lemma extends_refl (s : store) : extends s s.
Proof. split; reflexivity. Qed.

Lemma extends_trans (s1 s2 s3 : store) : extends s1 s2 -> extends s2 s3 -> extends s1 s3.
Proof. intros [H1 H2] [H3 H4]. split; etrans; eassumption. Qed.

Lemma extends_dict (s s' : store) (l : nat) (d : list (string * hval)) :
  extends s s' -> dicts s !! l = Some d -> dicts s' !! l = Some d.
Proof. intros [H _] Hl. exact (prefix_lookup_Some _ _ _ _ Hl H). Qed.

Lemma extends_list (s s' : store) (l : nat) (vs : list hval) :
  extends s s' -> lists s !! l = Some vs -> lists s' !! l = Some vs.
Proof. intros [_ H] Hl. exact (prefix_lookup_Some _ _ _ _ Hl H). Qed.

(** *** Views are kept by a larger store *)

Lemma mapM_ext_Some {A B : Type} (f g : A -> option B) (l : list A) (k : list B) :
  (forall a b, f a = Some b -> g a = Some b) ->
  list.mapM f l = Some k -> list.mapM g l = Some k.
Proof.
  intros Hfg. rewrite !mapM_Some. intros H.
  induction H; constructor; auto.
Qed.

Lemma view_record_extends (s s' : store) (v : hval) (r : record) :
  extends s s' -> view_record s v = Some r -> view_record s' v = Some r.
Proof.
  intros He. destruct v as [a|l|l]; simpl; try discriminate.
  destruct (dicts s !! l) as [d|] eqn:Hd; simpl; [|discriminate].
  rewrite (extends_dict _ _ _ _ He Hd). simpl. auto.
Qed.

Lemma view_records_extends (s s' : store) (v : hval) (rs : list record) :
  extends s s' -> view_records s v = Some rs -> view_records s' v = Some rs.
Proof.
  intros He. destruct v as [a|l|l]; simpl; try discriminate.
  destruct (lists s !! l) as [vs|] eqn:Hl; simpl; [|discriminate].
  rewrite (extends_list _ _ _ _ He Hl). simpl.
  apply mapM_ext_Some. intros a b. apply view_record_extends. exact He.
Qed.

Lemma view_entry_extends (s s' : store) (v : hval) (e : DistrictEntry) :
  extends s s' -> view_entry s v = Some e -> view_entry s' v = Some e.
Proof.
  intros He. destruct v as [a|l|l]; simpl; try discriminate.
  destruct (dicts s !! l) as [d|] eqn:Hd; simpl; [|discriminate].
  rewrite (extends_dict _ _ _ _ He Hd). simpl.
  destruct (PyDict.get "senators" d) as [sv|]; simpl; [|discriminate].
  destruct (PyDict.get "representatives" d) as [rv|]; simpl; [|discriminate].
  destruct (view_records s sv) as [ss|] eqn:Hs; simpl; [|discriminate].
  rewrite (view_records_extends _ _ _ _ He Hs). simpl.
  destruct (view_records s rv) as [rs|] eqn:Hr; simpl; [|discriminate].
  rewrite (view_records_extends _ _ _ _ He Hr). simpl. auto.
Qed.

Lemma view_item_ext {B : Type} (f g : hval -> option B) (kv : string * hval)
    (x : string * B) :
  (forall v b, f v = Some b -> g v = Some b) ->
  view_item f kv = Some x -> view_item g kv = Some x.
Proof.
  intros Hfg. unfold view_item.
  destruct (f (snd kv)) as [b|] eqn:Hb; simpl; [|discriminate].
  rewrite (Hfg _ _ Hb). simpl. auto.
Qed.

Lemma view_result_extends (s s' : store) (v : hval) (r : MapperResult) :
  extends s s' -> view_result s v = Some r -> view_result s' v = Some r.
Proof.
  intros He. destruct v as [a|l|l]; simpl; try discriminate.
  destruct (dicts s !! l) as [d|] eqn:Hd; simpl; [|discriminate].
  rewrite (extends_dict _ _ _ _ He Hd). simpl.
  destruct d as [|[k [a|l'|l']] [|? ?]]; try discriminate.
  destruct (decide (k = "districts")) as [->|Hk]; [|discriminate].
  destruct (dicts s !! l') as [dd|] eqn:Hdd; simpl; [|discriminate].
  rewrite (extends_dict _ _ _ _ He Hdd). simpl.
  destruct (list.mapM (view_item (view_entry s)) dd) as [es|] eqn:Hes; simpl;
    [|discriminate].
  rewrite (mapM_ext_Some _ (view_item (view_entry s')) _ _
             (fun a b => view_item_ext _ _ a b (fun v x => view_entry_extends s s' v x He))
             Hes).
  simpl. auto.
Qed.

End HeapFacts.

Module Refinement.
Import Heap Mapper Layout.
Export HeapFacts.

Local Open Scope nat_scope.
Local Open Scope list_scope.

Section Invariant.

(** The store the mapper was called in: [district_data] is the first
    dictionary it makes, [territories] the first list. *)
Variable s0 : store.

(** The layout of this call. *)
Local Abbreviation ddl := (Layout.ddl s0).
Local Abbreviation tl := (Layout.tl s0).
Local Abbreviation ddv := (Layout.ddv s0).
Local Abbreviation tv := (Layout.tv s0).
Local Abbreviation started := (Layout.started s0).
Local Abbreviation record_at := (Layout.record_at s0).
Local Abbreviation records_at := (Layout.records_at s0).
Local Abbreviation cell_ok := (Layout.cell_ok s0).
Local Abbreviation Inv := (Layout.Inv s0).
Local Abbreviation spares_records := (Layout.spares_records s0).
Local Abbreviation simulates := (Layout.simulates s0).
Local Abbreviation inv_dicts := (Layout.inv_dicts s0).
Local Abbreviation inv_lists := (Layout.inv_lists s0).
Local Abbreviation inv_dd := (Layout.inv_dd s0).
Local Abbreviation inv_cells := (Layout.inv_cells s0).
Local Abbreviation inv_entries := (Layout.inv_entries s0).
Local Abbreviation inv_reps := (Layout.inv_reps s0).
Local Abbreviation inv_sens := (Layout.inv_sens s0).

(** *** Agreement keeps what the invariant says *)

Lemma agree_refl (wd wl : nat -> Prop) (s : store) : agree wd wl s s.
Proof. split; auto. Qed.

Lemma agree_new_dict (s : store) (d : list (string * hval)) :
  agree nowhere nowhere s {| dicts := dicts s ++ [d]; lists := lists s |}.
Proof.
  split; simpl; [|auto]. intros p d' H _. apply lookup_app_l_Some. exact H.
Qed.

Lemma agree_new_list (s : store) (vs : list hval) :
  agree nowhere nowhere s {| dicts := dicts s; lists := lists s ++ [vs] |}.
Proof.
  split; simpl; [auto|]. intros l vs' H _. apply lookup_app_l_Some. exact H.
Qed.

Lemma agree_set_dict (s : store) (l : nat) (d : list (string * hval)) :
  agree (eq l) nowhere s {| dicts := <[l := d]> (dicts s); lists := lists s |}.
Proof.
  split; simpl; [|auto]. intros p d' H Hp.
  rewrite list_lookup_insert_ne by exact Hp. exact H.
Qed.

Lemma agree_set_list (s : store) (l : nat) (vs : list hval) :
  agree nowhere (eq l) s {| dicts := dicts s; lists := <[l := vs]> (lists s) |}.
Proof.
  split; simpl; [auto|]. intros p d' H Hp.
  rewrite list_lookup_insert_ne by exact Hp. exact H.
Qed.

Lemma agree_weaken (wd wl wd' wl' : nat -> Prop) (s s' : store) :
  (forall p, wd p -> wd' p) -> (forall l, wl l -> wl' l) ->
  agree wd wl s s' -> agree wd' wl' s s'.
Proof.
  intros Hd Hl [H1 H2]. split.
  - intros p d Hp Hw. apply H1; [exact Hp | auto].
  - intros l vs Hp Hw. apply H2; [exact Hp | auto].
Qed.

Lemma record_at_agree (wd wl : nat -> Prop) (s s' : store) (v : hval) (r : record) :
  agree wd wl s s' ->
  (forall p, ddl < p -> dicts s !! p = Some (atoms r) -> ~ wd p) ->
  record_at s v r -> record_at s' v r.
Proof.
  intros [Hd _] Hw (p & -> & Hp & Hr). exists p. split; [reflexivity|]. split; [exact Hp|].
  apply Hd; [exact Hr | exact (Hw p Hp Hr)].
Qed.

Lemma records_at_agree (wd wl : nat -> Prop) (s s' : store) (l : nat)
    (rs : list record) :
  agree wd wl s s' -> spares_records s wd -> ~ wl l ->
  records_at s l rs -> records_at s' l rs.
Proof.
  intros Ha Hw Hl (vs & Hvs & Hrs). exists vs. split.
  - destruct Ha as [_ Ha]. apply Ha; assumption.
  - eapply Forall2_impl; [exact Hrs|]. intros v r. apply (record_at_agree wd wl s s' v r Ha).
    intros p. apply Hw.
Qed.

Lemma entry_at_agree (wd wl : nat -> Prop) (s s' : store) (c : cell) :
  agree wd wl s s' -> ~ wd (c_entry c) -> entry_at s c -> entry_at s' c.
Proof.
  intros [Hd _] Hw (d & Hd' & H). exists d. split; [|exact H]. apply Hd; assumption.
Qed.

Lemma cell_ok_agree (wd wl : nat -> Prop) (s s' : store) (kc : string * cell)
    (kv : string * DistrictEntry) :
  agree wd wl s s' -> spares_records s wd ->
  ~ wd (c_entry (snd kc)) -> ~ wl (c_sen (snd kc)) -> ~ wl (c_rep (snd kc)) ->
  cell_ok s kc kv -> cell_ok s' kc kv.
Proof.
  intros Ha Hw He Hs Hr (Hk & Hb & Ht & Hent & Hsen & Hrep).
  split; [exact Hk|]. split; [exact Hb|]. split; [exact Ht|]. split; [|split].
  - exact (entry_at_agree wd wl s s' _ Ha He Hent).
  - exact (records_at_agree wd wl s s' _ _ Ha Hw Hs Hsen).
  - exact (records_at_agree wd wl s s' _ _ Ha Hw Hr Hrep).
Qed.

Lemma spares_nowhere (s : store) : spares_records s nowhere.
Proof. intros p r _ _ []. Qed.

Lemma spares_ddl (s : store) : spares_records s (eq ddl).
Proof. intros p r Hp _ <-. lia. Qed.

Lemma get_atoms (k : string) (r : record) :
  PyDict.get k (atoms r) = HAtom <$> PyDict.get k r.
Proof.
  induction r as [|[k' a] r IH]; simpl; [reflexivity|].
  destruct (decide (k = k')); [reflexivity | exact IH].
Qed.

(** A record is not an entry: the value of [senators] is a list there. *)
Lemma spares_entry (s : store) (c : cell) : entry_at s c -> spares_records s (eq (c_entry c)).
Proof.
  intros (d & Hd & Hs & _) p r _ Hp <-. rewrite Hd in Hp. injection Hp as ->.
  rewrite get_atoms in Hs. destruct (PyDict.get "senators" r); discriminate.
Qed.

(** *** Bounds: what the invariant names is in the store *)

Lemma lookup_lt {A : Type} (l : list A) (i : nat) (a : A) : l !! i = Some a -> i < length l.
Proof. intros H. apply lookup_lt_is_Some. eauto. Qed.

Lemma cell_ok_bounds (s : store) (kc : string * cell) (kv : string * DistrictEntry) :
  cell_ok s kc kv ->
  c_entry (snd kc) < length (dicts s)
  /\ c_sen (snd kc) < length (lists s)
  /\ c_rep (snd kc) < length (lists s).
Proof.
  intros (_ & _ & _ & (d & Hd & _) & (vs & Hvs & _) & (vr & Hvr & _)).
  repeat split; eapply lookup_lt; eassumption.
Qed.

Lemma Forall2_impl_elem {A B : Type} (R R' : A -> B -> Prop) (l : list A) (k : list B) :
  Forall2 R l k -> (forall a b, a ∈ l -> R a b -> R' a b) -> Forall2 R' l k.
Proof.
  intros H. induction H as [|x y l k Hxy H IH]; intros Himp; constructor.
  - apply Himp; [left | exact Hxy].
  - apply IH. intros a b Ha. apply Himp. right. exact Ha.
Qed.

Lemma Forall2_elem_l {A B : Type} (R : A -> B -> Prop) (l : list A) (k : list B) (a : A) :
  Forall2 R l k -> a ∈ l -> exists b, b ∈ k /\ R a b.
Proof.
  intros H. induction H as [|x y l k Hxy H IH]; intros Ha.
  - inversion Ha.
  - apply elem_of_cons in Ha as [->|Ha].
    + exists y. split; [left | exact Hxy].
    + destruct (IH Ha) as (b & Hb & Hab). exists b. split; [right; exact Hb | exact Hab].
Qed.

Lemma inv_bounds (s : store) (cells : list (string * cell)) (dd : district_data)
    (kc : string * cell) :
  Inv s cells dd -> kc ∈ cells ->
  c_entry (snd kc) < length (dicts s)
  /\ c_sen (snd kc) < length (lists s)
  /\ c_rep (snd kc) < length (lists s).
Proof.
  intros HI Hin. destruct (Forall2_elem_l _ _ _ _ (inv_cells _ _ _ HI) Hin) as (kv & _ & H).
  exact (cell_ok_bounds _ _ _ H).
Qed.

Lemma inv_ddl_lt (s : store) (cells : list (string * cell)) (dd : district_data) :
  Inv s cells dd -> ddl < length (dicts s).
Proof. intros HI. eapply lookup_lt. exact (inv_dd _ _ _ HI). Qed.

Lemma inv_extends (s : store) (cells : list (string * cell)) (dd : district_data) :
  Inv s cells dd -> extends s0 s.
Proof.
  intros HI. split; [exact (inv_dicts _ _ _ HI)|].
  etrans; [|exact (inv_lists _ _ _ HI)]. apply prefix_app_r. reflexivity.
Qed.

(** *** Steps that write to nothing the invariant names *)

Lemma prefix_agree {A : Type} (l k k' : list A) :
  l `prefix_of` k -> (forall i a, k !! i = Some a -> i < length l -> k' !! i = Some a) ->
  length k <= length k' -> l `prefix_of` k'.
Proof.
  intros [t ->] H Hlen. exists (drop (length l) k').
  apply list_eq. intros i. destruct (decide (i < length l)) as [Hi|Hi].
  - rewrite lookup_app_l by exact Hi.
    destruct (lookup_lt_is_Some_2 l i Hi) as [a Ha].
    rewrite Ha. apply H; [|exact Hi]. apply lookup_app_l_Some. exact Ha.
  - rewrite lookup_app_r by lia. rewrite lookup_drop.
    replace (length l + (i - length l)) with i by lia. reflexivity.
Qed.

Lemma inv_agree (wd wl : nat -> Prop) (s s' : store) (cells : list (string * cell))
    (dd : district_data) :
  Inv s cells dd -> agree wd wl s s' -> spares_records s wd ->
  length (dicts s) <= length (dicts s') -> length (lists s) <= length (lists s') ->
  (forall p, wd p -> ddl < p) ->
  (forall l, wl l -> tl < l) ->
  (forall kc, kc ∈ cells ->
     ~ wd (c_entry (snd kc)) /\ ~ wl (c_sen (snd kc)) /\ ~ wl (c_rep (snd kc))) ->
  Inv s' cells dd.
Proof.
  intros HI Ha Hw Hld Hll Hwd Hwl Hcells. destruct Ha as [Had Hal].
  constructor.
  - apply (prefix_agree _ _ _ (inv_dicts _ _ _ HI)); [|exact Hld].
    intros i a Hi Hlt. apply Had; [exact Hi|]. intros Hwi. apply Hwd in Hwi.
    unfold Layout.ddl in Hwi. lia.
  - apply (prefix_agree _ _ _ (inv_lists _ _ _ HI)); [|exact Hll].
    intros i a Hi Hlt. apply Hal; [exact Hi|]. intros Hwi. apply Hwl in Hwi.
    rewrite length_app in Hlt. simpl in Hlt. unfold Layout.tl in Hwi. lia.
  - apply Had; [exact (inv_dd _ _ _ HI)|]. intros Hwi. apply Hwd in Hwi. lia.
  - eapply Forall2_impl_elem; [exact (inv_cells _ _ _ HI)|].
    intros kc kv Hin Hkc. destruct (Hcells kc Hin) as (H1 & H2 & H3).
    apply (cell_ok_agree wd wl s s'); try assumption. split; assumption.
  - exact (inv_entries _ _ _ HI).
  - exact (inv_reps _ _ _ HI).
  - exact (inv_sens _ _ _ HI).
Qed.

(** A new dictionary, a new list. *)
Lemma inv_new_dict (s : store) (cells : list (string * cell)) (dd : district_data)
    (d : list (string * hval)) :
  Inv s cells dd -> Inv {| dicts := dicts s ++ [d]; lists := lists s |} cells dd.
Proof.
  intros HI. apply (inv_agree nowhere nowhere s).
  - exact HI.
  - apply agree_new_dict.
  - apply spares_nowhere.
  - cbn [dicts lists]. rewrite length_app. lia.
  - cbn [dicts lists]. lia.
  - intros ? [].
  - intros ? [].
  - intros kc _. repeat split; intros [].
Qed.

Lemma inv_new_list (s : store) (cells : list (string * cell)) (dd : district_data)
    (vs : list hval) :
  Inv s cells dd -> Inv {| dicts := dicts s; lists := lists s ++ [vs] |} cells dd.
Proof.
  intros HI. apply (inv_agree nowhere nowhere s).
  - exact HI.
  - apply agree_new_list.
  - apply spares_nowhere.
  - cbn [dicts lists]. lia.
  - cbn [dicts lists]. rewrite length_app. lia.
  - intros ? [].
  - intros ? [].
  - intros kc _. repeat split; intros [].
Qed.


(** *** Dictionaries as lists of items *)

Lemma get_map_snd {A B : Type} (g : A -> B) (k : string) (l : list (string * A)) :
  PyDict.get k (map (fun kc => (fst kc, g (snd kc))) l) = g <$> PyDict.get k l.
Proof.
  induction l as [|[k' a] l IH]; simpl; [reflexivity|].
  destruct (decide (k = k')); [reflexivity | exact IH].
Qed.

Lemma set_map_snd {A B : Type} (g : A -> B) (k : string) (c : A) (l : list (string * A)) :
  map (fun kc => (fst kc, g (snd kc))) (PyDict.set k c l)
  = PyDict.set k (g c) (map (fun kc => (fst kc, g (snd kc))) l).
Proof.
  induction l as [|[k' a] l IH]; simpl; [reflexivity|].
  destruct (decide (k = k')); simpl; [reflexivity | rewrite IH; reflexivity].
Qed.

Lemma elem_of_set {A : Type} (k : string) (v : A) (l : list (string * A)) (x : string * A) :
  x ∈ PyDict.set k v l -> x = (k, v) \/ x ∈ l.
Proof.
  induction l as [|[k' a] l IH]; simpl.
  - intros H. apply list_elem_of_singleton in H. left. exact H.
  - destruct (decide (k = k')) as [->|Hne]; intros H; apply elem_of_cons in H as [->|H].
    + left. reflexivity.
    + right. right. exact H.
    + right. left.
    + destruct (IH H) as [->|H']; [left; reflexivity | right; right; exact H'].
Qed.

Lemma get_elem_of {A : Type} (k : string) (l : list (string * A)) (v : A) :
  PyDict.get k l = Some v -> (k, v) ∈ l.
Proof.
  induction l as [|[k' a] l IH]; simpl; [discriminate|].
  destruct (decide (k = k')) as [->|Hne].
  - intros [= ->]. left.
  - intros H. right. exact (IH H).
Qed.

Lemma set_same {A : Type} (k : string) (l : list (string * A)) (v : A) :
  PyDict.get k l = Some v -> PyDict.set k v l = l.
Proof.
  induction l as [|[k' a] l IH]; simpl; [discriminate|].
  destruct (decide (k = k')) as [->|Hne].
  - intros [= ->]. reflexivity.
  - intros H. rewrite (IH H). reflexivity.
Qed.

Lemma length_set_present {A : Type} (k : string) (v x : A) (l : list (string * A)) :
  PyDict.get k l = Some x -> length (PyDict.set k v l) = length l.
Proof.
  induction l as [|[k' a] l IH]; simpl; [discriminate|].
  destruct (decide (k = k')) as [->|Hne]; simpl; [reflexivity|].
  intros H. rewrite (IH H). reflexivity.
Qed.

Lemma map_set_same {A B : Type} (f : A -> B) (k : string) (c c' : A)
    (l : list (string * A)) :
  PyDict.get k l = Some c -> f c' = f c ->
  map (fun kc => f (snd kc)) (PyDict.set k c' l) = map (fun kc => f (snd kc)) l.
Proof.
  intros Hget Hf. induction l as [|[k' a] l IH]; simpl in *; [discriminate|].
  destruct (decide (k = k')) as [->|Hne]; simpl.
  - injection Hget as ->. rewrite Hf. reflexivity.
  - rewrite (IH Hget). reflexivity.
Qed.

Lemma NoDup_map_set {A B : Type} (f : A -> B) (k : string) (c : A)
    (l : list (string * A)) :
  NoDup (map (fun kc => f (snd kc)) l) ->
  f c ∉ map (fun kc => f (snd kc)) l ->
  NoDup (map (fun kc => f (snd kc)) (PyDict.set k c l)).
Proof.
  induction l as [|[k' a] l IH]; simpl; intros Hnd Hc.
  - apply NoDup_singleton.
  - apply NoDup_cons in Hnd as [Ha Hnd].
    apply not_elem_of_cons in Hc as [Hca Hc].
    destruct (decide (k = k')) as [->|Hne]; simpl.
    + apply NoDup_cons. split; [exact Hc | exact Hnd].
    + apply NoDup_cons. split; [|exact (IH Hnd Hc)].
      intros Hin. apply list_elem_of_fmap in Hin as (x & Hx & Hin).
      apply elem_of_set in Hin as [->|Hin].
      * simpl in Hx. congruence.
      * apply Ha. apply list_elem_of_fmap. exists x. split; assumption.
Qed.

(** Two dictionaries with the same keys, related item by item, after
    the same assignment. *)
Lemma Forall2_set_any {A B : Type} (R R' : string * A -> string * B -> Prop)
    (k : string) (c : A) (e : B) (l : list (string * A)) (d : list (string * B)) :
  Forall2 R l d ->
  (forall x y, R x y -> fst x = fst y) ->
  R' (k, c) (k, e) ->
  (forall x y, x ∈ l -> R x y -> R' x y) ->
  Forall2 R' (PyDict.set k c l) (PyDict.set k e d).
Proof.
  intros H Hkey Hnew. induction H as [|[kx a] [ky b] l d Hxy H IH]; intros Himp; simpl.
  - constructor; [exact Hnew | constructor].
  - pose proof (Hkey _ _ Hxy) as Hk. simpl in Hk. subst ky.
    destruct (decide (k = kx)) as [->|Hne].
    + constructor; [exact Hnew|].
      eapply Forall2_impl_elem; [exact H|]. intros x y Hx. apply Himp. right. exact Hx.
    + constructor.
      * apply Himp; [left | exact Hxy].
      * apply IH. intros x y Hx. apply Himp. right. exact Hx.
Qed.

Lemma Forall2_set_present {A B : Type} (R R' : string * A -> string * B -> Prop)
    (k : string) (c0 c : A) (e : B) (l : list (string * A)) (d : list (string * B)) :
  Forall2 R l d ->
  (forall x y, R x y -> fst x = fst y) ->
  NoDup (map snd l) ->
  PyDict.get k l = Some c0 ->
  R' (k, c) (k, e) ->
  (forall x y, x ∈ l -> R x y -> snd x <> c0 -> R' x y) ->
  Forall2 R' (PyDict.set k c l) (PyDict.set k e d).
Proof.
  intros H Hkey. induction H as [|[kx a] [ky b] l d Hxy H IH];
    intros Hnd Hget Hnew Himp; simpl in *; [discriminate|].
  pose proof (Hkey _ _ Hxy) as Hk. simpl in Hk. subst ky.
  apply NoDup_cons in Hnd as [Ha Hnd].
  destruct (decide (k = kx)) as [->|Hne].
  - injection Hget as ->. constructor; [exact Hnew|].
    eapply Forall2_impl_elem; [exact H|]. intros x y Hx Hr. apply Himp; [right; exact Hx | exact Hr |].
    intros Heq. apply Ha. apply list_elem_of_fmap. exists x. split; [symmetry; exact Heq | exact Hx].
  - constructor.
    + apply Himp; [left | exact Hxy |]. simpl. intros ->.
      apply Ha. apply list_elem_of_fmap. exists (k, c0). split; [reflexivity|].
      exact (get_elem_of _ _ _ Hget).
    + apply IH; try assumption. intros x y Hx. apply Himp. right. exact Hx.
Qed.

Lemma Forall2_get {A B : Type} (R : string * A -> string * B -> Prop)
    (k : string) (l : list (string * A)) (d : list (string * B)) :
  Forall2 R l d ->
  (forall x y, R x y -> fst x = fst y) ->
  match PyDict.get k l with
  | Some c => exists e, PyDict.get k d = Some e /\ R (k, c) (k, e)
  | None => PyDict.get k d = None
  end.
Proof.
  intros H Hkey. induction H as [|[kx a] [ky b] l d Hxy H IH]; simpl; [reflexivity|].
  pose proof (Hkey _ _ Hxy) as Hk. simpl in Hk. subst ky.
  destruct (decide (k = kx)) as [->|Hne]; [|exact IH].
  exists b. split; [reflexivity | exact Hxy].
Qed.

Lemma Forall2_keys {A B : Type} (R : string * A -> string * B -> Prop)
    (l : list (string * A)) (d : list (string * B)) :
  Forall2 R l d -> (forall x y, R x y -> fst x = fst y) ->
  PyDict.keys l = PyDict.keys d.
Proof.
  intros H Hkey. unfold PyDict.keys.
  induction H as [|x y l d Hxy H IH]; simpl; [reflexivity|].
  rewrite (Hkey _ _ Hxy), IH. reflexivity.
Qed.

Lemma cell_ok_key (s : store) (kc : string * cell) (kv : string * DistrictEntry) :
  cell_ok s kc kv -> fst kc = fst kv.
Proof. intros [H _]. exact H. Qed.

Lemma NoDup_cells (s : store) (cells : list (string * cell)) (dd : district_data) :
  Inv s cells dd -> NoDup (map snd cells).
Proof.
  intros HI. apply (NoDup_fmap_1 c_entry). rewrite <- list_fmap_compose.
  exact (inv_entries _ _ _ HI).
Qed.

(** *** Reading [district_data] *)

Lemma inv_dict_at (s : store) (cells : list (string * cell)) (dd : district_data) :
  Inv s cells dd ->
  dict_at s ddl = map (fun kc => (fst kc, HDict (c_entry (snd kc)))) cells.
Proof. intros HI. unfold dict_at. rewrite (inv_dd _ _ _ HI). reflexivity. Qed.

Lemma inv_get (s : store) (cells : list (string * cell)) (dd : district_data)
    (k : string) :
  Inv s cells dd ->
  match PyDict.get k cells with
  | Some c => exists e, PyDict.get k dd = Some e /\ cell_ok s (k, c) (k, e)
  | None => PyDict.get k dd = None
  end.
Proof.
  intros HI. apply Forall2_get; [exact (inv_cells _ _ _ HI)|]. apply cell_ok_key.
Qed.

Lemma inv_mem (s : store) (cells : list (string * cell)) (dd : district_data)
    (k : string) :
  Inv s cells dd -> PyDict.mem k cells = PyDict.mem k dd.
Proof.
  intros HI. pose proof (inv_get s cells dd k HI) as H. unfold PyDict.mem.
  destruct (PyDict.get k cells).
  - destruct H as (e & -> & _). reflexivity.
  - rewrite H. reflexivity.
Qed.

Lemma run_contains_dd (s : store) (cells : list (string * cell)) (dd : district_data)
    (k : string) :
  Inv s cells dd -> py_contains k ddv s = (Ret (PyDict.mem k dd), s).
Proof.
  intros HI. unfold py_contains, Layout.ddv. rewrite (inv_dict_at _ _ _ HI).
  rewrite <- (inv_mem _ _ _ k HI). unfold PyDict.mem.
  rewrite (get_map_snd (fun c => HDict (c_entry c))).
  destruct (PyDict.get k cells); reflexivity.
Qed.

Lemma run_getitem_dd (s : store) (cells : list (string * cell)) (dd : district_data)
    (k : string) (c : cell) :
  Inv s cells dd -> PyDict.get k cells = Some c ->
  py_getitem ddv k s = (Ret (HDict (c_entry c)), s).
Proof.
  intros HI Hk. unfold py_getitem, Layout.ddv. rewrite (inv_dict_at _ _ _ HI).
  rewrite (get_map_snd (fun c => HDict (c_entry c))), Hk. reflexivity.
Qed.

Lemma mem_get {A : Type} (k : string) (l : list (string * A)) :
  PyDict.mem k l = true -> exists a, PyDict.get k l = Some a.
Proof. unfold PyDict.mem. destruct (PyDict.get k l); [eauto | discriminate]. Qed.

Lemma inv_cell (s : store) (cells : list (string * cell)) (dd : district_data)
    (k : string) :
  Inv s cells dd -> PyDict.mem k dd = true ->
  exists c, PyDict.get k cells = Some c
            /\ cell_ok s (k, c) (k, entry k dd)
            /\ (k, c) ∈ cells.
Proof.
  intros HI Hm. rewrite <- (inv_mem _ _ _ k HI) in Hm.
  destruct (mem_get _ _ Hm) as [c Hc]. exists c. split; [exact Hc|].
  pose proof (inv_get s cells dd k HI) as H. rewrite Hc in H.
  destruct H as (e & He & Hok). unfold entry. rewrite He. simpl.
  split; [exact Hok | exact (get_elem_of _ _ _ Hc)].
Qed.

Lemma run_get_senators (s : store) (cells : list (string * cell)) (dd : district_data)
    (k : string) (c : cell) :
  Inv s cells dd -> PyDict.get k cells = Some c ->
  get_senators ddv k s = (Ret (HList (c_sen c)), s).
Proof.
  intros HI Hk. unfold get_senators.
  rewrite (mbind_ret _ _ _ _ _ (run_getitem_dd _ _ _ _ _ HI Hk)).
  pose proof (inv_get s cells dd k HI) as H. rewrite Hk in H.
  destruct H as (e & _ & _ & _ & _ & (d & Hd & Hs & _) & _).
  unfold py_getitem, dict_at. simpl in Hd. rewrite Hd. simpl. rewrite Hs. reflexivity.
Qed.

Lemma run_get_representatives (s : store) (cells : list (string * cell))
    (dd : district_data) (k : string) (c : cell) :
  Inv s cells dd -> PyDict.get k cells = Some c ->
  get_representatives ddv k s = (Ret (HList (c_rep c)), s).
Proof.
  intros HI Hk. unfold get_representatives.
  rewrite (mbind_ret _ _ _ _ _ (run_getitem_dd _ _ _ _ _ HI Hk)).
  pose proof (inv_get s cells dd k HI) as H. rewrite Hk in H.
  destruct H as (e & _ & _ & _ & _ & (d & Hd & _ & Hr & _) & _).
  unfold py_getitem, dict_at. simpl in Hd. rewrite Hd. simpl. rewrite Hr. reflexivity.
Qed.

Lemma run_truthy_records (s : store) (l : nat) (rs : list record) :
  records_at s l rs ->
  py_truthy (HList l) s = (Ret (match rs with [] => false | _ => true end), s).
Proof.
  intros (vs & Hvs & Hrs). unfold py_truthy, list_at. rewrite Hvs. simpl.
  destruct Hrs; reflexivity.
Qed.

Lemma run_keys_dd (s : store) (cells : list (string * cell)) (dd : district_data) :
  Inv s cells dd -> py_keys ddv s = (Ret (PyDict.keys dd), s).
Proof.
  intros HI. unfold py_keys, mbind, py_items, Layout.ddv. rewrite (inv_dict_at _ _ _ HI).
  unfold mret. f_equal. f_equal.
  rewrite <- (Forall2_keys _ _ _ (inv_cells _ _ _ HI) (cell_ok_key s)).
  unfold PyDict.keys. rewrite map_map. reflexivity.
Qed.

Lemma run_truthy_dd (s : store) (cells : list (string * cell)) (dd : district_data) :
  Inv s cells dd ->
  py_truthy ddv s = (Ret (match dd with [] => false | _ => true end), s).
Proof.
  intros HI. unfold py_truthy, Layout.ddv. rewrite (inv_dict_at _ _ _ HI).
  destruct (inv_cells _ _ _ HI); reflexivity.
Qed.


(** *** A larger store keeps what was established *)

Lemma agree_of_extends (s s' : store) : extends s s' -> agree nowhere nowhere s s'.
Proof.
  intros He. split.
  - intros p d H _. exact (extends_dict _ _ _ _ He H).
  - intros l vs H _. exact (extends_list _ _ _ _ He H).
Qed.

Lemma extends_length (s s' : store) :
  extends s s' ->
  length (dicts s) <= length (dicts s') /\ length (lists s) <= length (lists s').
Proof. intros [H1 H2]. split; apply prefix_length; assumption. Qed.

Lemma record_at_extends (s s' : store) (v : hval) (r : record) :
  extends s s' -> record_at s v r -> record_at s' v r.
Proof.
  intros He. apply (record_at_agree nowhere nowhere); [exact (agree_of_extends _ _ He)|].
  intros p _ _ [].
Qed.

Lemma records_at_extends (s s' : store) (l : nat) (rs : list record) :
  extends s s' -> records_at s l rs -> records_at s' l rs.
Proof.
  intros He. apply (records_at_agree nowhere nowhere).
  - exact (agree_of_extends _ _ He).
  - apply spares_nowhere.
  - intros [].
Qed.

Lemma cell_ok_extends (s s' : store) (kc : string * cell) (kv : string * DistrictEntry) :
  extends s s' -> cell_ok s kc kv -> cell_ok s' kc kv.
Proof.
  intros He. apply (cell_ok_agree nowhere nowhere).
  - exact (agree_of_extends _ _ He).
  - apply spares_nowhere.
  - intros [].
  - intros [].
  - intros [].
Qed.

Lemma inv_mono (s s' : store) (cells : list (string * cell)) (dd : district_data) :
  extends s s' -> Inv s cells dd -> Inv s' cells dd.
Proof.
  intros He HI. destruct (extends_length _ _ He) as [H1 H2].
  apply (inv_agree nowhere nowhere s); try assumption.
  - exact (agree_of_extends _ _ He).
  - apply spares_nowhere.
  - intros ? [].
  - intros ? [].
  - intros kc _. repeat split; intros [].
Qed.

Lemma extends_new_dict (s : store) (d : list (string * hval)) :
  extends s {| dicts := dicts s ++ [d]; lists := lists s |}.
Proof. split; simpl; [apply prefix_app_r|]; reflexivity. Qed.

Lemma extends_new_list (s : store) (vs : list hval) :
  extends s {| dicts := dicts s; lists := lists s ++ [vs] |}.
Proof. split; simpl; [|apply prefix_app_r]; reflexivity. Qed.

Lemma NoDup_map_elem {A B : Type} (f : A -> B) (l : list A) (x y : A) :
  NoDup (map f l) -> x ∈ l -> y ∈ l -> f x = f y -> x = y.
Proof.
  induction l as [|a l IH]; simpl; intros Hnd Hx Hy Hf; [inversion Hx|].
  apply NoDup_cons in Hnd as [Ha Hnd].
  apply elem_of_cons in Hx as [->|Hx]; apply elem_of_cons in Hy as [->|Hy].
  - reflexivity.
  - exfalso. apply Ha. rewrite Hf. apply list_elem_of_fmap. eauto.
  - exfalso. apply Ha. rewrite <- Hf. apply list_elem_of_fmap. eauto.
  - exact (IH Hnd Hx Hy Hf).
Qed.

(** *** Writing to [district_data] *)

(** [district_data[k] = e] for an entry [e] that shares no dictionary
    and no list of representatives with the entries in place. *)
Lemma run_set_entry (s : store) (cells : list (string * cell)) (dd : district_data)
    (k : string) (c : cell) (ent : DistrictEntry) :
  Inv s cells dd ->
  cell_ok s (k, c) (k, ent) ->
  c_entry c ∉ map (fun kc => c_entry (snd kc)) cells ->
  c_rep c ∉ map (fun kc => c_rep (snd kc)) cells ->
  c_rep c ∉ map (fun kc => c_sen (snd kc)) cells ->
  c_sen c ∉ map (fun kc => c_rep (snd kc)) cells ->
  c_sen c <> c_rep c ->
  exists s',
    py_setitem ddv k (HDict (c_entry c)) s = (Ret tt, s')
    /\ Inv s' (PyDict.set k c cells) (PyDict.set k ent dd)
    /\ agree (eq ddl) nowhere s s'
    /\ length (dicts s') = length (dicts s) /\ lists s' = lists s.
Proof.
  intros HI Hc He Hr Hrs Hsr Hne.
  eexists. split; [reflexivity|].
  set (s' := {| dicts := _; lists := _ |}).
  assert (Ha : agree (eq ddl) nowhere s s') by apply agree_set_dict.
  assert (Hlen : length (dicts s') = length (dicts s)) by apply length_insert.
  split; [|repeat split; [apply Ha | apply Ha | exact Hlen]].
  pose proof (inv_ddl_lt _ _ _ HI) as Hlt.
  constructor.
  - apply (prefix_agree _ _ _ (inv_dicts _ _ _ HI)); [|lia].
    intros i a Hi Hil. apply Ha; [exact Hi|]. unfold Layout.ddl. lia.
  - exact (inv_lists _ _ _ HI).
  - unfold s'. cbn [dicts]. rewrite list_lookup_insert_eq by exact Hlt.
    rewrite (inv_dict_at _ _ _ HI).
    rewrite (set_map_snd (fun c => HDict (c_entry c))). reflexivity.
  - assert (Hkeep : forall x y, cell_ok s x y -> cell_ok s' x y).
    { intros x y Hxy. apply (cell_ok_agree (eq ddl) nowhere s s').
      - exact Ha.
      - apply spares_ddl.
      - destruct Hxy as (_ & Hb & _). lia.
      - intros [].
      - intros [].
      - exact Hxy. }
    apply (Forall2_set_any (cell_ok s) (cell_ok s')).
    + exact (inv_cells _ _ _ HI).
    + apply cell_ok_key.
    + apply Hkeep. exact Hc.
    + intros x y _. apply Hkeep.
  - apply (NoDup_map_set c_entry); [exact (inv_entries _ _ _ HI) | exact He].
  - apply (NoDup_map_set c_rep); [exact (inv_reps _ _ _ HI) | exact Hr].
  - intros kc kc' Hkc Hkc'.
    apply elem_of_set in Hkc as [->|Hkc]; apply elem_of_set in Hkc' as [->|Hkc']; simpl.
    + exact Hne.
    + intros Heq. apply Hsr. rewrite Heq. apply list_elem_of_fmap. exists kc'. auto.
    + intros Heq. apply Hrs. rewrite <- Heq. apply list_elem_of_fmap. exists kc. auto.
    + exact (inv_sens _ _ _ HI kc kc' Hkc Hkc').
Qed.

Lemma inv_fresh (s : store) (cells : list (string * cell)) (dd : district_data) :
  Inv s cells dd ->
  (length (dicts s) ∉ map (fun kc => c_entry (snd kc)) cells)
  /\ (length (lists s) ∉ map (fun kc => c_rep (snd kc)) cells)
  /\ (length (lists s) ∉ map (fun kc => c_sen (snd kc)) cells).
Proof.
  intros HI. repeat split; intros Hin; apply list_elem_of_fmap in Hin as (kc & Heq & Hin);
    destruct (inv_bounds _ _ _ kc HI Hin) as (H1 & H2 & H3); lia.
Qed.

Lemma inv_tl_lt (s : store) (cells : list (string * cell)) (dd : district_data) :
  Inv s cells dd -> tl < length (lists s).
Proof.
  intros HI. pose proof (prefix_length _ _ (inv_lists _ _ _ HI)) as H.
  rewrite length_app in H. simpl in H. unfold Layout.tl. lia.
Qed.

(** [district_data[k] = {"senators": l, "representatives": []}], the
    dictionary and the empty list new. *)
Lemma run_new_entry_set (s : store) (cells : list (string * cell)) (dd : district_data)
    (k : string) (sl : nat) (rs : list record) :
  Inv s cells dd ->
  records_at s sl rs ->
  sl ∉ map (fun kc => c_rep (snd kc)) cells ->
  exists s',
    (let& e := new_entry (HList sl) in py_setitem ddv k e) s = (Ret tt, s')
    /\ Inv s' (PyDict.set k (length (dicts s), sl, length (lists s)) cells)
         (PyDict.set k {| senators := rs; representatives := [] |} dd).
Proof.
  intros HI Hrs Hsl.
  set (s1 := {| dicts := dicts s
                         ++ [[("senators", HList sl);
                              ("representatives", HList (length (lists s)))]];
                lists := lists s ++ [[]] |}).
  assert (He : extends s s1).
  { split; simpl; apply prefix_app_r; reflexivity. }
  assert (HI1 : Inv s1 cells dd) by exact (inv_mono _ _ _ _ He HI).
  destruct (inv_fresh _ _ _ HI) as (F1 & F2 & F3).
  destruct (run_set_entry s1 cells dd k (length (dicts s), sl, length (lists s))
              {| senators := rs; representatives := [] |} HI1)
    as (s' & Hrun & HI' & _); try assumption.
  - split; [reflexivity|]. cbn [fst snd c_entry c_sen c_rep].
    split; [exact (inv_ddl_lt _ _ _ HI)|]. split; [exact (inv_tl_lt _ _ _ HI)|].
    split; [|split].
    + eexists. unfold c_entry, c_sen, c_rep. cbn [fst snd s1 dicts].
      split; [apply list_lookup_middle; reflexivity|]. repeat split.
    + exact (records_at_extends _ _ _ _ He Hrs).
    + exists []. unfold c_rep. cbn [fst snd s1 lists senators representatives].
      split; [apply list_lookup_middle; reflexivity | constructor].
  - cbn [c_sen c_rep fst snd]. destruct Hrs as (vs & Hvs & _).
    apply lookup_lt in Hvs. lia.
  - exists s'. split; [|exact HI'].
    unfold mbind, new_entry, mbind, new_list, new_dict. exact Hrun.
Qed.

(** [district_data[k]["senators"] = l]. *)
Lemma run_set_senators (s : store) (cells : list (string * cell)) (dd : district_data)
    (k : string) (c : cell) (sl : nat) (rs : list record) :
  Inv s cells dd ->
  PyDict.get k cells = Some c ->
  records_at s sl rs ->
  sl ∉ map (fun kc => c_rep (snd kc)) cells ->
  exists s',
    Heap.set_senators ddv k (HList sl) s = (Ret tt, s')
    /\ Inv s' (PyDict.set k (c_entry c, sl, c_rep c) cells) (Mapper.set_senators k rs dd).
Proof.
  intros HI Hk Hrs Hsl.
  pose proof (inv_get s cells dd k HI) as Hg. rewrite Hk in Hg.
  destruct Hg as (e & He & Hok).
  pose proof Hok as (_ & Hb & Ht & (d & Hd & Hds & Hdr & Hdl) & Hsen & Hrep).
  cbn [fst snd] in *.
  pose proof (get_elem_of _ _ _ Hk) as Hin.
  unfold Heap.set_senators.
  rewrite (mbind_ret _ _ _ _ _ (run_getitem_dd _ _ _ _ _ HI Hk)).
  eexists. split; [reflexivity|].
  unfold dict_at. rewrite Hd. cbn [default from_option id].
  set (s' := {| dicts := _; lists := _ |}).
  assert (Ha : agree (eq (c_entry c)) nowhere s s') by apply agree_set_dict.
  assert (Hsp : spares_records s (eq (c_entry c))).
  { apply spares_entry. exists d. auto. }
  assert (Hlt : c_entry c < length (dicts s)) by (eapply lookup_lt; exact Hd).
  unfold Mapper.set_senators, entry. rewrite He. cbn [default from_option id].
  constructor.
  - apply (prefix_agree _ _ _ (inv_dicts _ _ _ HI)); [|unfold s'; cbn [dicts]; rewrite length_insert; lia].
    intros i a Hi Hil. apply Ha; [exact Hi|]. unfold Layout.ddl in Hb. lia.
  - exact (inv_lists _ _ _ HI).
  - destruct Ha as [Ha _]. rewrite (set_map_snd (fun c => HDict (c_entry c))).
    rewrite set_same.
    + apply Ha; [exact (inv_dd _ _ _ HI) | lia].
    + rewrite (get_map_snd (fun c => HDict (c_entry c))), Hk. reflexivity.
  - apply (Forall2_set_present (cell_ok s) (cell_ok s') k c).
    + exact (inv_cells _ _ _ HI).
    + apply cell_ok_key.
    + exact (NoDup_cells _ _ _ HI).
    + exact Hk.
    + split; [reflexivity|]. cbn [fst snd c_entry c_sen c_rep senators representatives].
      split; [exact Hb|]. split; [exact Ht|]. split; [|split].
      * exists (PyDict.set "senators" (HList sl) d). unfold c_entry, c_sen, c_rep.
        cbn [fst snd]. split; [|split; [|split]].
        -- unfold s'. cbn [dicts]. apply list_lookup_insert_eq. exact Hlt.
        -- apply get_set_eq.
        -- rewrite get_set_ne by discriminate. exact Hdr.
        -- rewrite (length_set_present _ _ _ _ Hds). exact Hdl.
      * apply (records_at_agree _ _ s s' _ _ Ha Hsp); [intros [] | exact Hrs].
      * apply (records_at_agree _ _ s s' _ _ Ha Hsp); [intros [] | exact Hrep].
    + intros x y Hx Hxy Hne.
      apply (cell_ok_agree _ _ s s' _ _ Ha Hsp); [|intros []|intros []|exact Hxy].
      intros Heq. apply Hne.
      pose proof (NoDup_map_elem (fun kc : string * cell => c_entry (snd kc)) cells
                    (k, c) x (inv_entries _ _ _ HI) Hin Hx Heq) as <-.
      reflexivity.
  - rewrite (map_set_same c_entry k c); [exact (inv_entries _ _ _ HI) | exact Hk | reflexivity].
  - rewrite (map_set_same c_rep k c); [exact (inv_reps _ _ _ HI) | exact Hk | reflexivity].
  - intros kc kc' Hkc Hkc'.
    apply elem_of_set in Hkc as [->|Hkc]; apply elem_of_set in Hkc' as [->|Hkc'];
      cbn [fst snd c_sen c_rep].
    + intros Heq. apply Hsl. rewrite Heq. apply list_elem_of_fmap. exists (k, c). auto.
    + intros Heq. apply Hsl. rewrite Heq. apply list_elem_of_fmap. exists kc'. auto.
    + exact (inv_sens _ _ _ HI kc (k, c) Hkc Hin).
    + exact (inv_sens _ _ _ HI kc kc' Hkc Hkc').
Qed.

(** [district_data[k]["representatives"].append(v)]. *)
Lemma run_append_representative (s : store) (cells : list (string * cell))
    (dd : district_data) (k : string) (c : cell) (v : hval) (r : record) :
  Inv s cells dd ->
  PyDict.get k cells = Some c ->
  record_at s v r ->
  exists s',
    Heap.append_representative ddv k v s = (Ret tt, s')
    /\ Inv s' cells (Mapper.append_representative k r dd).
Proof.
  intros HI Hk Hv.
  pose proof (inv_get s cells dd k HI) as Hg. rewrite Hk in Hg.
  destruct Hg as (e & He & Hok).
  pose proof Hok as (_ & Hb & Ht & Hent & Hsen & (vs & Hvs & Hreps)).
  cbn [fst snd] in *.
  pose proof (get_elem_of _ _ _ Hk) as Hin.
  unfold Heap.append_representative.
  rewrite (mbind_ret _ _ _ _ _ (run_get_representatives _ _ _ _ _ HI Hk)).
  eexists. split; [reflexivity|].
  unfold list_at. rewrite Hvs. cbn [default from_option id].
  set (s' := {| dicts := _; lists := _ |}).
  assert (Ha : agree nowhere (eq (c_rep c)) s s') by apply agree_set_list.
  assert (Hlt : c_rep c < length (lists s)) by (eapply lookup_lt; exact Hvs).
  unfold Mapper.append_representative, set_representatives, entry.
  rewrite He. cbn [default from_option id].
  rewrite <- (set_same k cells c Hk) at 1.
  constructor.
  - exact (inv_dicts _ _ _ HI).
  - apply (prefix_agree _ _ _ (inv_lists _ _ _ HI));
      [|unfold s'; cbn [lists]; rewrite length_insert; lia].
    intros i a Hi Hil. apply Ha; [exact Hi|]. rewrite length_app in Hil. simpl in Hil.
    unfold Layout.tl in Ht. lia.
  - rewrite (set_same k cells c Hk). exact (inv_dd _ _ _ HI).
  - apply (Forall2_set_present (cell_ok s) (cell_ok s') k c).
    + exact (inv_cells _ _ _ HI).
    + apply cell_ok_key.
    + exact (NoDup_cells _ _ _ HI).
    + exact Hk.
    + split; [reflexivity|]. cbn [fst snd senators representatives].
      split; [exact Hb|]. split; [exact Ht|]. split; [|split].
      * exact (entry_at_agree _ _ s s' _ Ha (fun H => H) Hent).
      * apply (records_at_agree _ _ s s' _ _ Ha (spares_nowhere s)); [|exact Hsen].
        intros Heq. exact (inv_sens _ _ _ HI (k, c) (k, c) Hin Hin (eq_sym Heq)).
      * exists (vs ++ [v]). split.
        -- unfold s'. cbn [lists]. apply list_lookup_insert_eq. exact Hlt.
        -- apply Forall2_app.
           ++ eapply Forall2_impl; [exact Hreps|]. intros a b.
              apply (record_at_agree _ _ s s' _ _ Ha). intros p _ _ [].
           ++ constructor; [|constructor].
              apply (record_at_agree _ _ s s' _ _ Ha); [|exact Hv]. intros p _ _ [].
    + intros x y Hx Hxy Hne.
      apply (cell_ok_agree _ _ s s' _ _ Ha (spares_nowhere s)); [intros []| | |exact Hxy].
      * intros Heq. exact (inv_sens _ _ _ HI x (k, c) Hx Hin (eq_sym Heq)).
      * intros Heq. apply Hne.
        pose proof (NoDup_map_elem (fun kc : string * cell => c_rep (snd kc)) cells
                      (k, c) x (inv_reps _ _ _ HI) Hin Hx Heq) as <-.
        reflexivity.
  - rewrite (set_same k cells c Hk). exact (inv_entries _ _ _ HI).
  - rewrite (set_same k cells c Hk). exact (inv_reps _ _ _ HI).
  - rewrite (set_same k cells c Hk). exact (inv_sens _ _ _ HI).
Qed.


(** *** Reading the records of the cache *)

Lemma view_fields_atoms (d : list (string * hval)) (r : record) :
  list.mapM view_field d = Some r -> d = atoms r.
Proof.
  rewrite mapM_Some. intros H. induction H as [|[k v] [k' a] d r Hx H IH]; [reflexivity|].
  unfold view_field in Hx. cbn [fst snd] in Hx. destruct v as [a0| |]; try discriminate.
  injection Hx as -> ->. change (atoms ((k', a) :: r)) with ((k', HAtom a) :: atoms r).
  f_equal. exact IH.
Qed.

Lemma view_record_atoms (s : store) (v : hval) (r : record) :
  view_record s v = Some r -> exists p, v = HDict p /\ dicts s !! p = Some (atoms r).
Proof.
  destruct v as [a|p|l]; simpl; try discriminate.
  destruct (dicts s !! p) as [d|] eqn:Hd; simpl; [|discriminate].
  intros H. exists p. split; [reflexivity|]. rewrite Hd. f_equal.
  exact (view_fields_atoms _ _ H).
Qed.

Lemma view_records_inv (s : store) (v : hval) (rs : list record) :
  view_records s v = Some rs ->
  exists l vs, v = HList l /\ lists s !! l = Some vs
               /\ Forall2 (fun v r => view_record s v = Some r) vs rs.
Proof.
  destruct v as [a|p|l]; simpl; try discriminate.
  destruct (lists s !! l) as [vs|] eqn:Hl; simpl; [|discriminate].
  intros H. exists l, vs. split; [reflexivity|]. split; [exact Hl|].
  apply mapM_Some. exact H.
Qed.

Lemma run_get_record (s : store) (v : hval) (r : record) (k : string) (dflt : scalar) :
  view_record s v = Some r ->
  py_get v k (HAtom dflt) s = (Ret (HAtom (rec_get k dflt r)), s).
Proof.
  intros H. destruct (view_record_atoms _ _ _ H) as (p & -> & Hp).
  unfold py_get, dict_at. rewrite Hp. simpl. rewrite get_atoms. unfold rec_get.
  destruct (PyDict.get k r); reflexivity.
Qed.

Section Records.

Variable repr_container : store -> hval -> string.

Lemma run_display_name (s : store) (v : hval) (r : record) :
  view_record s v = Some r ->
  Heap.display_name repr_container v s = (Mapper.display_name r, s).
Proof.
  intros H. unfold Heap.display_name.
  rewrite (mbind_ret _ _ _ _ _ (run_get_record s v r "first_name" (SStr "") H)).
  rewrite (mbind_ret _ _ _ _ _ (run_get_record s v r "last_name" (SStr "") H)).
  unfold mbind, py_format.
  rewrite (run_get_record s v r "full_name" _ H).
  unfold Mapper.display_name, py_strip.
  destruct (rec_get "full_name" _ r) as [| | |t]; reflexivity.
Qed.

Lemma run_senator_info (s : store) (st : string) (v : hval) (r : record) :
  view_record s v = Some r ->
  Heap.senator_info repr_container st v s
  = match Mapper.senator_info st r with
    | Ret info => (Ret (HDict (length (dicts s))),
                   {| dicts := dicts s ++ [atoms info]; lists := lists s |})
    | Raise e => (Raise e, s)
    end.
Proof.
  intros H. unfold Heap.senator_info, Mapper.senator_info.
  unfold mbind at 1. rewrite (run_display_name s v r H).
  destruct (Mapper.display_name r) as [name|e]; [|reflexivity]. cbn [bind].
  rewrite (mbind_ret _ _ _ _ _ (run_get_record s v r "party" (SStr "Unknown") H)).
  rewrite (mbind_ret _ _ _ _ _ (run_get_record s v r "bioguide_id" (SStr "") H)).
  reflexivity.
Qed.

Lemma run_representative_info (s : store) (role id : string) (v : hval) (r : record) :
  view_record s v = Some r ->
  Heap.representative_info repr_container role id v s
  = match Mapper.representative_info role id r with
    | Ret info => (Ret (HDict (length (dicts s))),
                   {| dicts := dicts s ++ [atoms info]; lists := lists s |})
    | Raise e => (Raise e, s)
    end.
Proof.
  intros H. unfold Heap.representative_info, Mapper.representative_info.
  unfold mbind at 1. rewrite (run_display_name s v r H).
  destruct (Mapper.display_name r) as [name|e]; [|reflexivity]. cbn [bind].
  rewrite (mbind_ret _ _ _ _ _ (run_get_record s v r "party" (SStr "Unknown") H)).
  rewrite (mbind_ret _ _ _ _ _ (run_get_record s v r "bioguide_id" (SStr "") H)).
  reflexivity.
Qed.

(** A new record is a record of the store it is made in. *)
Lemma record_at_new (s : store) (r : record) :
  ddl < length (dicts s) ->
  record_at {| dicts := dicts s ++ [atoms r]; lists := lists s |}
    (HDict (length (dicts s))) r.
Proof.
  intros H. exists (length (dicts s)). split; [reflexivity|]. split; [exact H|].
  cbn [dicts]. apply list_lookup_middle. reflexivity.
Qed.

Lemma view_record_dicts (s s' : store) (v : hval) (r : record) :
  dicts s `prefix_of` dicts s' -> view_record s v = Some r -> view_record s' v = Some r.
Proof.
  intros He. destruct v as [a|l|l]; simpl; try discriminate.
  destruct (dicts s !! l) as [d|] eqn:Hd; simpl; [|discriminate].
  rewrite (prefix_lookup_Some _ _ _ _ Hd He). simpl. auto.
Qed.

Lemma record_at_dicts (s s' : store) (v : hval) (r : record) :
  dicts s `prefix_of` dicts s' -> record_at s v r -> record_at s' v r.
Proof.
  intros He (p & -> & Hp & Hd). exists p. split; [reflexivity|]. split; [exact Hp|].
  exact (prefix_lookup_Some _ _ _ _ Hd He).
Qed.

(** The loop that fills [senators_data], the list [out]. *)
Lemma run_senators_loop (st : string) (out : nat) (vs : list hval) :
  forall (rs : list record) (s : store) (acc : list record),
    Forall2 (fun v r => view_record s v = Some r) vs rs ->
    records_at s out acc ->
    ddl < length (dicts s) ->
    exists s',
      for_each (fun senator =>
                  let& info := Heap.senator_info repr_container st senator in
                  py_append (HList out) info) vs s
      = (match mapM (Mapper.senator_info st) rs with
         | Ret _ => Ret tt
         | Raise e => Raise e
         end, s')
      /\ dicts s `prefix_of` dicts s'
      /\ (forall l, l <> out -> lists s' !! l = lists s !! l)
      /\ length (lists s') = length (lists s)
      /\ (forall infos, mapM (Mapper.senator_info st) rs = Ret infos ->
            records_at s' out (acc ++ infos)).
Proof.
  induction vs as [|v vs IH]; intros rs s acc H Hacc Hlt;
    inversion H as [|? r ? rs' Hv Hrest]; subst.
  - exists s. split; [reflexivity|]. split; [reflexivity|]. split; [auto|]. split; [reflexivity|].
    intros infos [= <-]. rewrite app_nil_r. exact Hacc.
  - cbn [for_each mapM].
    destruct (Mapper.senator_info st r) as [info|e] eqn:Hinfo; cbn [bind].
    + destruct Hacc as (avs & Havs & Hacc).
      set (s1 := {| dicts := dicts s ++ [atoms info];
                    lists := <[out := avs ++ [HDict (length (dicts s))]]> (lists s) |}).
      assert (Hstep :
        (let& info := Heap.senator_info repr_container st v in
         py_append (HList out) info) s = (Ret tt, s1)).
      { unfold mbind. rewrite (run_senator_info s st v r Hv), Hinfo.
        unfold py_append, list_at. cbn [lists dicts]. rewrite Havs. reflexivity. }
      rewrite (mbind_ret _ _ _ _ _ Hstep).
      assert (Hpre : dicts s `prefix_of` dicts s1) by (apply prefix_app_r; reflexivity).
      assert (Hout : out < length (lists s)) by (eapply lookup_lt; exact Havs).
      destruct (IH rs' s1 (acc ++ [info])) as (s' & Hrun & Hd & Hl & Hlen & Hres).
      * eapply Forall2_impl; [exact Hrest|]. intros a b. apply view_record_dicts. exact Hpre.
      * exists (avs ++ [HDict (length (dicts s))]). split.
        -- unfold s1. cbn [lists]. apply list_lookup_insert_eq. exact Hout.
        -- apply Forall2_app.
           ++ eapply Forall2_impl; [exact Hacc|]. intros a b. apply record_at_dicts. exact Hpre.
           ++ constructor; [|constructor]. exact (record_at_new s info Hlt).
      * unfold s1. cbn [dicts]. rewrite length_app. lia.
      * exists s'. split; [|split; [|split; [|split]]].
        -- rewrite Hrun. destruct (mapM (Mapper.senator_info st) rs'); reflexivity.
        -- etrans; [exact Hpre | exact Hd].
        -- intros l Hne. rewrite (Hl l Hne). unfold s1. cbn [lists].
           apply list_lookup_insert_ne. congruence.
        -- rewrite Hlen. unfold s1. cbn [lists]. apply length_insert.
        -- intros infos Hm. destruct (mapM (Mapper.senator_info st) rs') as [infos'|];
             [|discriminate]. injection Hm as <-.
           specialize (Hres infos' eq_refl). rewrite <- app_assoc in Hres. exact Hres.
    + assert (Hstep :
        (let& info := Heap.senator_info repr_container st v in
         py_append (HList out) info) s = (Raise e, s)).
      { unfold mbind. rewrite (run_senator_info s st v r Hv), Hinfo. reflexivity. }
      rewrite (mbind_raise _ _ _ _ _ Hstep).
      exists s. split; [reflexivity|]. split; [reflexivity|]. split; [auto|].
      split; [reflexivity|]. discriminate.
Qed.

Lemma prefix_of_lookups {A : Type} (l k : list A) :
  length l <= length k -> (forall i, i < length l -> k !! i = l !! i) -> l `prefix_of` k.
Proof.
  intros Hlen H. exists (drop (length l) k). apply list_eq. intros i.
  destruct (decide (i < length l)) as [Hi|Hi].
  - rewrite lookup_app_l by exact Hi. apply H. exact Hi.
  - rewrite lookup_app_r by lia. rewrite lookup_drop.
    replace (length l + (i - length l)) with i by lia. reflexivity.
Qed.

(** [senators_data]: a new list of new records, the objects in place
    untouched. *)
Lemma run_senators_data (s : store) (st : string) (lv : hval) (rs : list record) :
  view_records s lv = Some rs ->
  ddl < length (dicts s) ->
  exists s',
    Heap.senators_data repr_container st lv s
    = (match mapM (Mapper.senator_info st) rs with
       | Ret _ => Ret (HList (length (lists s)))
       | Raise e => Raise e
       end, s')
    /\ extends s s'
    /\ (forall infos, mapM (Mapper.senator_info st) rs = Ret infos ->
          records_at s' (length (lists s)) infos).
Proof.
  intros Hv Hlt. destruct (view_records_inv _ _ _ Hv) as (l & vs & -> & Hl & Hvs).
  unfold Heap.senators_data.
  set (s1 := {| dicts := dicts s; lists := lists s ++ [[]] |}).
  assert (H1 : new_list [] s = (Ret (HList (length (lists s))), s1)) by reflexivity.
  rewrite (mbind_ret _ _ _ _ _ H1).
  assert (Hl1 : lists s1 !! l = Some vs) by (apply lookup_app_l_Some; exact Hl).
  assert (H2 : py_iter (HList l) s1 = (Ret vs, s1)).
  { unfold py_iter, list_at. rewrite Hl1. reflexivity. }
  rewrite (mbind_ret _ _ _ _ _ H2).
  destruct (run_senators_loop st (length (lists s)) vs rs s1 [])
    as (s' & Hrun & Hd & Hls & Hlen & Hres).
  - exact Hvs.
  - exists []. split; [apply list_lookup_middle; reflexivity | constructor].
  - exact Hlt.
  - exists s'. split; [|split].
    + destruct (mapM (Mapper.senator_info st) rs).
      * rewrite (mbind_ret _ _ _ _ _ Hrun). reflexivity.
      * rewrite (mbind_raise _ _ _ _ _ Hrun). reflexivity.
    + split; [exact Hd|]. apply prefix_of_lookups.
      * rewrite Hlen. unfold s1. cbn [lists]. rewrite length_app. lia.
      * intros i Hi. rewrite (Hls i) by lia. unfold s1. cbn [lists].
        apply lookup_app_l. exact Hi.
    + exact Hres.
Qed.

(** A list display of dictionary displays. *)
Lemma run_new_records (rs : list record) :
  forall s, ddl < length (dicts s) ->
    new_records rs s
    = (Ret (map HDict (seq (length (dicts s)) (length rs))),
       {| dicts := dicts s ++ map atoms rs; lists := lists s |}).
Proof.
  induction rs as [|r rs IH]; intros s Hlt; cbn [new_records].
  - unfold mret. simpl. rewrite app_nil_r. destruct s; reflexivity.
  - unfold mbind at 1. unfold new_record, new_dict. fold (atoms r).
    unfold mbind at 1. rewrite IH by (cbn [dicts]; rewrite length_app; lia).
    cbn [dicts lists]. unfold mret. rewrite length_app. cbn [length map seq].
    replace (length (dicts s) + 1) with (S (length (dicts s))) by lia.
    rewrite <- app_assoc. reflexivity.
Qed.

Lemma run_new_record_list (s : store) (rs : list record) :
  ddl < length (dicts s) ->
  exists s',
    new_record_list rs s = (Ret (HList (length (lists s))), s')
    /\ extends s s'
    /\ records_at s' (length (lists s)) rs.
Proof.
  intros Hlt. unfold new_record_list.
  rewrite (mbind_ret _ _ _ _ _ (run_new_records rs s Hlt)).
  eexists. split; [reflexivity|]. split.
  - split; cbn [dicts lists]; apply prefix_app_r; reflexivity.
  - eexists. split; [cbn [lists]; apply list_lookup_middle; reflexivity|].
    unfold Layout.record_at. cbn [dicts].
    assert (Hgen : forall (pre : list (list (string * hval))),
               ddl < length pre ->
               Forall2 (fun v r => exists p, v = HDict p /\ ddl < p
                                             /\ (pre ++ map atoms rs) !! p = Some (atoms r))
                 (map HDict (seq (length pre) (length rs))) rs).
    { induction rs as [|r rs IH]; intros pre Hpre; [constructor|].
      cbn [length seq map]. constructor.
      - exists (length pre). split; [reflexivity|]. split; [exact Hpre|].
        apply list_lookup_middle. reflexivity.
      - specialize (IH (pre ++ [atoms r])). rewrite length_app in IH. cbn [length] in IH.
        replace (length pre + 1) with (S (length pre)) in IH by lia.
        rewrite <- app_assoc in IH. apply IH. lia. }
    exact (Hgen (dicts s) Hlt).
Qed.

Lemma run_new_record (s : store) (r : record) :
  new_record r s
  = (Ret (HDict (length (dicts s))), {| dicts := dicts s ++ [atoms r]; lists := lists s |}).
Proof. reflexivity. Qed.


(** *** Reading the cache and the response *)

Variable cache data : hval.
Variable C : LegislatorCache.
Variable ids : list string.
Hypothesis Hcache : view_cache s0 cache = Some C.
Hypothesis Hids : view_ids s0 data = Some ids.

Local Abbreviation divisions_at := (Layout.divisions_at ids).

Lemma view_items_inv {B : Type} (view : hval -> option B) (items : list (string * hval))
    (buckets : list (string * B)) :
  list.mapM (view_item view) items = Some buckets ->
  Forall2 (fun kv kb => fst kv = fst kb /\ view (snd kv) = Some (snd kb)) items buckets.
Proof.
  rewrite mapM_Some. intros H. eapply Forall2_impl; [exact H|].
  intros [k v] [k' b]. unfold view_item. cbn [fst snd].
  destruct (view v) as [b0|]; simpl; [|discriminate]. intros [= -> ->]. auto.
Qed.

Lemma view_section_inv {B : Type} (view : store -> hval -> option B) (s : store)
    (d : list (string * hval)) (k : string) (sec : option (list (string * B))) :
  view_section view s d k = Some sec ->
  match PyDict.get k d with
  | None => sec = None
  | Some v =>
      exists l items buckets,
        v = HDict l /\ dicts s !! l = Some items /\ sec = Some buckets
        /\ Forall2 (fun kv kb => fst kv = fst kb /\ view s (snd kv) = Some (snd kb))
             items buckets
  end.
Proof.
  unfold view_section. destruct (PyDict.get k d) as [[a|l|l]|]; try discriminate.
  - destruct (dicts s !! l) as [items|] eqn:Hl; simpl; [|discriminate].
    destruct (list.mapM (view_item (view s)) items) as [buckets|] eqn:Hb; simpl;
      [|discriminate].
    intros [= <-]. exists l, items, buckets.
    split; [reflexivity|]. split; [exact Hl|]. split; [reflexivity|].
    exact (view_items_inv _ _ _ Hb).
  - intros [= <-]. reflexivity.
Qed.

Lemma view_cache_inv :
  exists lc dc,
    cache = HDict lc /\ dicts s0 !! lc = Some dc
    /\ view_section view_state_bucket s0 dc "states" = Some (cache_states C)
    /\ view_section view_district_bucket s0 dc "districts" = Some (cache_districts C).
Proof.
  revert Hcache. unfold view_cache. destruct cache as [a|lc|l]; try discriminate.
  destruct (dicts s0 !! lc) as [dc|] eqn:Hlc; simpl; [|discriminate].
  destruct (view_section view_state_bucket s0 dc "states") as [sts|] eqn:Hsts; simpl;
    [|discriminate].
  destruct (view_section view_district_bucket s0 dc "districts") as [ds|] eqn:Hds; simpl;
    [|discriminate].
  intros [= <-]. exists lc, dc. cbn [cache_states cache_districts].
  split; [reflexivity|]. split; [exact Hlc|]. split; [exact Hsts | exact Hds].
Qed.

Lemma Forall2_get_view {B : Type} (R : hval -> B -> Prop) (k : string)
    (items : list (string * hval)) (buckets : list (string * B)) :
  Forall2 (fun kv kb => fst kv = fst kb /\ R (snd kv) (snd kb)) items buckets ->
  match PyDict.get k items with
  | Some v => exists b, PyDict.get k buckets = Some b /\ R v b
  | None => PyDict.get k buckets = None
  end.
Proof.
  intros H. induction H as [|[kx v] [ky b] items buckets [Hk Hv] H IH]; simpl; [reflexivity|].
  cbn [fst snd] in *. subst ky.
  destruct (decide (k = kx)); [|exact IH]. exists b. auto.
Qed.

(** The guard [cache and section in cache and k in cache[section]]. *)
Lemma run_in_cache {B : Type} (view : store -> hval -> option B) (s : store)
    (lc : nat) (dc : list (string * hval)) (name k : string)
    (sec : option (list (string * B))) :
  extends s0 s ->
  dicts s0 !! lc = Some dc ->
  view_section view s0 dc name = Some sec ->
  in_cache (HDict lc) name k s
  = (Ret (match sec with Some bs => PyDict.mem k bs | None => false end), s).
Proof.
  intros He Hlc Hsec. pose proof (extends_dict _ _ _ _ He Hlc) as Hlc'.
  pose proof (view_section_inv _ _ _ _ _ Hsec) as Hinv.
  unfold in_cache.
  assert (T : py_truthy (HDict lc) s
              = (Ret (match dc with [] => false | _ => true end), s)).
  { unfold py_truthy, dict_at. rewrite Hlc'. reflexivity. }
  rewrite (mbind_ret _ _ _ _ _ T).
  destruct dc as [|kv dc']; [simpl in Hinv; subst sec; reflexivity|].
  cbn [negb].
  assert (T2 : py_contains name (HDict lc) s = (Ret (PyDict.mem name (kv :: dc')), s)).
  { unfold py_contains, dict_at. rewrite Hlc'. reflexivity. }
  rewrite (mbind_ret _ _ _ _ _ T2). unfold PyDict.mem at 1.
  destruct (PyDict.get name (kv :: dc')) as [v|] eqn:Hget; [|subst sec; reflexivity].
  destruct Hinv as (l & items & buckets & -> & Hl & -> & Hitems).
  cbn [negb].
  assert (T3 : py_getitem (HDict lc) name s = (Ret (HDict l), s)).
  { unfold py_getitem, dict_at. rewrite Hlc'. cbn [default from_option id].
    rewrite Hget. reflexivity. }
  rewrite (mbind_ret _ _ _ _ _ T3).
  unfold py_contains, dict_at. rewrite (extends_dict _ _ _ _ He Hl).
  cbn [default from_option id]. unfold PyDict.mem.
  pose proof (Forall2_get_view (fun v b => view s0 v = Some b) k _ _ Hitems) as Hg.
  destruct (PyDict.get k items).
  - destruct Hg as (b & -> & _). reflexivity.
  - rewrite Hg. reflexivity.
Qed.

Lemma truthy_records (s : store) (lv : hval) (rs : list record) :
  view_records s lv = Some rs ->
  py_truthy lv s = (Ret (match rs with [] => false | _ => true end), s).
Proof.
  intros H. destruct (view_records_inv _ _ _ H) as (l & vs & -> & Hl & Hvs).
  unfold py_truthy, list_at. rewrite Hl. destruct Hvs; reflexivity.
Qed.

(** The senators the cache has for a state. *)
Lemma run_lookup_senators (s : store) (st : string) :
  extends s0 s ->
  exists r s',
    Heap.lookup_senators cache st s = (Ret r, s')
    /\ extends s s'
    /\ match Mapper.lookup_senators C st with
       | Some rs => exists lv, r = Some lv /\ view_records s' lv = Some rs
       | None => r = None
       end.
Proof.
  intros He. destruct view_cache_inv as (lc & dc & -> & Hlc & Hsts & _).
  unfold Heap.lookup_senators, Mapper.lookup_senators.
  rewrite (mbind_ret _ _ _ _ _ (run_in_cache _ s lc dc "states" st _ He Hlc Hsts)).
  pose proof (view_section_inv _ _ _ _ _ Hsts) as Hinv.
  destruct (cache_states C) as [sts|]; [|exists None, s; split; [reflexivity|];
                                          split; [apply extends_refl | reflexivity]].
  unfold PyDict.mem.
  destruct (PyDict.get "states" dc) as [v|] eqn:Hget; [|discriminate].
  destruct Hinv as (l & items & buckets & -> & Hl & [= <-] & Hitems).
  pose proof (Forall2_get_view (fun v b => view_state_bucket s0 v = Some b) st _ _ Hitems)
    as Hg.
  destruct (PyDict.get st items) as [bv|] eqn:Hbv.
  - destruct Hg as (b & -> & Hb).
    assert (G1 : py_getitem (HDict lc) "states" s = (Ret (HDict l), s)).
    { unfold py_getitem, dict_at. rewrite (extends_dict _ _ _ _ He Hlc). simpl.
      rewrite Hget. reflexivity. }
    assert (G2 : py_getitem (HDict l) st s = (Ret bv, s)).
    { unfold py_getitem, dict_at. rewrite (extends_dict _ _ _ _ He Hl). simpl.
      rewrite Hbv. reflexivity. }
    rewrite (mbind_ret _ _ _ _ _ G1), (mbind_ret _ _ _ _ _ G2).
    set (s1 := {| dicts := dicts s; lists := lists s ++ [[]] |}).
    assert (G3 : new_list [] s = (Ret (HList (length (lists s))), s1)) by reflexivity.
    rewrite (mbind_ret _ _ _ _ _ G3).
    assert (He1 : extends s s1) by apply extends_new_list.
    assert (He01 : extends s0 s1) by exact (extends_trans _ _ _ He He1).
    unfold view_state_bucket in Hb. destruct bv as [a|lb|lb]; try discriminate.
    destruct (dicts s0 !! lb) as [db|] eqn:Hlb; simpl in Hb; [|discriminate].
    unfold mbind, py_get, dict_at, mret. rewrite (extends_dict _ _ _ _ He01 Hlb).
    cbn [default from_option id].
    destruct (PyDict.get "senators" db) as [lv|].
    + destruct (view_records s0 lv) as [rs|] eqn:Hrs; simpl in Hb; [|discriminate].
      injection Hb as <-. eexists _, s1. split; [reflexivity|]. split; [exact He1|].
      exists lv. split; [reflexivity|]. simpl.
      exact (view_records_extends _ _ _ _ He01 Hrs).
    + injection Hb as <-. eexists _, s1. split; [reflexivity|]. split; [exact He1|].
      eexists. split; [reflexivity|]. simpl. unfold s1. cbn [lists].
      rewrite list_lookup_middle by reflexivity. reflexivity.
  - rewrite Hg. exists None, s. split; [reflexivity|]. split; [apply extends_refl | reflexivity].
Qed.

(** The representative the cache has for a district, when the record
    is not empty. *)
Lemma run_lookup_representative (s : store) (did : string) :
  extends s0 s ->
  exists r,
    Heap.lookup_representative cache did s = (Ret r, s)
    /\ match Mapper.lookup_representative C did with
       | Some rec => exists v, r = Some v /\ view_record s v = Some rec
       | None => r = None
       end.
Proof.
  intros He. destruct view_cache_inv as (lc & dc & -> & Hlc & _ & Hds).
  unfold Heap.lookup_representative, Mapper.lookup_representative.
  rewrite (mbind_ret _ _ _ _ _ (run_in_cache _ s lc dc "districts" did _ He Hlc Hds)).
  pose proof (view_section_inv _ _ _ _ _ Hds) as Hinv.
  destruct (cache_districts C) as [ds|]; [|exists None; split; reflexivity].
  unfold PyDict.mem.
  destruct (PyDict.get "districts" dc) as [v|] eqn:Hget; [|discriminate].
  destruct Hinv as (l & items & buckets & -> & Hl & [= <-] & Hitems).
  pose proof (Forall2_get_view (fun v b => view_district_bucket s0 v = Some b) did _ _ Hitems)
    as Hg.
  destruct (PyDict.get did items) as [bv|] eqn:Hbv.
  - destruct Hg as (b & -> & Hb).
    assert (G1 : py_getitem (HDict lc) "districts" s = (Ret (HDict l), s)).
    { unfold py_getitem, dict_at. rewrite (extends_dict _ _ _ _ He Hlc). simpl.
      rewrite Hget. reflexivity. }
    assert (G2 : py_getitem (HDict l) did s = (Ret bv, s)).
    { unfold py_getitem, dict_at. rewrite (extends_dict _ _ _ _ He Hl). simpl.
      rewrite Hbv. reflexivity. }
    rewrite (mbind_ret _ _ _ _ _ G1), (mbind_ret _ _ _ _ _ G2).
    unfold view_district_bucket in Hb. destruct bv as [a|lb|lb]; try discriminate.
    destruct (dicts s0 !! lb) as [db|] eqn:Hlb; simpl in Hb; [|discriminate].
    assert (G3 : py_get (HDict lb) "representative" (HAtom SNone) s
                 = (Ret (default (HAtom SNone) (PyDict.get "representative" db)), s)).
    { unfold py_get, dict_at. rewrite (extends_dict _ _ _ _ He Hlb). reflexivity. }
    rewrite (mbind_ret _ _ _ _ _ G3).
    destruct (PyDict.get "representative" db) as [rv|]; cbn [default from_option].
    + destruct (view_record s0 rv) as [rec|] eqn:Hrec; simpl in Hb; [|discriminate].
      injection Hb as <-. cbn [cached_representative].
      pose proof (view_record_extends _ _ _ _ He Hrec) as Hrec'.
      destruct (view_record_atoms _ _ _ Hrec') as (p & -> & Hp).
      assert (T : py_truthy (HDict p) s
                  = (Ret (match rec with [] => false | _ => true end), s)).
      { unfold py_truthy, dict_at. rewrite Hp. destruct rec; reflexivity. }
      rewrite (mbind_ret _ _ _ _ _ T). unfold mret.
      destruct rec as [|kv rec].
      * exists None. split; reflexivity.
      * eexists. split; [reflexivity|]. eexists. split; [reflexivity | exact Hrec'].
    + injection Hb as <-. cbn [cached_representative]. exists None. split; reflexivity.
  - rewrite Hg. exists None. split; reflexivity.
Qed.


(** *** The mapper on the store does what the mapper on values does *)

Lemma sim_ret (dd : district_data) : simulates (mret tt) dd (Ret dd).
Proof. intros s cells HI. exists s. split; [reflexivity|]. exists cells. exact HI. Qed.

Lemma sim_bind (m : M unit) (k : unit -> M unit) (dd : district_data)
    (p : res district_data) (q : district_data -> res district_data) :
  simulates m dd p ->
  (forall dd', p = Ret dd' -> simulates (k tt) dd' (q dd')) ->
  simulates (mbind m k) dd (bind p q).
Proof.
  intros Hm Hk s cells HI. destruct (Hm s cells HI) as (s1 & H).
  destruct p as [dd'|e]; cbn [bind].
  - destruct H as (Hrun & cells' & HI'). rewrite (mbind_ret _ _ _ _ _ Hrun).
    exact (Hk dd' eq_refl s1 cells' HI').
  - destruct H as (Hrun & He). exists s1. rewrite (mbind_raise _ _ _ _ _ Hrun). auto.
Qed.

Lemma sim_bind_ret (m : M unit) (k : unit -> M unit) (dd dd1 : district_data)
    (p : res district_data) :
  simulates m dd (Ret dd1) -> simulates (k tt) dd1 p -> simulates (mbind m k) dd p.
Proof.
  intros Hm Hk. exact (sim_bind m k dd (Ret dd1) (fun _ => p) Hm (fun dd' H => 
    match H in _ = r return match r with Ret x => simulates (k tt) x p | Raise _ => True end
    with eq_refl => Hk end)).
Qed.

Lemma sim_lift {A : Type} (r : res A) (k : A -> M unit) (dd : district_data)
    (q : A -> res district_data) :
  (forall a, r = Ret a -> simulates (k a) dd (q a)) ->
  simulates (mbind (lift r) k) dd (bind r q).
Proof.
  intros Hk s cells HI. destruct r as [a|e]; cbn [bind].
  - unfold mbind, lift. exact (Hk a eq_refl s cells HI).
  - exists s. split; [reflexivity | exact (inv_extends _ _ _ HI)].
Qed.

(** A step that returns [a] and writes to no object in place. *)
Lemma sim_quiet {A : Type} (m : M A) (a : A) (k : A -> M unit) (dd : district_data)
    (p : res district_data) :
  (forall s cells, Inv s cells dd -> exists s', m s = (Ret a, s') /\ extends s s') ->
  simulates (k a) dd p ->
  simulates (mbind m k) dd p.
Proof.
  intros Hm Hk s cells HI. destruct (Hm s cells HI) as (s1 & Hrun & He).
  rewrite (mbind_ret _ _ _ _ _ Hrun). exact (Hk s1 cells (inv_mono _ _ _ _ He HI)).
Qed.

Lemma sim_contains (k' : string) (k : bool -> M unit) (dd : district_data)
    (p : res district_data) :
  simulates (k (PyDict.mem k' dd)) dd p ->
  simulates (mbind (py_contains k' ddv) k) dd p.
Proof.
  apply sim_quiet. intros s cells HI. exists s.
  split; [exact (run_contains_dd _ _ _ _ HI) | apply extends_refl].
Qed.

(** A raise after steps that wrote to no object in place. *)
Lemma sim_raise_after (m : M unit) (dd : district_data) (e : exn) :
  (forall s cells, Inv s cells dd -> exists s', m s = (Raise e, s') /\ extends s s') ->
  simulates m dd (Raise e).
Proof.
  intros Hm s cells HI. destruct (Hm s cells HI) as (s' & Hrun & He).
  exists s'. split; [exact Hrun|]. exact (extends_trans _ _ _ (inv_extends _ _ _ HI) He).
Qed.

(** Keys of [district_data] that stay. *)
Lemma mem_set {V : Type} (k k' : string) (v : V) (d : list (string * V)) :
  k = k' \/ PyDict.mem k d = true -> PyDict.mem k (PyDict.set k' v d) = true.
Proof.
  intros H. unfold PyDict.mem. destruct (decide (k = k')) as [->|Hne].
  - rewrite get_set_eq. reflexivity.
  - rewrite get_set_ne by exact Hne. destruct H as [H|H]; [contradiction | exact H].
Qed.

Lemma mem_set_senators (k k' : string) (l : list record) (dd : district_data) :
  PyDict.mem k dd = true -> PyDict.mem k (Mapper.set_senators k' l dd) = true.
Proof. intros H. apply mem_set. right. exact H. Qed.

Lemma mem_append_representative (k k' : string) (r : record) (dd : district_data) :
  PyDict.mem k dd = true -> PyDict.mem k (Mapper.append_representative k' r dd) = true.
Proof. intros H. apply mem_set. right. exact H. Qed.

Lemma mem_ensure (k : string) (dd : district_data) :
  PyDict.mem k (Mapper.ensure k dd) = true.
Proof.
  unfold Mapper.ensure. destruct (PyDict.mem k dd) eqn:H; [exact H|].
  apply mem_set. left. reflexivity.
Qed.

Lemma mem_ensure_other (k k' : string) (dd : district_data) :
  PyDict.mem k dd = true -> PyDict.mem k (Mapper.ensure k' dd) = true.
Proof.
  intros H. unfold Mapper.ensure. destruct (PyDict.mem k' dd); [exact H|].
  apply mem_set. right. exact H.
Qed.

(** Lines 35 and 36, 119 and 120, 160 and 161. *)
Lemma sim_ensure (k : string) (dd : district_data) :
  simulates (Heap.ensure ddv k) dd (Ret (Mapper.ensure k dd)).
Proof.
  unfold Heap.ensure, Mapper.ensure. apply sim_contains.
  destruct (PyDict.mem k dd); [apply sim_ret|].
  intros s cells HI.
  set (s1 := {| dicts := dicts s; lists := lists s ++ [[]] |}).
  assert (H1 : new_list [] s = (Ret (HList (length (lists s))), s1)) by reflexivity.
  rewrite (mbind_ret _ _ _ _ _ H1).
  destruct (inv_fresh _ _ _ HI) as (_ & F2 & _).
  destruct (run_new_entry_set s1 cells dd k (length (lists s)) [])
    as (s' & Hrun & HI').
  - exact (inv_new_list _ _ _ _ HI).
  - exists []. split; [apply list_lookup_middle; reflexivity | constructor].
  - exact F2.
  - exists s'. split; [exact Hrun|]. eexists. exact HI'.
Qed.

(** Lines 39 to 53. *)
Lemma sim_cached_state_senators (st target : string) (dd : district_data) :
  PyDict.mem target dd = true ->
  simulates
    (let& cached := Heap.lookup_senators cache st in
     match cached with
     | Some l =>
         let& some := py_truthy l in
         if some then
           let& data := Heap.senators_data repr_container st l in
           Heap.set_senators ddv target data
         else mret tt
     | None => mret tt
     end)
    dd
    (match Mapper.lookup_senators C st with
     | Some (r :: l) =>
         let* senators_data := mapM (Mapper.senator_info st) (r :: l) in
         Ret (Mapper.set_senators target senators_data dd)
     | _ => Ret dd
     end).
Proof.
  intros Hm s cells HI.
  destruct (run_lookup_senators s st (inv_extends _ _ _ HI)) as (r & s1 & Hrun & He1 & Hr).
  rewrite (mbind_ret _ _ _ _ _ Hrun).
  pose proof (inv_mono _ _ _ _ He1 HI) as HI1.
  destruct (Mapper.lookup_senators C st) as [rs|].
  - destruct Hr as (lv & -> & Hlv).
    rewrite (mbind_ret _ _ _ _ _ (truthy_records _ _ _ Hlv)).
    destruct rs as [|r0 rs].
    + exists s1. split; [reflexivity|]. exists cells. exact HI1.
    + destruct (run_senators_data s1 st lv (r0 :: rs) Hlv (inv_ddl_lt _ _ _ HI1))
        as (s2 & Hrun2 & He2 & Hres).
      pose proof (inv_mono _ _ _ _ He2 HI1) as HI2.
      destruct (mapM (Mapper.senator_info st) (r0 :: rs)) as [infos|e]; cbn [bind].
      * rewrite (mbind_ret _ _ _ _ _ Hrun2).
        destruct (inv_cell _ _ _ target HI2 Hm) as (c & Hc & _).
        destruct (inv_fresh _ _ _ HI1) as (_ & F2 & _).
        destruct (run_set_senators s2 cells dd target c (length (lists s1)) infos HI2 Hc
                    (Hres infos eq_refl) F2) as (s3 & Hrun3 & HI3).
        exists s3. split; [exact Hrun3|]. eexists. exact HI3.
      * rewrite (mbind_raise _ _ _ _ _ Hrun2). exists s2. split; [reflexivity|].
        exact (inv_extends _ _ _ HI2).
  - subst r. exists s1. split; [reflexivity|]. exists cells. exact HI1.
Qed.

(** Lines 56 to 68. *)
Lemma sim_default_state_senators (st : string) (dd : district_data) :
  PyDict.mem st dd = true ->
  simulates (Heap.default_state_senators ddv st) dd
    (Ret (match senators (entry st dd) with
          | [] => Mapper.set_senators st (Mapper.placeholder_senators st) dd
          | _ => dd
          end)).
Proof.
  intros Hm s cells HI. unfold Heap.default_state_senators.
  destruct (inv_cell _ _ _ st HI Hm) as (c & Hc & Hok & Hin).
  rewrite (mbind_ret _ _ _ _ _ (run_get_senators _ _ _ _ _ HI Hc)).
  destruct Hok as (_ & _ & _ & _ & Hsen & _). cbn [fst snd] in Hsen.
  rewrite (mbind_ret _ _ _ _ _ (run_truthy_records _ _ _ Hsen)).
  destruct (senators (entry st dd)) as [|r rs].
  - destruct (run_new_record_list s (Mapper.placeholder_senators st) (inv_ddl_lt _ _ _ HI))
      as (s1 & Hrun1 & He1 & Hrs).
    rewrite (mbind_ret _ _ _ _ _ Hrun1).
    pose proof (inv_mono _ _ _ _ He1 HI) as HI1.
    destruct (inv_fresh _ _ _ HI) as (_ & F2 & _).
    destruct (run_set_senators s1 cells dd st c (length (lists s)) _ HI1 Hc Hrs F2)
      as (s2 & Hrun2 & HI2).
    exists s2. split; [exact Hrun2|]. eexists. exact HI2.
  - exists s. split; [reflexivity|]. exists cells. exact HI.
Qed.

Lemma sim_fill_state_senators (st : string) (dd : district_data) :
  PyDict.mem st dd = true ->
  simulates (Heap.fill_state_senators repr_container cache ddv st) dd
    (Mapper.fill_state_senators C st dd).
Proof.
  intros Hm. unfold Heap.fill_state_senators, Mapper.fill_state_senators.
  apply sim_bind; [exact (sim_cached_state_senators st st dd Hm)|].
  intros dd1 Hdd1. apply sim_default_state_senators.
  destruct (Mapper.lookup_senators C st) as [[|r l]|]; try (injection Hdd1 as <-; exact Hm).
  destruct (mapM (Mapper.senator_info st) (r :: l)); [|discriminate].
  injection Hdd1 as <-. apply mem_set_senators. exact Hm.
Qed.

(** Lines 191 to 219. *)
Lemma sim_cached_district_senators (st did : string) (dd : district_data) :
  PyDict.mem did dd = true ->
  simulates (Heap.cached_district_senators repr_container cache ddv st did) dd
    (match Mapper.lookup_senators C st with
     | Some (r :: l) =>
         let* senators_data := mapM (Mapper.senator_info st) (r :: l) in
         Ret (Mapper.set_senators did senators_data dd)
     | Some [] => Ret dd
     | None => Ret (Mapper.set_senators did (Mapper.placeholder_senators st) dd)
     end).
Proof.
  intros Hm. unfold Heap.cached_district_senators.
  destruct (Mapper.lookup_senators C st) as [rs|] eqn:Hl.
  - pose proof (sim_cached_state_senators st did dd Hm) as H. rewrite Hl in H.
    intros s cells HI. specialize (H s cells HI).
    destruct (run_lookup_senators s st (inv_extends _ _ _ HI)) as (r & s1 & Hrun & He1 & Hr).
    rewrite Hl in Hr. destruct Hr as (lv & -> & Hlv).
    rewrite (mbind_ret _ _ _ _ _ Hrun) in H. rewrite (mbind_ret _ _ _ _ _ Hrun).
    destruct rs; exact H.
  - intros s cells HI.
    destruct (run_lookup_senators s st (inv_extends _ _ _ HI)) as (r & s1 & Hrun & He1 & Hr).
    rewrite Hl in Hr. subst r. rewrite (mbind_ret _ _ _ _ _ Hrun).
    pose proof (inv_mono _ _ _ _ He1 HI) as HI1.
    destruct (run_new_record_list s1 (Mapper.placeholder_senators st) (inv_ddl_lt _ _ _ HI1))
      as (s2 & Hrun2 & He2 & Hrs).
    rewrite (mbind_ret _ _ _ _ _ Hrun2).
    pose proof (inv_mono _ _ _ _ He2 HI1) as HI2.
    destruct (inv_cell _ _ _ did HI2 Hm) as (c & Hc & _).
    destruct (inv_fresh _ _ _ HI1) as (_ & F2 & _).
    destruct (run_set_senators s2 cells dd did c (length (lists s1)) _ HI2 Hc Hrs F2)
      as (s3 & Hrun3 & HI3).
    exists s3. split; [exact Hrun3|]. eexists. exact HI3.
Qed.

(** Lines 186 to 219. *)
Lemma sim_fill_district_senators (st did : string) (dd : district_data) :
  PyDict.mem did dd = true ->
  simulates (Heap.fill_district_senators repr_container cache ddv st did) dd
    (Mapper.fill_district_senators C st did dd).
Proof.
  intros Hm. unfold Heap.fill_district_senators, Mapper.fill_district_senators.
  destruct (PyStr.nonempty st); [|apply sim_ret].
  apply sim_contains. destruct (PyDict.mem st dd) eqn:Hst; cbn [andb].
  - intros s cells HI.
    destruct (inv_cell _ _ _ st HI Hst) as (c & Hc & Hok & Hin).
    pose proof Hok as (_ & _ & _ & _ & Hsen & _). cbn [fst snd] in Hsen.
    assert (T : (let& l := get_senators ddv st in py_truthy l) s
                = (Ret (match senators (entry st dd) with [] => false | _ => true end), s)).
    { rewrite (mbind_ret _ _ _ _ _ (run_get_senators _ _ _ _ _ HI Hc)).
      exact (run_truthy_records _ _ _ Hsen). }
    rewrite (mbind_ret _ _ _ _ _ T).
    destruct (senators (entry st dd)) as [|r rs] eqn:Hss.
    + exact (sim_cached_district_senators st did dd Hm s cells HI).
    + rewrite (mbind_ret _ _ _ _ _ (run_get_senators _ _ _ _ _ HI Hc)).
      destruct (inv_cell _ _ _ did HI Hm) as (c' & Hc' & _).
      destruct (run_set_senators s cells dd did c' (c_sen c) (r :: rs) HI Hc' Hsen)
        as (s1 & Hrun1 & HI1).
      * intros Hx. apply list_elem_of_fmap in Hx as (kc & Heq & Hkc).
        exact (inv_sens _ _ _ HI (st, c) kc Hin Hkc Heq).
      * exists s1. split; [exact Hrun1|]. eexists. exact HI1.
  - unfold mret at 1. unfold mbind at 1.
    exact (sim_cached_district_senators st did dd Hm).
Qed.

(** Lines 82 to 85 and 231 to 234. *)
Lemma sim_copy_state_entry (sc did : string) (dd : district_data) :
  PyDict.mem sc dd = true ->
  simulates (Heap.copy_state_entry ddv sc did) dd
    (Ret (PyDict.set did {| senators := senators (entry sc dd); representatives := [] |} dd)).
Proof.
  intros Hm s cells HI. unfold Heap.copy_state_entry.
  destruct (inv_cell _ _ _ sc HI Hm) as (c & Hc & Hok & Hin).
  rewrite (mbind_ret _ _ _ _ _ (run_get_senators _ _ _ _ _ HI Hc)).
  destruct Hok as (_ & _ & _ & _ & (vs & Hvs & Hrs) & _). cbn [fst snd] in Hvs, Hrs.
  set (s1 := {| dicts := dicts s; lists := lists s ++ [vs] |}).
  assert (H1 : py_copy (HList (c_sen c)) s = (Ret (HList (length (lists s))), s1)).
  { unfold py_copy, new_list, list_at. rewrite Hvs. reflexivity. }
  rewrite (mbind_ret _ _ _ _ _ H1).
  destruct (inv_fresh _ _ _ HI) as (_ & F2 & _).
  destruct (run_new_entry_set s1 cells dd did (length (lists s)) (senators (entry sc dd)))
    as (s' & Hrun & HI').
  - exact (inv_new_list _ _ _ _ HI).
  - exists vs. split; [apply list_lookup_middle; reflexivity|].
    eapply Forall2_impl; [exact Hrs|]. intros a b.
    apply record_at_extends. apply extends_new_list.
  - exact F2.
  - exists s'. split; [exact Hrun|]. eexists. exact HI'.
Qed.

(** Lines 88 to 98 and 125 to 136. *)
Lemma sim_cached_representative_into (role did : string) (dd : district_data) :
  PyDict.mem did dd = true ->
  simulates (Heap.cached_representative_into repr_container cache ddv role did) dd
    (match Mapper.lookup_representative C did with
     | Some cached_rep =>
         let* rep_data := Mapper.representative_info role did cached_rep in
         Ret (Mapper.append_representative did rep_data dd)
     | None => Ret dd
     end).
Proof.
  intros Hm s cells HI. unfold Heap.cached_representative_into.
  destruct (run_lookup_representative s did (inv_extends _ _ _ HI)) as (r & Hrun & Hr).
  rewrite (mbind_ret _ _ _ _ _ Hrun).
  destruct (Mapper.lookup_representative C did) as [rec|].
  - destruct Hr as (v & -> & Hv).
    pose proof (run_representative_info s role did v rec Hv) as Hri.
    destruct (Mapper.representative_info role did rec) as [info|e]; cbn [bind].
    + rewrite (mbind_ret _ _ _ _ _ Hri).
      set (s1 := {| dicts := dicts s ++ [atoms info]; lists := lists s |}).
      destruct (inv_cell _ _ _ did HI Hm) as (c & Hc & _).
      destruct (run_append_representative s1 cells dd did c (HDict (length (dicts s))) info)
        as (s2 & Hrun2 & HI2).
      * exact (inv_new_dict _ _ _ _ HI).
      * exact Hc.
      * exact (record_at_new s info (inv_ddl_lt _ _ _ HI)).
      * exists s2. split; [exact Hrun2|]. eexists. exact HI2.
    + rewrite (mbind_raise _ _ _ _ _ Hri).
      exists s. split; [reflexivity | exact (inv_extends _ _ _ HI)].
  - subst r. exists s. split; [reflexivity|]. exists cells. exact HI.
Qed.

(** Lines 101 to 106 and 139 to 145. *)
Lemma sim_default_representative (did : string) (placeholder : record)
    (dd : district_data) :
  PyDict.mem did dd = true ->
  simulates (Heap.default_representative ddv did placeholder) dd
    (Ret (match representatives (entry did dd) with
          | [] => Mapper.append_representative did placeholder dd
          | _ => dd
          end)).
Proof.
  intros Hm s cells HI. unfold Heap.default_representative.
  destruct (inv_cell _ _ _ did HI Hm) as (c & Hc & Hok & Hin).
  rewrite (mbind_ret _ _ _ _ _ (run_get_representatives _ _ _ _ _ HI Hc)).
  destruct Hok as (_ & _ & _ & _ & _ & Hrep). cbn [fst snd] in Hrep.
  rewrite (mbind_ret _ _ _ _ _ (run_truthy_records _ _ _ Hrep)).
  destruct (representatives (entry did dd)) as [|r rs].
  - rewrite (mbind_ret _ _ _ _ _ (run_new_record s placeholder)).
    destruct (run_append_representative
                {| dicts := dicts s ++ [atoms placeholder]; lists := lists s |}
                cells dd did c (HDict (length (dicts s))) placeholder)
      as (s2 & Hrun2 & HI2).
    + exact (inv_new_dict _ _ _ _ HI).
    + exact Hc.
    + exact (record_at_new s placeholder (inv_ddl_lt _ _ _ HI)).
    + exists s2. split; [exact Hrun2|]. eexists. exact HI2.
  - exists s. split; [reflexivity|]. exists cells. exact HI.
Qed.

Lemma sim_create_at_large (sc did : string) (dd : district_data) :
  PyDict.mem sc dd = true ->
  simulates (Heap.create_at_large repr_container cache ddv sc did) dd
    (Generic.create_at_large C sc did dd).
Proof.
  intros Hm. unfold Heap.create_at_large, Generic.create_at_large.
  eapply sim_bind_ret; [exact (sim_copy_state_entry sc did dd Hm)|].
  assert (Hm1 : PyDict.mem did
                  (PyDict.set did {| senators := senators (entry sc dd);
                                     representatives := [] |} dd) = true).
  { apply mem_set. left. reflexivity. }
  cbv zeta.
  apply sim_bind.
  { exact (sim_cached_representative_into "Representative" did _ Hm1). }
  intros dd2 Hdd2. apply sim_default_representative.
  destruct (Mapper.lookup_representative C did) as [rec|].
  - destruct (Mapper.representative_info "Representative" did rec); [|discriminate].
    injection Hdd2 as <-. apply mem_append_representative. exact Hm1.
  - injection Hdd2 as <-. exact Hm1.
Qed.


(** *** The response *)

Lemma divisions_at_extends (s s' : store) (dv : hval) :
  extends s s' -> divisions_at s dv -> divisions_at s' dv.
Proof.
  intros He (l & items & -> & Hl & Hk). exists l, items.
  split; [reflexivity|]. split; [exact (extends_dict _ _ _ _ He Hl) | exact Hk].
Qed.

Lemma run_new_empty_dict (s : store) :
  new_dict [] s = (Ret (HDict (length (dicts s))), with_empty_dict s).
Proof. reflexivity. Qed.

Lemma extends_with_empty_dict (s : store) : extends s (with_empty_dict s).
Proof. apply extends_new_dict. Qed.

Lemma run_divisions (s : store) :
  extends s0 s ->
  exists dv,
    py_get data "divisions" (HDict (length (dicts s))) (with_empty_dict s)
    = (Ret dv, with_empty_dict s)
    /\ divisions_at (with_empty_dict s) dv.
Proof.
  intros He. revert Hids. unfold view_ids. destruct data as [a|ld|l]; try discriminate.
  destruct (dicts s0 !! ld) as [d0|] eqn:Hld; simpl; [|discriminate].
  pose proof (extends_with_empty_dict s) as He1.
  assert (Hld1 : dicts (with_empty_dict s) !! ld = Some d0).
  { exact (extends_dict _ _ _ _ (extends_trans _ _ _ He He1) Hld). }
  intros Hget. unfold py_get, dict_at. rewrite Hld1. cbn [default from_option id].
  destruct (PyDict.get "divisions" d0) as [[a|l'|l']|]; try discriminate.
  - destruct (dicts s0 !! l') as [divs|] eqn:Hl'; simpl in Hget; [|discriminate].
    injection Hget as Hk. eexists. split; [reflexivity|].
    exists l', divs. split; [reflexivity|]. split; [|exact Hk].
    exact (extends_dict _ _ _ _ (extends_trans _ _ _ He He1) Hl').
  - injection Hget as Hk. eexists. split; [reflexivity|].
    exists (length (dicts s)), []. split; [reflexivity|]. split; [|exact Hk].
    unfold with_empty_dict. cbn [dicts]. apply list_lookup_middle. reflexivity.
Qed.

Lemma run_iter_divisions (s : store) (dv : hval) :
  divisions_at s dv ->
  py_iter dv s = (Ret (map (fun k => HAtom (SStr k)) ids), s).
Proof.
  intros (l & items & -> & Hl & <-). unfold py_iter, dict_at. rewrite Hl. reflexivity.
Qed.

Lemma run_items_divisions (s : store) (dv : hval) :
  divisions_at s dv ->
  exists items, py_items dv s = (Ret items, s) /\ map fst items = ids.
Proof.
  intros (l & items & -> & Hl & <-). exists items. unfold py_items, dict_at. rewrite Hl.
  split; reflexivity.
Qed.

Lemma run_exists_first (f : hval -> M bool) (g : string -> bool) (s : store)
    (ks : list string) :
  (forall k, f (HAtom (SStr k)) s = (Ret (g k), s)) ->
  exists_first f (map (fun k => HAtom (SStr k)) ks) s = (Ret (existsb g ks), s).
Proof.
  intros Hf. induction ks as [|k ks IH]; [reflexivity|].
  cbn [map exists_first existsb]. rewrite (mbind_ret _ _ _ _ _ (Hf k)).
  destruct (g k); [reflexivity | exact IH].
Qed.

Lemma run_contains_text (needle k : string) (s : store) :
  py_contains needle (HAtom (SStr k)) s = (Ret (PyStr.contains needle k), s).
Proof. reflexivity. Qed.

(** Lines 76 to 79. *)
Lemma run_has_numbered_district (s : store) (st : string) :
  extends s0 s ->
  exists s',
    has_numbered_district data st s
    = (Ret (existsb
              (fun other_id =>
                 PyStr.contains ("state:" +:+ PyStr.lower st +:+ "/cd:") other_id
                 && negb (PyStr.contains "cd:al" other_id)) ids), s')
    /\ extends s s'.
Proof.
  intros He. destruct (run_divisions s He) as (dv & Hrun & Hdv).
  exists (with_empty_dict s). split; [|apply extends_with_empty_dict].
  unfold has_numbered_district.
  rewrite (mbind_ret _ _ _ _ _ (run_new_empty_dict s)).
  rewrite (mbind_ret _ _ _ _ _ Hrun).
  rewrite (mbind_ret _ _ _ _ _ (run_iter_divisions _ _ Hdv)).
  apply run_exists_first. intros k.
  rewrite (mbind_ret _ _ _ _ _ (run_contains_text _ k _)).
  destruct (PyStr.contains _ k); [|reflexivity].
  rewrite (mbind_ret _ _ _ _ _ (run_contains_text "cd:al" k _)). reflexivity.
Qed.

(** Lines 259 to 266. *)
Lemma run_is_test_response (s : store) :
  extends s0 s ->
  exists s',
    is_test_response repr_container data s
    = (Ret (existsb
              (fun ocd_id =>
                 existsb (fun ocd_path => PyStr.contains ocd_path ocd_id)
                   Generic.test_paths) ids), s')
    /\ extends s s'.
Proof.
  intros He. destruct (run_divisions s He) as (dv & Hrun & Hdv).
  exists (with_empty_dict s). split; [|apply extends_with_empty_dict].
  unfold is_test_response.
  rewrite (mbind_ret _ _ _ _ _ (run_new_empty_dict s)).
  rewrite (mbind_ret _ _ _ _ _ Hrun).
  rewrite (mbind_ret _ _ _ _ _ (run_iter_divisions _ _ Hdv)).
  apply run_exists_first. intros k. reflexivity.
Qed.

(** *** Keys that stay, on values *)

Lemma mem_fill_state_senators (k st : string) (dd dd' : district_data) :
  PyDict.mem k dd = true ->
  Mapper.fill_state_senators C st dd = Ret dd' -> PyDict.mem k dd' = true.
Proof.
  intros Hm. unfold Mapper.fill_state_senators.
  destruct (Mapper.lookup_senators C st) as [[|r l]|]; cbn [bind].
  2: destruct (mapM (Mapper.senator_info st) (r :: l)) as [sd|]; cbn [bind]; [|discriminate].
  all: intros [= <-].
  all: repeat match goal with
       | |- PyDict.mem _ (match ?x with [] => _ | _ => _ end) = true => destruct x
       | |- PyDict.mem _ (Mapper.set_senators _ _ _) = true => apply mem_set_senators
       end; exact Hm.
Qed.

Lemma mem_create_at_large (k sc did : string) (dd dd' : district_data) :
  PyDict.mem k dd = true ->
  Generic.create_at_large C sc did dd = Ret dd' -> PyDict.mem k dd' = true.
Proof.
  intros Hm. unfold Generic.create_at_large.
  assert (H1 : PyDict.mem k (PyDict.set did {| senators := senators (entry sc dd);
                                               representatives := [] |} dd) = true).
  { apply mem_set. right. exact Hm. }
  revert H1. generalize (PyDict.set did {| senators := senators (entry sc dd);
                                          representatives := [] |} dd) as dd1.
  intros dd1 H1. cbv zeta.
  destruct (Mapper.lookup_representative C did) as [rec|]; cbn [bind].
  1: destruct (Mapper.representative_info "Representative" did rec); cbn [bind];
       [|discriminate].
  all: intros [= <-].
  all: repeat match goal with
       | |- PyDict.mem _ (match ?x with [] => _ | _ => _ end) = true => destruct x
       | |- PyDict.mem _ (Mapper.append_representative _ _ _) = true =>
           apply mem_append_representative
       end; exact H1.
Qed.

(** *** The three branches *)

Lemma sim_state_division (tv : hval) (ocd_id : string) (dd : district_data) :
  simulates (Heap.state_division repr_container data cache ddv ocd_id) dd
    (Generic.state_division ids C ocd_id dd).
Proof.
  unfold Heap.state_division, Generic.state_division.
  apply sim_lift. intros piece _. cbv zeta.
  eapply sim_bind_ret; [apply sim_ensure|].
  apply sim_bind; [apply sim_fill_state_senators; apply mem_ensure|].
  intros dd2 Hdd2.
  eapply sim_quiet.
  { intros s cells HI. exact (run_has_numbered_district s _ (inv_extends _ _ _ HI)). }
  destruct (negb (existsb _ ids)); cbn [andb]; [|apply sim_ret].
  apply sim_contains. destruct (PyDict.mem _ dd2); cbn [negb]; [apply sim_ret|].
  apply sim_create_at_large.
  exact (mem_fill_state_senators _ _ _ _ (mem_ensure _ _) Hdd2).
Qed.

Lemma contains_territory (code : string) (l : list string) :
  existsb (fun x => match x with
                    | HAtom (SStr t) => bool_decide (t = code)
                    | _ => false
                    end) (map (fun c => HAtom (SStr c)) l)
  = bool_decide (code ∈ l).
Proof.
  induction l as [|t l IH]; cbn [map existsb].
  - symmetry. apply bool_decide_eq_false. intros H. inversion H.
  - rewrite IH. destruct (decide (t = code)) as [->|Hne].
    + rewrite bool_decide_eq_true_2 by reflexivity. symmetry.
      apply bool_decide_eq_true. left.
    + rewrite (bool_decide_eq_false_2 _ Hne). cbn [orb].
      apply bool_decide_ext. rewrite elem_of_cons. split; [auto|].
      intros [->|H]; [contradiction | exact H].
Qed.

Lemma run_contains_territories (s : store) (cells : list (string * cell))
    (dd : district_data) (code : string) :
  Inv s cells dd ->
  py_contains code tv s = (Ret (bool_decide (code ∈ Generic.territories)), s).
Proof.
  intros HI. unfold py_contains, Layout.tv, list_at.
  assert (H : lists s !! tl = Some territories_list).
  { eapply prefix_lookup_Some; [|exact (inv_lists _ _ _ HI)].
    apply list_lookup_middle. reflexivity. }
  rewrite H. cbn [default from_option id]. unfold territories_list.
  rewrite contains_territory. reflexivity.
Qed.

Lemma sim_territory_division (ocd_id : string) (dd : district_data) :
  simulates (Heap.territory_division repr_container cache ddv tv ocd_id) dd
    (Generic.territory_division C ocd_id dd).
Proof.
  unfold Heap.territory_division, Generic.territory_division.
  apply sim_lift. intros code _. cbv zeta.
  eapply sim_bind_ret; [apply sim_ensure|].
  eapply sim_quiet.
  { intros s cells HI. exists s.
    split; [exact (run_contains_territories _ _ _ code HI) | apply extends_refl]. }
  destruct (bool_decide (code ∈ Generic.territories)); [|apply sim_ret].
  apply sim_bind.
  { apply sim_cached_representative_into. apply mem_ensure. }
  intros dd2 Hdd2. apply sim_default_representative.
  destruct (Mapper.lookup_representative C (code +:+ "-AL")) as [rec|].
  - destruct (Mapper.representative_info _ _ rec); [|discriminate].
    injection Hdd2 as <-. apply mem_append_representative. apply mem_ensure.
  - injection Hdd2 as <-. apply mem_ensure.
Qed.

Lemma sim_cd_division (ocd_id : string) (dd : district_data) :
  simulates (Heap.cd_division repr_container cache ddv ocd_id) dd
    (Generic.cd_division C ocd_id dd).
Proof.
  unfold Heap.cd_division, Generic.cd_division.
  apply sim_lift. intros parts _. cbv zeta.
  set (st := fst parts). set (did := Mapper.cd_district_id st (snd parts)).
  eapply sim_bind_ret; [apply sim_ensure|].
  pose proof (mem_ensure did dd) as Hm.
  intros s cells HI.
  rewrite (mbind_ret _ _ _ _ _ (run_new_record s (Mapper.placeholder_representative did))).
  set (s1 := {| dicts := dicts s ++ [atoms (Mapper.placeholder_representative did)];
                lists := lists s |}).
  pose proof (inv_new_dict _ _ _ (atoms (Mapper.placeholder_representative did)) HI) as HI1.
  fold s1 in HI1.
  pose proof (record_at_new s (Mapper.placeholder_representative did) (inv_ddl_lt _ _ _ HI))
    as Hph. fold s1 in Hph.
  destruct (run_lookup_representative s1 did (inv_extends _ _ _ HI1)) as (r & Hrun & Hr).
  rewrite (mbind_ret _ _ _ _ _ Hrun).
  destruct (inv_cell _ _ _ did HI1 Hm) as (c & Hc & _).
  destruct (Mapper.lookup_representative C did) as [rec|].
  - destruct Hr as (v & -> & Hv).
    pose proof (run_representative_info s1 "Representative" did v rec Hv) as Hri.
    destruct (Mapper.representative_info "Representative" did rec) as [info|e]; cbn [bind].
    + rewrite (mbind_ret _ _ _ _ _ Hri).
      destruct (run_append_representative
                  {| dicts := dicts s1 ++ [atoms info]; lists := lists s1 |}
                  cells (Mapper.ensure did dd) did c (HDict (length (dicts s1))) info)
        as (s2 & Hrun2 & HI2).
      * exact (inv_new_dict _ _ _ _ HI1).
      * exact Hc.
      * exact (record_at_new s1 info (inv_ddl_lt _ _ _ HI1)).
      * rewrite (mbind_ret _ _ _ _ _ Hrun2).
        apply (sim_fill_district_senators st did _
                 (mem_append_representative _ _ _ _ Hm) s2 cells HI2).
    + rewrite (mbind_raise _ _ _ _ _ Hri).
      exists s1. split; [reflexivity | exact (inv_extends _ _ _ HI1)].
  - subst r. cbn [bind].
    assert (H0 : mret (HDict (length (dicts s))) s1 = (Ret (HDict (length (dicts s))), s1))
      by reflexivity.
    rewrite (mbind_ret _ _ _ _ _ H0).
    destruct (run_append_representative s1 cells (Mapper.ensure did dd) did c
                (HDict (length (dicts s)))
                (Mapper.placeholder_representative did) HI1 Hc Hph)
      as (s2 & Hrun2 & HI2).
    rewrite (mbind_ret _ _ _ _ _ Hrun2).
    apply (sim_fill_district_senators st did _
             (mem_append_representative _ _ _ _ Hm) s2 cells HI2).
Qed.

Lemma sim_process_division (ocd_id : string) (dd : district_data) :
  simulates (Heap.process_division repr_container data cache ddv tv ocd_id) dd
    (Generic.process_division ids C dd ocd_id).
Proof.
  unfold Heap.process_division, Generic.process_division.
  apply sim_lift. intros bare _.
  destruct bare; [apply (sim_state_division tv)|].
  destruct (PyStr.contains "district:" (PyStr.lower ocd_id)); [apply sim_territory_division|].
  destruct (PyStr.contains "/cd:" ocd_id); [apply sim_cd_division | apply sim_ret].
Qed.

(** The loop over the divisions. *)
Lemma sim_divisions_loop (items : list (string * hval)) :
  forall dd,
    simulates
      (for_each (fun item =>
                   Heap.process_division repr_container data cache ddv tv (fst item))
         items)
      dd (foldM (Generic.process_division ids C) (map fst items) dd).
Proof.
  induction items as [|item items IH]; intros dd; cbn [for_each map foldM].
  - apply sim_ret.
  - apply sim_bind; [apply sim_process_division|]. intros dd' _. apply IH.
Qed.

(** Lines 222 to 255. *)
Lemma mem_keys {V : Type} (k : string) (d : list (string * V)) :
  k ∈ PyDict.keys d -> PyDict.mem k d = true.
Proof.
  unfold PyDict.mem, PyDict.keys. induction d as [|[k' v] d IH]; simpl; intros H.
  - inversion H.
  - destruct (decide (k = k')); [reflexivity|].
    apply elem_of_cons in H as [H|H]; [contradiction | exact (IH H)].
Qed.

Lemma sim_at_large_loop (codes : list string) :
  forall dd,
    (forall sc, sc ∈ codes -> PyDict.mem sc dd = true) ->
    simulates
      (for_each
         (fun state_code =>
            if negb (String.length state_code =? 2)%nat then mret tt
            else
              let district_id := state_code +:+ "-AL" in
              let& present := py_contains district_id ddv in
              if present then mret tt
              else Heap.create_at_large repr_container cache ddv state_code district_id)
         codes)
      dd
      (foldM (fun dd' state_code =>
                if negb (String.length state_code =? 2)%nat then Ret dd'
                else
                  let district_id := state_code +:+ "-AL" in
                  if PyDict.mem district_id dd' then Ret dd'
                  else Generic.create_at_large C state_code district_id dd')
         codes dd).
Proof.
  induction codes as [|sc codes IH]; intros dd Hm; cbn [for_each foldM].
  - apply sim_ret.
  - apply sim_bind.
    + destruct (negb (String.length sc =? 2)%nat); [apply sim_ret|]. cbv zeta.
      apply sim_contains. destruct (PyDict.mem (sc +:+ "-AL") dd); [apply sim_ret|].
      apply sim_create_at_large. apply Hm. left.
    + intros dd' Hdd'. apply IH. intros sc' Hsc'.
      assert (Hold : PyDict.mem sc' dd = true) by (apply Hm; right; exact Hsc').
      destruct (negb (String.length sc =? 2)%nat); [injection Hdd' as <-; exact Hold|].
      cbv zeta in Hdd'. destruct (PyDict.mem (sc +:+ "-AL") dd);
        [injection Hdd' as <-; exact Hold|].
      exact (mem_create_at_large _ _ _ _ _ Hold Hdd').
Qed.

Lemma sim_at_large_from_states (dd : district_data) :
  simulates (Heap.at_large_from_states repr_container cache ddv) dd
    (Generic.at_large_from_states C dd).
Proof.
  unfold Heap.at_large_from_states, Generic.at_large_from_states.
  eapply sim_quiet.
  { intros s cells HI. exists s. split; [exact (run_keys_dd _ _ _ HI) | apply extends_refl]. }
  eapply sim_quiet.
  { intros s cells HI. exists s. split; [exact (run_truthy_dd _ _ _ HI) | apply extends_refl]. }
  destruct (negb (existsb (PyStr.contains "-") (PyDict.keys dd))
            && match dd with [] => false | _ => true end); [|apply sim_ret].
  eapply sim_quiet.
  { intros s cells HI. exists s. split; [exact (run_keys_dd _ _ _ HI) | apply extends_refl]. }
  apply sim_at_large_loop. intros sc. apply mem_keys.
Qed.


(** *** The fixtures of the test suite *)

Lemma run_new_test_entry (s : store) (first : bool) (e : DistrictEntry) :
  ddl < length (dicts s) ->
  exists s' c,
    new_test_entry first e s = (Ret (HDict (c_entry c)), s')
    /\ extends s s'
    /\ entry_at s' c
    /\ records_at s' (c_sen c) (senators e)
    /\ records_at s' (c_rep c) (representatives e)
    /\ length (dicts s) <= c_entry c
    /\ length (lists s) <= c_sen c
    /\ length (lists s) <= c_rep c
    /\ c_sen c <> c_rep c.
Proof.
  intros Hlt. unfold new_test_entry. destruct first.
  - destruct (run_new_record_list s (representatives e) Hlt) as (s1 & R1 & E1 & H1).
    destruct (extends_length _ _ E1) as [Ld1 Ll1].
    destruct (run_new_record_list s1 (senators e)) as (s2 & R2 & E2 & H2); [lia|].
    rewrite (mbind_ret _ _ _ _ _ R1), (mbind_ret _ _ _ _ _ R2).
    set (d := [("representatives", HList (length (lists s)));
               ("senators", HList (length (lists s1)))]).
    set (s3 := {| dicts := dicts s2 ++ [d]; lists := lists s2 |}).
    assert (E3 : extends s2 s3) by apply extends_new_dict.
    destruct (extends_length _ _ E2) as [Ld2 Ll2].
    assert (Hl1 : length (lists s) < length (lists s1)).
    { destruct H1 as (vs & Hvs & _). exact (lookup_lt _ _ _ Hvs). }
    exists s3, (length (dicts s2), length (lists s1), length (lists s)).
    unfold c_entry, c_sen, c_rep. cbn [fst snd].
    split; [reflexivity|].
    split; [exact (extends_trans _ _ _ E1 (extends_trans _ _ _ E2 E3))|].
    split; [|split; [|split]].
    + exists d. unfold c_entry, c_sen, c_rep. cbn [fst snd].
      split; [unfold s3; cbn [dicts]; apply list_lookup_middle; reflexivity|].
      repeat split.
    + exact (records_at_extends _ _ _ _ E3 H2).
    + exact (records_at_extends _ _ _ _ (extends_trans _ _ _ E2 E3) H1).
    + lia.
  - destruct (run_new_record_list s (senators e) Hlt) as (s1 & R1 & E1 & H1).
    destruct (extends_length _ _ E1) as [Ld1 Ll1].
    destruct (run_new_record_list s1 (representatives e)) as (s2 & R2 & E2 & H2); [lia|].
    rewrite (mbind_ret _ _ _ _ _ R1), (mbind_ret _ _ _ _ _ R2).
    set (d := [("senators", HList (length (lists s)));
               ("representatives", HList (length (lists s1)))]).
    set (s3 := {| dicts := dicts s2 ++ [d]; lists := lists s2 |}).
    assert (E3 : extends s2 s3) by apply extends_new_dict.
    destruct (extends_length _ _ E2) as [Ld2 Ll2].
    assert (Hl1 : length (lists s) < length (lists s1)).
    { destruct H1 as (vs & Hvs & _). exact (lookup_lt _ _ _ Hvs). }
    exists s3, (length (dicts s2), length (lists s), length (lists s1)).
    unfold c_entry, c_sen, c_rep. cbn [fst snd].
    split; [reflexivity|].
    split; [exact (extends_trans _ _ _ E1 (extends_trans _ _ _ E2 E3))|].
    split; [|split; [|split]].
    + exists d. unfold c_entry, c_sen, c_rep. cbn [fst snd].
      split; [unfold s3; cbn [dicts]; apply list_lookup_middle; reflexivity|].
      repeat split.
    + exact (records_at_extends _ _ _ _ (extends_trans _ _ _ E2 E3) H1).
    + exact (records_at_extends _ _ _ _ E3 H2).
    + lia.
Qed.

Lemma cell_ok_set_dd (s s' : store) (kc : string * cell) (kv : string * DistrictEntry) :
  agree (eq ddl) nowhere s s' -> cell_ok s kc kv -> cell_ok s' kc kv.
Proof.
  intros Ha Hok. apply (cell_ok_agree (eq ddl) nowhere s s').
  - exact Ha.
  - apply spares_ddl.
  - destruct Hok as (_ & Hb & _). lia.
  - intros [].
  - intros [].
  - exact Hok.
Qed.

(** Lines 305 to 314, for one value of [test_data]. *)
Lemma run_apply_test_case (s : store) (cells : list (string * cell)) (dd : district_data)
    (tid : string) (c : cell) (ent : DistrictEntry) :
  Inv s cells dd ->
  cell_ok s (tid, c) (tid, ent) ->
  c_entry c ∉ map (fun kc => c_entry (snd kc)) cells ->
  c_rep c ∉ map (fun kc => c_rep (snd kc)) cells ->
  c_rep c ∉ map (fun kc => c_sen (snd kc)) cells ->
  c_sen c ∉ map (fun kc => c_rep (snd kc)) cells ->
  c_sen c <> c_rep c ->
  exists s' cells',
    apply_test_case data ddv (tid, HDict (c_entry c)) s = (Ret tt, s')
    /\ Inv s' cells'
         (if existsb (Generic.test_applies tid) ids then PyDict.set tid ent dd else dd)
    /\ (forall kc kv, cell_ok s kc kv -> cell_ok s' kc kv)
    /\ (forall kc, kc ∈ cells' -> kc = (tid, c) \/ kc ∈ cells)
    /\ length (dicts s) <= length (dicts s') /\ length (lists s) <= length (lists s').
Proof.
  intros HI Hok F1 F2 F3 F4 F5. unfold apply_test_case.
  destruct (run_divisions s (inv_extends _ _ _ HI)) as (dv & Hrun & Hdv).
  rewrite (mbind_ret _ _ _ _ _ (run_new_empty_dict s)).
  rewrite (mbind_ret _ _ _ _ _ Hrun).
  rewrite (mbind_ret _ _ _ _ _ (run_iter_divisions _ _ Hdv)).
  pose proof (extends_with_empty_dict s) as He1.
  pose proof (inv_mono _ _ _ _ He1 HI) as HI1.
  assert (Hw : exists_first
                 (fun ocd_id =>
                    let test_id := fst (tid, HDict (c_entry c)) in
                    let& ca :=
                      if bool_decide (test_id = "CA-12")
                      then py_contains "/state:ca/cd:12" ocd_id else mret false in
                    if ca then mret true
                    else
                      let& dc :=
                        if bool_decide (test_id = "DC-AL")
                        then py_contains "/district:dc" ocd_id else mret false in
                      if dc then mret true
                      else if bool_decide (test_id = "VT-AL") then
                        let& vt := py_contains "/state:vt" ocd_id in
                        if vt then let& cd := py_contains "/cd:" ocd_id in mret (negb cd)
                        else mret false
                      else mret false)
                 (map (fun k => HAtom (SStr k)) ids) (with_empty_dict s)
               = (Ret (existsb (Generic.test_applies tid) ids), with_empty_dict s)).
  { apply run_exists_first. intros k. cbn [fst]. unfold Generic.test_applies.
    destruct (bool_decide (tid = "CA-12")); cbn [andb orb].
    - rewrite (mbind_ret _ _ _ _ _ (run_contains_text _ k _)).
      destruct (PyStr.contains "/state:ca/cd:12" k); cbn [orb]; [reflexivity|].
      destruct (bool_decide (tid = "DC-AL")); cbn [andb orb].
      + rewrite (mbind_ret _ _ _ _ _ (run_contains_text _ k _)).
        destruct (PyStr.contains "/district:dc" k); cbn [orb]; [reflexivity|].
        destruct (bool_decide (tid = "VT-AL")); cbn [andb]; [|reflexivity].
        rewrite (mbind_ret _ _ _ _ _ (run_contains_text _ k _)).
        destruct (PyStr.contains "/state:vt" k); cbn [andb]; [|reflexivity].
        rewrite (mbind_ret _ _ _ _ _ (run_contains_text _ k _)). reflexivity.
      + unfold mret at 1. unfold mbind at 1.
        destruct (bool_decide (tid = "VT-AL")); cbn [andb]; [|reflexivity].
        rewrite (mbind_ret _ _ _ _ _ (run_contains_text _ k _)).
        destruct (PyStr.contains "/state:vt" k); cbn [andb]; [|reflexivity].
        rewrite (mbind_ret _ _ _ _ _ (run_contains_text _ k _)). reflexivity.
    - unfold mret at 1. unfold mbind at 1.
      destruct (bool_decide (tid = "DC-AL")); cbn [andb orb].
      + rewrite (mbind_ret _ _ _ _ _ (run_contains_text _ k _)).
        destruct (PyStr.contains "/district:dc" k); cbn [orb]; [reflexivity|].
        destruct (bool_decide (tid = "VT-AL")); cbn [andb]; [|reflexivity].
        rewrite (mbind_ret _ _ _ _ _ (run_contains_text _ k _)).
        destruct (PyStr.contains "/state:vt" k); cbn [andb]; [|reflexivity].
        rewrite (mbind_ret _ _ _ _ _ (run_contains_text _ k _)). reflexivity.
      + unfold mret at 1. unfold mbind at 1.
        destruct (bool_decide (tid = "VT-AL")); cbn [andb]; [|reflexivity].
        rewrite (mbind_ret _ _ _ _ _ (run_contains_text _ k _)).
        destruct (PyStr.contains "/state:vt" k); cbn [andb]; [|reflexivity].
        rewrite (mbind_ret _ _ _ _ _ (run_contains_text _ k _)). reflexivity. }
  rewrite (mbind_ret _ _ _ _ _ Hw). cbn [fst snd].
  destruct (extends_length _ _ He1) as [Ld Ll].
  destruct (existsb (Generic.test_applies tid) ids).
  - destruct (run_set_entry (with_empty_dict s) cells dd tid c ent HI1)
      as (s' & Hset & HI' & Ha & Hlen & Hlists); try assumption.
    { exact (cell_ok_extends _ _ _ _ He1 Hok). }
    exists s', (PyDict.set tid c cells). split; [exact Hset|]. split; [exact HI'|].
    split; [|split; [|split]].
    + intros kc kv H. apply (cell_ok_set_dd _ _ _ _ Ha).
      exact (cell_ok_extends _ _ _ _ He1 H).
    + intros kc. apply elem_of_set.
    + lia.
    + rewrite Hlists. exact Ll.
  - exists (with_empty_dict s), cells. split; [reflexivity|]. split; [exact HI1|].
    split; [|split; [|split]].
    + intros kc kv. apply cell_ok_extends. exact He1.
    + intros kc H. right. exact H.
    + exact Ld.
    + exact Ll.
Qed.



Lemma above_fresh (s : store) (cells : list (string * cell)) (c : cell) :
  (forall kc, kc ∈ cells -> below s (snd kc)) ->
  above s c ->
  (c_entry c ∉ map (fun kc => c_entry (snd kc)) cells)
  /\ (c_rep c ∉ map (fun kc => c_rep (snd kc)) cells)
  /\ (c_rep c ∉ map (fun kc => c_sen (snd kc)) cells)
  /\ (c_sen c ∉ map (fun kc => c_rep (snd kc)) cells).
Proof.
  intros Hb (A1 & A2 & A3).
  repeat split; intros Hin; apply list_elem_of_fmap in Hin as (kc & Heq & Hin);
    destruct (Hb kc Hin) as (B1 & B2 & B3); lia.
Qed.

Lemma below_mono (s s' : store) (c : cell) :
  length (dicts s) <= length (dicts s') -> length (lists s) <= length (lists s') ->
  below s c -> below s' c.
Proof. intros H1 H2 (B1 & B2 & B3). unfold below. lia. Qed.

Lemma cell_ok_below (s : store) (kc : string * cell) (kv : string * DistrictEntry) :
  cell_ok s kc kv -> below s (snd kc).
Proof. apply cell_ok_bounds. Qed.

(** A value of [test_data] just made, as a cell. *)
Lemma run_new_test_cell (s : store) (cells : list (string * cell)) (dd : district_data)
    (first : bool) (tid : string) (e : DistrictEntry) :
  Inv s cells dd ->
  exists s' c,
    new_test_entry first e s = (Ret (HDict (c_entry c)), s')
    /\ extends s s'
    /\ cell_ok s' (tid, c) (tid, e)
    /\ above s c
    /\ c_sen c <> c_rep c.
Proof.
  intros HI.
  destruct (run_new_test_entry s first e (inv_ddl_lt _ _ _ HI))
    as (s' & c & Hrun & He & Hent & Hsen & Hrep & A1 & A2 & A3 & Hne).
  exists s', c. split; [exact Hrun|]. split; [exact He|].
  pose proof (inv_ddl_lt _ _ _ HI). pose proof (inv_tl_lt _ _ _ HI).
  split; [|split; [repeat split; assumption | exact Hne]].
  split; [reflexivity|]. cbn [fst snd]. split; [lia|]. split; [lia|].
  split; [exact Hent|]. split; [exact Hsen | exact Hrep].
Qed.

(** Lines 257 to 314. *)
Lemma sim_apply_test_data (dd : district_data) :
  simulates (Heap.apply_test_data repr_container data ddv) dd
    (Ret (Generic.apply_test_data ids dd)).
Proof.
  intros s cells HI. unfold Heap.apply_test_data, Generic.apply_test_data.
  destruct (run_is_test_response s (inv_extends _ _ _ HI)) as (s1 & Hrun1 & He1).
  rewrite (mbind_ret _ _ _ _ _ Hrun1).
  pose proof (inv_mono _ _ _ _ He1 HI) as HI1.
  destruct (existsb _ ids); [|exists s1; split; [reflexivity|]; exists cells; exact HI1].
  destruct (run_new_test_cell s1 cells dd true "CA-12"
              (Mapper.entry "CA-12" Generic.test_data) HI1)
    as (sa & ca & Ra & Ea & Oka & Aa & Na).
  pose proof (inv_mono _ _ _ _ Ea HI1) as HIa.
  destruct (run_new_test_cell sa cells dd true "DC-AL"
              (Mapper.entry "DC-AL" Generic.test_data) HIa)
    as (sb & cb & Rb & Eb & Okb & Ab & Nb).
  pose proof (inv_mono _ _ _ _ Eb HIa) as HIb.
  destruct (run_new_test_cell sb cells dd false "VT-AL"
              (Mapper.entry "VT-AL" Generic.test_data) HIb)
    as (sc & cc & Rc & Ec & Okc & Ac & Nc).
  pose proof (inv_mono _ _ _ _ Ec HIb) as HIc.
  set (cases := [("CA-12", HDict (c_entry ca)); ("DC-AL", HDict (c_entry cb));
                 ("VT-AL", HDict (c_entry cc))]).
  set (sd := {| dicts := dicts sc ++ [cases]; lists := lists sc |}).
  assert (Rtd : new_test_data s1 = (Ret (HDict (length (dicts sc))), sd)).
  { unfold new_test_data.
    rewrite (mbind_ret _ _ _ _ _ Ra), (mbind_ret _ _ _ _ _ Rb), (mbind_ret _ _ _ _ _ Rc).
    reflexivity. }
  assert (Rit : py_items (HDict (length (dicts sc))) sd = (Ret cases, sd)).
  { unfold py_items, dict_at, sd. cbn [dicts].
    rewrite list_lookup_middle by reflexivity. reflexivity. }
  rewrite (mbind_ret _ _ _ _ _ Rtd), (mbind_ret _ _ _ _ _ Rit).
  unfold cases. cbn [for_each].
  assert (Ed : extends sc sd) by apply extends_new_dict.
  pose proof (inv_mono _ _ _ _ Ed HIc) as HId.
  destruct (extends_length _ _ Ea) as [Lda Lla].
  destruct (extends_length _ _ Eb) as [Ldb Llb].
  destruct (extends_length _ _ Ec) as [Ldc Llc].
  assert (Hcells : forall kc, kc ∈ cells -> below s1 (snd kc)).
  { intros kc Hin. exact (inv_bounds _ _ _ kc HI1 Hin). }
  (* CA-12 *)
  destruct (above_fresh s1 cells ca Hcells Aa) as (F1 & F2 & F3 & F4).
  destruct (run_apply_test_case sd cells dd "CA-12" ca _ HId
              (cell_ok_extends _ _ _ _
                 (extends_trans _ _ _ Eb (extends_trans _ _ _ Ec Ed)) Oka)
              F1 F2 F3 F4 Na)
    as (s2 & cells2 & R2 & HI2 & K2 & In2 & Ld2 & Ll2).
  rewrite (mbind_ret _ _ _ _ _ R2).
  (* DC-AL *)
  assert (Hcells2 : forall kc, kc ∈ cells2 -> below sa (snd kc)).
  { intros kc Hin. destruct (In2 kc Hin) as [->|Hin'].
    - exact (cell_ok_below _ _ _ Oka).
    - exact (below_mono _ _ _ Lda Lla (Hcells kc Hin')). }
  destruct (above_fresh sa cells2 cb Hcells2 Ab) as (G1 & G2 & G3 & G4).
  destruct (run_apply_test_case s2 cells2 _ "DC-AL" cb _ HI2
              (K2 _ _ (cell_ok_extends _ _ _ _ (extends_trans _ _ _ Ec Ed) Okb))
              G1 G2 G3 G4 Nb)
    as (s3 & cells3 & R3 & HI3 & K3 & In3 & Ld3 & Ll3).
  rewrite (mbind_ret _ _ _ _ _ R3).
  (* VT-AL *)
  assert (Hcells3 : forall kc, kc ∈ cells3 -> below sb (snd kc)).
  { intros kc Hin. destruct (In3 kc Hin) as [->|Hin'].
    - exact (cell_ok_below _ _ _ Okb).
    - exact (below_mono _ _ _ Ldb Llb (Hcells2 kc Hin')). }
  destruct (above_fresh sb cells3 cc Hcells3 Ac) as (J1 & J2 & J3 & J4).
  destruct (run_apply_test_case s3 cells3 _ "VT-AL" cc _ HI3
              (K3 _ _ (K2 _ _ (cell_ok_extends _ _ _ _ Ed Okc))) J1 J2 J3 J4 Nc)
    as (s4 & cells4 & R4 & HI4 & _).
  rewrite (mbind_ret _ _ _ _ _ R4).
  exists s4. split; [reflexivity|]. exists cells4. exact HI4.
Qed.

(** *** The dictionary returned *)

Lemma view_fields_of_atoms (r : record) : list.mapM view_field (atoms r) = Some r.
Proof.
  apply mapM_Some. induction r as [|[k a] r IH]; constructor; [reflexivity | exact IH].
Qed.

Lemma view_record_at (s : store) (v : hval) (r : record) :
  record_at s v r -> view_record s v = Some r.
Proof.
  intros (p & -> & _ & Hp). unfold view_record. rewrite Hp. simpl.
  apply view_fields_of_atoms.
Qed.

Lemma view_records_at (s : store) (l : nat) (rs : list record) :
  records_at s l rs -> view_records s (HList l) = Some rs.
Proof.
  intros (vs & Hvs & Hrs). unfold view_records. rewrite Hvs. simpl.
  apply mapM_Some. eapply Forall2_impl; [exact Hrs|]. intros v r. apply view_record_at.
Qed.

Lemma view_entry_cell (s : store) (kc : string * cell) (kv : string * DistrictEntry) :
  cell_ok s kc kv -> view_entry s (HDict (c_entry (snd kc))) = Some (snd kv).
Proof.
  intros (_ & _ & _ & (d & Hd & Hs & Hr & Hlen) & Hsen & Hrep).
  unfold view_entry. rewrite Hd. cbn [base.mbind option_bind]. rewrite Hs, Hr.
  cbn [base.mbind option_bind].
  rewrite (view_records_at _ _ _ Hsen), (view_records_at _ _ _ Hrep).
  cbn [base.mbind option_bind]. rewrite Hlen. destruct (snd kv). reflexivity.
Qed.

(** The loop that fills [result_data], the last dictionary made. *)
Lemma run_entries_loop (D : list (list (string * hval))) (L : list (list hval))
    (items : list (string * hval)) :
  forall acc,
    for_each (fun kv =>
                if PyStr.contains "-" (fst kv)
                then py_setitem (HDict (length D)) (fst kv) (snd kv)
                else mret tt) items
      {| dicts := D ++ [acc]; lists := L |}
    = (Ret tt,
       {| dicts := D ++ [fold_left (fun a kv =>
                                      if PyStr.contains "-" (fst kv)
                                      then PyDict.set (fst kv) (snd kv) a else a)
                           items acc];
          lists := L |}).
Proof.
  induction items as [|kv items IH]; intros acc; cbn [for_each fold_left]; [reflexivity|].
  destruct (PyStr.contains "-" (fst kv)).
  - assert (H : py_setitem (HDict (length D)) (fst kv) (snd kv)
                  {| dicts := D ++ [acc]; lists := L |}
                = (Ret tt, {| dicts := D ++ [PyDict.set (fst kv) (snd kv) acc];
                              lists := L |})).
    { unfold py_setitem, dict_at. cbn [dicts lists].
      rewrite list_lookup_middle by reflexivity. cbn [default from_option id].
      rewrite insert_app_r_alt by lia. rewrite Nat.sub_diag. reflexivity. }
    rewrite (mbind_ret _ _ _ _ _ H). apply IH.
  - unfold mbind, mret. apply IH.
Qed.

Lemma fold_set_filter {V : Type} (p : string -> bool) (items : list (string * V)) :
  forall acc,
    NoDup (PyDict.keys acc ++ PyDict.keys items) ->
    fold_left (fun a kv => if p (fst kv) then PyDict.set (fst kv) (snd kv) a else a)
      items acc
    = acc ++ PyDict.filter_keys p items.
Proof.
  unfold PyDict.filter_keys.
  induction items as [|[k v] items IH]; intros acc Hnd; cbn [fold_left List.filter fst snd].
  - rewrite app_nil_r. reflexivity.
  - assert (Hk : ~ In k (PyDict.keys acc)).
    { intros Hin. apply NoDup_app in Hnd as (_ & Hd & _).
      apply (Hd k); [apply list_elem_of_In; exact Hin | left]. }
    assert (Hnd' : forall acc' : list (string * V),
                     PyDict.keys acc' = PyDict.keys acc ++ [k] ->
                     NoDup (PyDict.keys acc' ++ PyDict.keys items)).
    { intros acc' ->. rewrite <- app_assoc. exact Hnd. }
    destruct (p k).
    + rewrite IH.
      * rewrite (set_fresh _ _ _ Hk), <- app_assoc. reflexivity.
      * apply Hnd'. rewrite (set_fresh _ _ _ Hk). unfold PyDict.keys.
        rewrite map_app. reflexivity.
    + apply IH. apply NoDup_app in Hnd as (H1 & H2 & H3).
      apply NoDup_app. split; [exact H1|]. split.
      * intros x Hx Hin. apply (H2 x Hx). right. exact Hin.
      * apply NoDup_cons in H3 as [_ H3]. exact H3.
Qed.

Lemma Forall2_filter_keys {A B : Type} (R : string * A -> string * B -> Prop)
    (p : string -> bool) (l : list (string * A)) (d : list (string * B)) :
  Forall2 R l d -> (forall x y, R x y -> fst x = fst y) ->
  Forall2 R (PyDict.filter_keys p l) (PyDict.filter_keys p d).
Proof.
  intros H Hkey. unfold PyDict.filter_keys.
  induction H as [|x y l d Hxy H IH]; cbn [List.filter]; [constructor|].
  rewrite (Hkey _ _ Hxy). destruct (p (fst y)); [constructor; assumption | exact IH].
Qed.

(** Lines 317 to 323. *)
Lemma run_district_entries (s : store) (cells : list (string * cell))
    (dd : district_data) :
  Inv s cells dd ->
  NoDup (PyDict.keys dd) ->
  exists v s',
    (let& result_data := district_entries ddv in
     new_dict [("districts", result_data)]) s = (Ret v, s')
    /\ extends s s'
    /\ view_result s' v
       = Some {| result_districts := PyDict.filter_keys (PyStr.contains "-") dd |}.
Proof.
  intros HI Hnd. unfold district_entries.
  set (items := map (fun kc => (fst kc, HDict (c_entry (snd kc)))) cells).
  set (result := PyDict.filter_keys (PyStr.contains "-") items).
  set (s' := {| dicts := (dicts s ++ [result])
                         ++ [[("districts", HDict (length (dicts s)))]];
                lists := lists s |}).
  assert (He : extends s s').
  { split; unfold s'; cbn [dicts lists]; [|reflexivity].
    rewrite <- app_assoc. apply prefix_app_r. reflexivity. }
  exists (HDict (S (length (dicts s)))), s'. split; [|split; [exact He|]].
  - assert (H1 : new_dict [] s
                 = (Ret (HDict (length (dicts s))),
                    {| dicts := dicts s ++ [[]]; lists := lists s |})) by reflexivity.
    assert (H2 : py_items ddv {| dicts := dicts s ++ [[]]; lists := lists s |}
                 = (Ret items, {| dicts := dicts s ++ [[]]; lists := lists s |})).
    { unfold py_items, Layout.ddv, dict_at. cbn [dicts].
      rewrite (lookup_app_l_Some _ _ _ _ (inv_dd _ _ _ HI)). reflexivity. }
    unfold mbind at 1. unfold mbind at 1. rewrite H1.
    unfold mbind at 1. rewrite H2.
    unfold mbind at 1. rewrite (run_entries_loop (dicts s) (lists s) items []).
    unfold mret, new_dict. cbn [dicts lists]. rewrite length_app. cbn [length].
    replace (length (dicts s) + 1) with (S (length (dicts s))) by lia.
    unfold s'. rewrite fold_set_filter.
    + reflexivity.
    + cbn [PyDict.keys map app]. unfold items.
      assert (Hk : PyDict.keys
                     (map (fun kc : string * cell => (fst kc, HDict (c_entry (snd kc)))) cells)
                   = PyDict.keys dd).
      { rewrite <- (Forall2_keys _ _ _ (inv_cells _ _ _ HI) (cell_ok_key s)).
        unfold PyDict.keys. rewrite map_map. reflexivity. }
      rewrite Hk. exact Hnd.
  - assert (Hl1 : dicts s' !! S (length (dicts s))
                  = Some [("districts", HDict (length (dicts s)))]).
    { unfold s'. cbn [dicts]. apply list_lookup_middle.
      rewrite length_app. cbn [length]. lia. }
    assert (Hl2 : dicts s' !! length (dicts s) = Some result).
    { unfold s'. cbn [dicts]. apply lookup_app_l_Some.
      apply list_lookup_middle. reflexivity. }
    unfold view_result. rewrite Hl1. cbn [base.mbind option_bind].
    destruct (decide ("districts" = "districts")) as [_|Hne]; [|contradiction].
    rewrite Hl2. cbn [base.mbind option_bind].
    assert (Hm : list.mapM (view_item (view_entry s')) result
                 = Some (PyDict.filter_keys (PyStr.contains "-") dd)).
    { apply mapM_Some. unfold result, items.
      pose proof (Forall2_filter_keys _ (PyStr.contains "-") _ _
                    (inv_cells _ _ _ HI) (cell_ok_key s)) as Hf.
      revert Hf. generalize (PyDict.filter_keys (PyStr.contains "-") dd) as fd.
      unfold PyDict.filter_keys.
      assert (Hfm : forall (cs : list (string * cell)),
                 List.filter (fun kv : string * hval => PyStr.contains "-" (fst kv))
                   (map (fun kc : string * cell => (fst kc, HDict (c_entry (snd kc)))) cs)
                 = map (fun kc : string * cell => (fst kc, HDict (c_entry (snd kc))))
                     (List.filter (fun kc : string * cell => PyStr.contains "-" (fst kc)) cs)).
      { induction cs as [|kc cs IH]; [reflexivity|]. cbn [map List.filter fst].
        destruct (PyStr.contains "-" (fst kc)); cbn [map]; rewrite IH; reflexivity. }
      rewrite Hfm. generalize (List.filter (fun kc : string * cell =>
                                              PyStr.contains "-" (fst kc)) cells) as cs.
      intros cs fd Hf. induction Hf as [|kc kv cs fd Hok Hf IH]; cbn [map]; constructor.
      - unfold view_item. cbn [fst snd].
        rewrite (view_entry_extends _ _ _ _ He (view_entry_cell _ _ _ Hok)). simpl.
        destruct Hok as [-> _]. destruct kv; reflexivity.
      - exact IH. }
    rewrite Hm. reflexivity.
Qed.


(** *** The whole call *)

Lemma inv_started : Inv started [] [].
Proof.
  split; unfold Layout.started; cbn [dicts lists map].
  - apply prefix_app_r. reflexivity.
  - reflexivity.
  - apply list_lookup_middle. reflexivity.
  - constructor.
  - constructor.
  - constructor.
  - intros kc kc' Hin. apply elem_of_nil in Hin. contradiction.
Qed.

(** A call in [s0] returns what the mapper of the model returns, as an
    object of a store that extends [s0]. *)
Lemma parse_result_refines (D : DivisionResponse) :
  ocd_ids D = ids ->
  exists out s',
    Heap.parse_result repr_container data cache s0 = (out, s')
    /\ extends s0 s'
    /\ view_outcome (out, s') = Some (Generic.parse_result D C).
Proof.
  intros HD. unfold Heap.parse_result, Generic.parse_result. rewrite HD.
  assert (H1 : new_dict [] s0
               = (Ret ddv, {| dicts := dicts s0 ++ [[]]; lists := lists s0 |}))
    by reflexivity.
  assert (H2 : new_list (map (fun code => HAtom (SStr code)) Generic.territories)
                 {| dicts := dicts s0 ++ [[]]; lists := lists s0 |}
               = (Ret tv, started)) by reflexivity.
  pose proof inv_started as HIb.
  pose proof (run_new_empty_dict started) as H3.
  destruct (run_divisions started (inv_extends _ _ _ HIb)) as (dv & H4 & Hdv).
  destruct (run_items_divisions _ dv Hdv) as (items & H5 & Hitems).
  rewrite (mbind_ret _ _ _ _ _ H1), (mbind_ret _ _ _ _ _ H2), (mbind_ret _ _ _ _ _ H3),
    (mbind_ret _ _ _ _ _ H4), (mbind_ret _ _ _ _ _ H5).
  pose proof (inv_mono _ _ _ _ (extends_with_empty_dict started) HIb) as HIc.
  destruct (sim_divisions_loop items [] _ _ HIc) as (s1 & Hsim). rewrite Hitems in Hsim.
  destruct (foldM (Generic.process_division ids C) ids []) as [dd1|e] eqn:Hloop.
  - destruct Hsim as (H6 & cells1 & HI1). rewrite (mbind_ret _ _ _ _ _ H6). cbn [bind].
    destruct (sim_at_large_from_states dd1 _ _ HI1) as (s2 & Hsim2).
    destruct (Generic.at_large_from_states C dd1) as [dd2|e] eqn:Hal.
    + destruct Hsim2 as (H7 & cells2 & HI2). rewrite (mbind_ret _ _ _ _ _ H7). cbn [bind].
      destruct (sim_apply_test_data dd2 _ _ HI2) as (s3 & H8 & cells3 & HI3).
      rewrite (mbind_ret _ _ _ _ _ H8).
      assert (Hnd : NoDup (PyDict.keys (Generic.apply_test_data ids dd2))).
      { apply nodup_apply_test_data.
        apply (ku_at_large_from_states C dd1); [|exact Hal].
        exact (ku_generic_loop C ids ids dd1 Hloop). }
      destruct (run_district_entries s3 cells3 _ HI3 Hnd) as (v & s4 & H9 & He & Hview).
      exists (Ret v), s4. split; [exact H9|]. split.
      * exact (extends_trans _ _ _ (inv_extends _ _ _ HI3) He).
      * unfold view_outcome. cbn [fst snd]. rewrite Hview. reflexivity.
    + destruct Hsim2 as (H7 & He). rewrite (mbind_raise _ _ _ _ _ H7).
      exists (Raise e), s2. split; [reflexivity|]. split; [exact He | reflexivity].
  - destruct Hsim as (H6 & He). rewrite (mbind_raise _ _ _ _ _ H6).
    exists (Raise e), s1. split; [reflexivity|]. split; [exact He | reflexivity].
Qed.


End Records.

End Invariant.

(** *** The arguments in a larger store *)

Lemma view_ids_extends (s s' : store) (v : hval) (ids : list string) :
  extends s s' -> view_ids s v = Some ids -> view_ids s' v = Some ids.
Proof.
  intros He. destruct v as [a|l|l]; simpl; try discriminate.
  destruct (dicts s !! l) as [d|] eqn:Hd; simpl; [|discriminate].
  rewrite (extends_dict _ _ _ _ He Hd). simpl.
  destruct (PyDict.get "divisions" d) as [[a|l'|l']|]; try discriminate; [|auto].
  destruct (dicts s !! l') as [d'|] eqn:Hd'; simpl; [|discriminate].
  rewrite (extends_dict _ _ _ _ He Hd'). auto.
Qed.

Lemma view_state_bucket_extends (s s' : store) (v : hval) (b : StateBucket) :
  extends s s' -> view_state_bucket s v = Some b -> view_state_bucket s' v = Some b.
Proof.
  intros He. destruct v as [a|l|l]; simpl; try discriminate.
  destruct (dicts s !! l) as [d|] eqn:Hd; simpl; [|discriminate].
  rewrite (extends_dict _ _ _ _ He Hd). simpl.
  destruct (PyDict.get "senators" d) as [lv|]; [|auto].
  destruct (view_records s lv) as [rs|] eqn:Hrs; simpl; [|discriminate].
  rewrite (view_records_extends _ _ _ _ He Hrs). auto.
Qed.

Lemma view_district_bucket_extends (s s' : store) (v : hval) (b : DistrictBucket) :
  extends s s' -> view_district_bucket s v = Some b -> view_district_bucket s' v = Some b.
Proof.
  intros He. destruct v as [a|l|l]; simpl; try discriminate.
  destruct (dicts s !! l) as [d|] eqn:Hd; simpl; [|discriminate].
  rewrite (extends_dict _ _ _ _ He Hd). simpl.
  destruct (PyDict.get "representative" d) as [rv|]; [|auto].
  destruct (view_record s rv) as [r|] eqn:Hr; simpl; [|discriminate].
  rewrite (view_record_extends _ _ _ _ He Hr). auto.
Qed.

Lemma view_section_extends {B : Type} (view : store -> hval -> option B)
    (s s' : store) (d : list (string * hval)) (k : string)
    (sec : option (list (string * B))) :
  (forall v b, view s v = Some b -> view s' v = Some b) ->
  extends s s' ->
  view_section view s d k = Some sec -> view_section view s' d k = Some sec.
Proof.
  intros Hv He. unfold view_section.
  destruct (PyDict.get k d) as [[a|l|l]|]; try discriminate; [|auto].
  destruct (dicts s !! l) as [items|] eqn:Hl; simpl; [|discriminate].
  rewrite (extends_dict _ _ _ _ He Hl). simpl.
  destruct (list.mapM (view_item (view s)) items) as [buckets|] eqn:Hb; simpl;
    [|discriminate].
  assert (Hb' : list.mapM (view_item (view s')) items = Some buckets).
  { revert Hb. apply mapM_ext_Some. intros kv kb. apply view_item_ext. exact Hv. }
  rewrite Hb'. auto.
Qed.

Lemma view_cache_extends (s s' : store) (v : hval) (C : LegislatorCache) :
  extends s s' -> view_cache s v = Some C -> view_cache s' v = Some C.
Proof.
  intros He. destruct v as [a|l|l]; simpl; try discriminate.
  destruct (dicts s !! l) as [d|] eqn:Hd; simpl; [|discriminate].
  rewrite (extends_dict _ _ _ _ He Hd). simpl.
  destruct (view_section view_state_bucket s d "states") as [sts|] eqn:Hs; simpl;
    [|discriminate].
  destruct (view_section view_district_bucket s d "districts") as [ds|] eqn:Hds; simpl;
    [|discriminate].
  rewrite (view_section_extends _ _ _ _ _ _
             (fun v b => view_state_bucket_extends s s' v b He) He Hs).
  rewrite (view_section_extends _ _ _ _ _ _
             (fun v b => view_district_bucket_extends s s' v b He) He Hds).
  auto.
Qed.

End Refinement.

(** The outcome of a call reads the same in a store that extends the one
    the call left. *)
Lemma view_outcome_extends (out : res Heap.hval) (s s' : Heap.store)
    (r : res MapperResult) :
  Heap.extends s s' ->
  Heap.view_outcome (out, s) = Some r -> Heap.view_outcome (out, s') = Some r.
Proof.
  intros He. unfold Heap.view_outcome. cbn [fst snd].
  destruct out as [v|e]; [|auto].
  destruct (Heap.view_result s v) as [m|] eqn:Hv; simpl; [|discriminate].
  rewrite (HeapFacts.view_result_extends _ _ _ _ He Hv). auto.
Qed.

(** The mapper's outcome is that of the mapper of the model on what the
    two arguments hold, wherever the objects live and whatever else the
    store has. *)
Lemma parse_result_reads_its_arguments
    (repr_container : Heap.store -> Heap.hval -> string)
    (s : Heap.store) (data cache : Heap.hval)
    (D : DivisionResponse) (C : LegislatorCache) :
  Heap.view_ids s data = Some (ocd_ids D) ->
  Heap.view_cache s cache = Some C ->
  exists out s',
    Heap.parse_result repr_container data cache s = (out, s')
    /\ Heap.extends s s'
    /\ Heap.view_outcome (out, s') = Some (Generic.parse_result D C).
Proof.
  intros Hids Hcache.
  exact (Refinement.parse_result_refines s repr_container cache data C (ocd_ids D)
           Hcache Hids D eq_refl).
Qed.

(** C5: the mapper as the Python code runs it, on objects of a store: the
    response and the cache are dictionaries that it only reads, every
    entry it returns is made of objects new in the call.  Called twice
    with the same response and the same cache (the module-level
    [CACHED_LEGISLATORS], one object for all calls), the second time in
    the store the first call left, it gives twice the same outcome: the
    [districts] map that [Generic.parse_result] computes from what the two
    objects hold, or the same exception.  No object of the store is
    changed by a call, so the first result still reads the same after the
    second call. *)
Theorem parse_result_deterministic
    (repr_container : Heap.store -> Heap.hval -> string)
    (s : Heap.store) (data cache : Heap.hval)
    (D : DivisionResponse) (C : LegislatorCache) :
  Heap.view_ids s data = Some (ocd_ids D) ->
  Heap.view_cache s cache = Some C ->
  exists out1 s1 out2 s2,
    Heap.parse_result repr_container data cache s = (out1, s1)
    /\ Heap.parse_result repr_container data cache s1 = (out2, s2)
    /\ Heap.view_outcome (out1, s1) = Some (Generic.parse_result D C)
    /\ Heap.view_outcome (out2, s2) = Some (Generic.parse_result D C)
    /\ Heap.view_outcome (out1, s2) = Some (Generic.parse_result D C)
    /\ Heap.view_outcome (out1, s1) = Heap.view_outcome (out2, s2)
    /\ Heap.extends s s1
    /\ Heap.extends s1 s2.
Proof.
  intros Hids Hcache.
  destruct (Refinement.parse_result_refines s repr_container cache data C (ocd_ids D)
              Hcache Hids D eq_refl) as (out1 & s1 & Hrun1 & He1 & Hv1).
  pose proof (Refinement.view_ids_extends _ _ _ _ He1 Hids) as Hids1.
  pose proof (Refinement.view_cache_extends _ _ _ _ He1 Hcache) as Hcache1.
  destruct (Refinement.parse_result_refines s1 repr_container cache data C (ocd_ids D)
              Hcache1 Hids1 D eq_refl) as (out2 & s2 & Hrun2 & He2 & Hv2).
  exists out1, s1, out2, s2.
  split; [exact Hrun1|]. split; [exact Hrun2|]. split; [exact Hv1|].
  split; [exact Hv2|]. split; [exact (view_outcome_extends _ _ _ _ He2 Hv1)|].
  split; [rewrite Hv1, Hv2; reflexivity|]. split; [exact He1 | exact He2].
Qed.

Lemma parse_result_deterministic_witness :
  exists out1 s1 out2 s2,
    Heap.parse_result StoreSamples.no_repr StoreSamples.loaded_response
      StoreSamples.loaded_cache StoreSamples.loaded = (out1, s1)
    /\ Heap.parse_result StoreSamples.no_repr StoreSamples.loaded_response
         StoreSamples.loaded_cache s1 = (out2, s2)
    /\ Heap.view_outcome (out1, s1)
       = Some (Generic.parse_result StoreSamples.response_value StoreSamples.cache_value)
    /\ Heap.view_outcome (out2, s2)
       = Some (Generic.parse_result StoreSamples.response_value StoreSamples.cache_value)
    /\ Heap.view_outcome (out1, s2)
       = Some (Generic.parse_result StoreSamples.response_value StoreSamples.cache_value)
    /\ Heap.view_outcome (out1, s1) = Heap.view_outcome (out2, s2)
    /\ Heap.extends StoreSamples.loaded s1
    /\ Heap.extends s1 s2.
Proof.
  apply (parse_result_deterministic StoreSamples.no_repr StoreSamples.loaded
           StoreSamples.loaded_response StoreSamples.loaded_cache
           StoreSamples.response_value StoreSamples.cache_value);
    reflexivity.
Defined.
